(** * FlowCode: container executor, command repair, pool reconciliation,
      planner fallbacks and structured-response extraction

    A shallow embedding of the TypeScript sources:
    - [src/app/api/docker/execute/route.ts]      (module [Executor])
    - [services/docker-service-server.ts]        (module [ServerService])
    - [src/ai/flows/agentric-planning-flow.ts]   (modules [Repair], [Planner])
    - [src/app/api/docker/containers/route.ts],
      [cleanup-others/route.ts], [cleanup/route.ts] (module [Routes])
    - [services/docker-service.ts]               (module [Pool])
    - [services/gemini-service.ts]               (module [Gemini])

    JavaScript strings are modelled as byte strings ([string]) holding the
    text in UTF-8, the encoding in which the output of a process is read; on
    ASCII text the code-unit operations of the sources ([split], [includes],
    [substring], ...) coincide with the definitions of module [JS], and
    [trim] also strips the white space beyond ASCII, by its encoding. *)

From Stdlib Require Import String Ascii List ZArith NArith Lia Bool Floats.
From stdpp Require Import base gmap strings pretty.
Import ListNotations.
Open Scope string_scope.
Open Scope list_scope.

(** String concatenation is unfolded by [simpl] on a constructor again. *)
Arguments String.append !s1 s2 : simpl nomatch.

(* ===================================================================== *)
(** ** JavaScript string primitives used by the sources *)
(* ===================================================================== *)

Module JS.

(** Line feed and the double quote, built from their codes. *)
Definition nl : string := String "010"%char EmptyString.
Definition dq : string := String "034"%char EmptyString.
Definition bs : string := String "092"%char EmptyString.

(** [s.startsWith(p)] *)
Fixpoint startsWith (s p : string) {struct p} : bool :=
  match p with
  | EmptyString => true
  | String a p' =>
      match s with
      | String b s' => Ascii.eqb a b && startsWith s' p'
      | EmptyString => false
      end
  end.

(** [s.includes(p)] *)
Fixpoint includes (s p : string) : bool :=
  startsWith s p ||
  match s with
  | EmptyString => false
  | String _ s' => includes s' p
  end.

(** A string is truthy when it is not empty. *)
Definition truthy (s : string) : bool :=
  match s with EmptyString => false | String _ _ => true end.

(** [a || b] on strings. *)
Definition or_else (a b : string) : string := if truthy a then a else b.

(** The white space of one byte, which is the ASCII part of ECMAScript's
    WhiteSpace and LineTerminator classes: TAB, LF, VT, FF, CR and SPACE.
    The regular expressions of the sources are read with this part of the
    class [\s]; [trim] strips the white space of more bytes as well. *)
Definition isWhiteSpace (c : ascii) : bool :=
  let n := nat_of_ascii c in
  Nat.eqb n 9 || Nat.eqb n 10 || Nat.eqb n 11 || Nat.eqb n 12 ||
  Nat.eqb n 13 || Nat.eqb n 32.

(** The text after the run of bytes of class [isWhiteSpace] a text starts
    with. *)
Fixpoint skipWhite (s : string) : string :=
  match s with
  | EmptyString => EmptyString
  | String c s' => if isWhiteSpace c then skipWhite s' else s
  end.

(** The rest of WhiteSpace and LineTerminator, by the UTF-8 encoding:
    U+00A0 is C2 A0; U+1680 is E1 9A 80; U+2000 to U+200A are E2 80 80 to
    E2 80 8A; U+2028, U+2029 and U+202F are E2 80 A8, E2 80 A9 and E2 80 AF;
    U+205F is E2 81 9F; U+3000 is E3 80 80; U+FEFF is EF BB BF. *)
Definition wideSpace2 (a b : ascii) : bool :=
  Nat.eqb (nat_of_ascii a) 194 && Nat.eqb (nat_of_ascii b) 160.

Definition wideSpace3 (a b c : ascii) : bool :=
  let x := nat_of_ascii a in
  let y := nat_of_ascii b in
  let z := nat_of_ascii c in
  (Nat.eqb x 225 && Nat.eqb y 154 && Nat.eqb z 128)
  || (Nat.eqb x 226 && Nat.eqb y 128
      && (((128 <=? z)%nat && (z <=? 138)%nat)
          || Nat.eqb z 168 || Nat.eqb z 169 || Nat.eqb z 175))
  || (Nat.eqb x 226 && Nat.eqb y 129 && Nat.eqb z 159)
  || (Nat.eqb x 227 && Nat.eqb y 128 && Nat.eqb z 128)
  || (Nat.eqb x 239 && Nat.eqb y 187 && Nat.eqb z 191).

(** The text after the white space a text starts with, for white space of
    one byte ([isWhiteSpace]), of two ([w2]) and of three ([w3]). *)
Fixpoint dropSpaces (w2 : ascii -> ascii -> bool)
    (w3 : ascii -> ascii -> ascii -> bool) (s : string) : string :=
  match s with
  | EmptyString => EmptyString
  | String a s1 =>
      if isWhiteSpace a then dropSpaces w2 w3 s1
      else
        match s1 with
        | EmptyString => s
        | String b s2 =>
            if w2 a b then dropSpaces w2 w3 s2
            else
              match s2 with
              | EmptyString => s
              | String c s3 => if w3 a b c then dropSpaces w2 w3 s3 else s
              end
        end
  end.

Fixpoint reverseOnto (s acc : string) : string :=
  match s with
  | EmptyString => acc
  | String c s' => reverseOnto s' (String c acc)
  end.

Definition reverse (s : string) : string := reverseOnto s EmptyString.

(** [s.trimStart()] *)
Definition trimStart (s : string) : string := dropSpaces wideSpace2 wideSpace3 s.

(** [s.trimEnd()]: the same from the end, each white space read backwards. *)
Definition trimEnd (s : string) : string :=
  reverse (dropSpaces (fun a b => wideSpace2 b a)
                      (fun a b c => wideSpace3 c b a) (reverse s)).

(** [s.trim()] *)
Definition trim (s : string) : string := trimEnd (trimStart s).

(** [s.split(sep)] for a one-character separator: never the empty list. *)
Fixpoint split (sep : ascii) (s : string) : list string :=
  match s with
  | EmptyString => [EmptyString]
  | String c s' =>
      if Ascii.eqb c sep then EmptyString :: split sep s'
      else match split sep s' with
           | h :: t => String c h :: t
           | [] => [String c EmptyString]
           end
  end.

Definition space : ascii := "032"%char.
Definition lf : ascii := "010"%char.

(** [l.join(sep)] *)
Definition join (sep : string) (l : list string) : string := String.concat sep l.

(** [l.pop()] read as a value: the last element, [undefined] on []. *)
Fixpoint pop (l : list string) : option string :=
  match l with
  | [] => None
  | [x] => Some x
  | _ :: t => pop t
  end.

(** [l[i] === v], false when [l[i]] is undefined. *)
Definition at_is (l : list string) (i : nat) (v : string) : bool :=
  match nth_error l i with
  | Some x => String.eqb x v
  | None => false
  end.

(** [l.slice(a, b)] for [0 <= a], [0 <= b]. *)
Definition slice (a b : nat) (l : list string) : list string :=
  firstn (b - a) (skipn a l).

(** [s.substring(n)] *)
Fixpoint substring_from (n : nat) (s : string) : string :=
  match n, s with
  | O, _ => s
  | S n', String _ s' => substring_from n' s'
  | S _, EmptyString => EmptyString
  end.

(** [s.replace(/c/g, r)] for a one-character pattern [c] and a replacement
    [r] without [$]. *)
Fixpoint replaceAllChar (c : ascii) (r : string) (s : string) : string :=
  match s with
  | EmptyString => EmptyString
  | String x s' =>
      if Ascii.eqb x c then r +:+ replaceAllChar c r s'
      else String x (replaceAllChar c r s')
  end.

(** The replacement-template expansion (GetSubstitution) of
    [String.prototype.replace] when the pattern has [captures] capture
    groups (none for a string pattern): [$$] is a dollar, [$&] the match,
    [$`] the text before it, [$'] the text after it, [$n] and [$nn] a capture
    when it exists; any other [$] stands for itself. *)
Definition digit_of (c : ascii) : option nat :=
  let n := nat_of_ascii c in
  if (48 <=? n)%nat && (n <=? 57)%nat then Some (n - 48)%nat else None.

Definition capture (captures : list string) (k : nat) : option string :=
  match k with
  | O => None
  | S k' => nth_error captures k'
  end.

Fixpoint getSubstitution (matched before after : string)
    (captures : list string) (template : string) : string :=
  let go := getSubstitution matched before after captures in
  match template with
  | EmptyString => EmptyString
  | String c rest0 =>
      if Ascii.eqb c "$" then
        match rest0 with
        | EmptyString => String c EmptyString
        | String d1 rest =>
            if Ascii.eqb d1 "$" then String "$" (go rest)
            else if Ascii.eqb d1 "&" then matched +:+ go rest
            else if Ascii.eqb d1 "`" then before +:+ go rest
            else if Ascii.eqb d1 "'" then after +:+ go rest
            else
              match digit_of d1 with
              | None => String "$" (String d1 (go rest))
              | Some n1 =>
                  let one :=
                    match capture captures n1 with
                    | Some x => x +:+ go rest
                    | None => String "$" (String d1 (go rest))
                    end in
                  match rest with
                  | String d2 rest2 =>
                      match digit_of d2 with
                      | Some n2 =>
                          match capture captures (10 * n1 + n2) with
                          | Some x => x +:+ go rest2
                          | None => one
                          end
                      | None => one
                      end
                  | EmptyString => one
                  end
              end
        end
      else String c (go rest0)
  end.

(** [s.replace(pat, template)] for a string pattern: the first occurrence
    only; [before] is the text already passed. *)
Fixpoint replaceFirstFrom (before : string) (s pat template : string) : string :=
  if startsWith s pat then
    let after := substring_from (String.length pat) s in
    getSubstitution pat before after [] template +:+ after
  else
    match s with
    | EmptyString => EmptyString
    | String c s' =>
        String c (replaceFirstFrom (before +:+ String c EmptyString) s' pat template)
    end.

Definition replaceFirst (s pat template : string) : string :=
  replaceFirstFrom EmptyString s pat template.

(** [s.replace(/^"|"$/g, '')]: a leading and a trailing double quote go. *)
Definition stripLeadingQuote (s : string) : string :=
  match s with
  | String "034" s' => s'
  | _ => s
  end.

Fixpoint stripTrailingQuote (s : string) : string :=
  match s with
  | EmptyString => EmptyString
  | String "034" EmptyString => EmptyString
  | String c s' => String c (stripTrailingQuote s')
  end.

Definition stripQuotes (s : string) : string :=
  stripTrailingQuote (stripLeadingQuote s).

(** [JSON.stringify(s)] for a string (QuoteJSONString). *)
Definition hexDigit (n : nat) : ascii :=
  if (n <? 10)%nat then ascii_of_nat (48 + n) else ascii_of_nat (87 + n).

Definition quoteChar (c : ascii) : string :=
  let n := nat_of_ascii c in
  if Nat.eqb n 8 then bs +:+ "b"
  else if Nat.eqb n 9 then bs +:+ "t"
  else if Nat.eqb n 10 then bs +:+ "n"
  else if Nat.eqb n 12 then bs +:+ "f"
  else if Nat.eqb n 13 then bs +:+ "r"
  else if Nat.eqb n 34 then bs +:+ dq
  else if Nat.eqb n 92 then bs +:+ bs
  else if (n <? 32)%nat then
    bs +:+ "u00" +:+ String (hexDigit (n / 16)) (String (hexDigit (n mod 16)) EmptyString)
  else String c EmptyString.

Fixpoint quoteBody (s : string) : string :=
  match s with
  | EmptyString => EmptyString
  | String c s' => quoteChar c +:+ quoteBody s'
  end.

Definition JSON_stringify (s : string) : string := dq +:+ quoteBody s +:+ dq.

End JS.

(* ===================================================================== *)
(** ** The host: child processes and HTTP responses *)
(* ===================================================================== *)

Module Host.

(** What a child process started through [/bin/sh -c] leaves behind: its
    exit status and what it wrote to its two streams, which is UTF-8 text
    for the commands of the sources and is read as such. *)
Record ProcResult := mkProc {
  pr_status : Z;
  pr_stdout : string;
  pr_stderr : string
}.

(** A thrown JavaScript value: an [Error] with its message and, for the
    errors of [child_process], its [stderr] property; or any other value. *)
Inductive thrown :=
| ErrorObj (message : string) (stderr : option string)
| NonError.

(** [error instanceof Error ? error.message : dflt] *)
Definition message_or (dflt : string) (e : thrown) : string :=
  match e with
  | ErrorObj m _ => m
  | NonError => dflt
  end.

(** Node's default [maxBuffer] of [execSync]. *)
Definition defaultMaxBuffer : N := 1024 * 1024.

Section ExecSync.
Variable World : Type.
  (** The environment: what running a command line does to the world. *)
Variable spawn : string -> World -> ProcResult * World.

  (** Node's [child_process.execSync(cmd, {encoding: 'utf-8', maxBuffer})]:
      it returns the standard output of a process that exits with status 0
      and throws otherwise; output above [maxBuffer] bytes on either stream
      ends the call with the error ENOBUFS. The message of the error of a
      failed command is [Command failed: ] and the command line, followed
      by a line feed and the standard error only when that is not empty. *)
Definition execSync (cmd : string) (maxBuffer : N) (w : World)
      : (string + thrown) * World :=
    let '(r, w') := spawn cmd w in
    if (maxBuffer <? N.of_nat (String.length (pr_stdout r)))%N
       || (maxBuffer <? N.of_nat (String.length (pr_stderr r)))%N
    then (inr (ErrorObj "spawnSync /bin/sh ENOBUFS" (Some (pr_stderr r))), w')
    else if (pr_status r =? 0)%Z then (inl (pr_stdout r), w')
    else (inr (ErrorObj ("Command failed: " +:+ cmd
                         +:+ (if JS.truthy (pr_stderr r)
                              then JS.nl +:+ pr_stderr r else EmptyString))
                 (Some (pr_stderr r))), w').

(** [execSync(cmd, {stdio: 'inherit'})]: nothing is captured. *)
Definition execSyncInherit (cmd : string) (w : World) : (unit + thrown) * World :=
  let '(r, w') := spawn cmd w in
  if (pr_status r =? 0)%Z then (inl tt, w')
  else (inr (ErrorObj ("Command failed: " +:+ cmd) None), w').
End ExecSync.

(** The same environment with a journal of the command lines it was asked
    to run, oldest first. *)
Definition logged {World : Type} (spawn : string -> World -> ProcResult * World)
    (cmd : string) (wl : World * list string) : ProcResult * (World * list string) :=
  let '(r, w') := spawn cmd (fst wl) in (r, (w', snd wl ++ [cmd])).

(** A response of a route handler as [fetch] shows it to the caller. *)
Record Response (B : Type) := mkResponse {
  status : nat;
  body : B
}.
Arguments mkResponse {B} _ _.
Arguments status {B} _.
Arguments body {B} _.

(** [response.ok] *)
Definition ok {B} (r : Response B) : bool :=
  (200 <=? status r)%nat && (status r <? 300)%nat.

(** [response.statusText] for the status codes the handlers use. *)
Definition statusText {B} (r : Response B) : string :=
  match status r with
  | 200%nat => "OK"
  | 400%nat => "Bad Request"
  | 404%nat => "Not Found"
  | 500%nat => "Internal Server Error"
  | _ => EmptyString
  end.

End Host.

(* ===================================================================== *)
(** ** How the shell of [execSync] reads a command line *)
(* ===================================================================== *)

Module Shell.
Import JS.

(** [execSync] hands its command line to [/bin/sh -c]. The shell splits
    the line into words at the blanks outside quotes. Between double quotes
    a backslash keeps its meaning only before [$], a backquote, a double
    quote, a backslash and a line feed, and [$] and the backquote are where
    an expansion may start. [words line] is the list of the words of a line
    made of plain characters, blanks and double-quoted parts without [$]
    and backquote: the arguments the program named by the first word is
    started with. It is [None] for any other line, whose reading takes more
    than these rules: a line with [$] or a backquote between double quotes,
    an operator, a single quote, or another character that is special
    outside quotes. *)
Definition isPlain (c : ascii) : bool :=
  let n := nat_of_ascii c in
  ((48 <=? n)%nat && (n <=? 57)%nat)
  || ((65 <=? n)%nat && (n <=? 90)%nat)
  || ((97 <=? n)%nat && (n <=? 122)%nat)
  || Ascii.eqb c "_" || Ascii.eqb c "-" || Ascii.eqb c "." || Ascii.eqb c "/".

Definition isBlank (c : ascii) : bool := Ascii.eqb c " " || Ascii.eqb c "009".

(** The word in progress with one more character. *)
Definition grown (cur : option string) (c : ascii) : option string :=
  Some (default EmptyString cur +:+ String c EmptyString).

(** The end of the word in progress, if there is one. *)
Definition closed (cur : option string) (rest : option (list string))
    : option (list string) :=
  match cur with
  | Some w => option_map (cons w) rest
  | None => rest
  end.

Fixpoint scan (quoted : bool) (cur : option string) (s : string)
    : option (list string) :=
  match s with
  | EmptyString => if quoted then None else closed cur (Some [])
  | String c s1 =>
      if quoted then
        if Ascii.eqb c "034" then scan false cur s1
        else if Ascii.eqb c "$" || Ascii.eqb c "`" then None
        else if Ascii.eqb c "092" then
          match s1 with
          | EmptyString => None
          | String d s2 =>
              if Ascii.eqb d "$" || Ascii.eqb d "`" || Ascii.eqb d "034"
                 || Ascii.eqb d "092"
              then scan true (grown cur d) s2
              else if Ascii.eqb d "010" then scan true cur s2
              else scan true (grown (grown cur c) d) s2
          end
        else scan true (grown cur c) s1
      else
        if isBlank c then closed cur (scan false None s1)
        else if Ascii.eqb c "034" then scan true (Some (default EmptyString cur)) s1
        else if isPlain c then scan false (grown cur c) s1
        else None
  end.

Definition words (line : string) : option (list string) := scan false None line.

(** The characters [JSON.stringify] and the shell together give back: all
    but the control characters, which [JSON.stringify] writes with a
    backslash the shell keeps, and [$] and the backquote, which
    [JSON.stringify] leaves to the shell. *)
Definition isLiteral (c : ascii) : bool :=
  (32 <=? nat_of_ascii c)%nat && negb (Ascii.eqb c "$") && negb (Ascii.eqb c "`").

Fixpoint every (p : ascii -> bool) (s : string) : bool :=
  match s with
  | EmptyString => true
  | String c s' => p c && every p s'
  end.

End Shell.

(* ===================================================================== *)
(** ** The Command Executor: POST /api/docker/execute *)
(* ===================================================================== *)

Module Executor.
Import JS Host.

(** The JSON body of the handler's responses; absent fields are [None]. *)
Record ExecBody := mkExecBody {
  success : option bool;
  output : option string;
  error : option string;
  details : option string;
  stderr : option string
}.

(** The rewriting of the submitted tokens (route.ts, lines 39-66). *)
Definition isEchoRedirect (command : list string) : bool :=
  at_is command 0 "echo" && (2 <? length command)%nat
  && at_is command (length command - 2) ">".

Definition echoRewrite (command : list string) : list string :=
  let fileName := nth (length command - 1) command EmptyString in
  let content := join " " (slice 1 (length command - 2) command) in
  ["bash"; "-c"; "echo " +:+ content +:+ " > " +:+ dq +:+ fileName +:+ dq].

Definition isMkdirWithoutP (command : list string) : bool :=
  at_is command 0 "mkdir" && negb (existsb (String.eqb "-p") command).

Definition modifiedCommand (command : list string) : list string :=
  let m := command in
  let m := if isEchoRedirect command then echoRewrite command else m in
  let m := if isMkdirWithoutP command then "mkdir" :: "-p" :: tl command else m in
  m.

(** [modifiedCommand.map(arg => JSON.stringify(arg)).join(' ')] *)
Definition escapedCommand (command : list string) : string :=
  join " " (map JSON_stringify (modifiedCommand command)).

(** The buffer ceiling handed to [execSync] (line 76). *)
Definition maxBuffer : N := 1024 * 1024 * 5.

Section Route.
Variable World : Type.
Variable spawn : string -> World -> ProcResult * World.

  (** The [catch] of the execution block (lines 84-100). *)
Definition failureBody (e : thrown) : ExecBody :=
    let errorMessage := message_or "Error desconocido" e in
    let stderr_ :=
      match e with
      | ErrorObj _ (Some s) => Some s
      | ErrorObj _ None => Some "Salida de error no disponible"
      | NonError => Some "Salida de error no disponible"
      end in
    {| success := Some false;
       output := Some (or_else (default EmptyString stderr_) errorMessage);
       error := Some "Error al ejecutar comando";
       details := Some errorMessage;
       stderr := stderr_ |}.

  (** The handler, for a request body [{containerId, command}] whose
      [command] is an array of strings. *)
Definition POST (containerId : string) (command : list string) (w : World)
      : Response ExecBody * World :=
    if negb (truthy containerId) then
      (mkResponse 400
         {| success := None; output := None;
            error := Some "Parámetros inválidos. Se requiere containerId y un array de command";
            details := None; stderr := None |}, w)
    else
      match execSync World spawn ("docker container inspect " +:+ containerId)
              defaultMaxBuffer w with
      | (inr _, w1) =>
          (mkResponse 404
             {| success := None; output := None;
                error := Some ("El contenedor " +:+ containerId +:+ " no existe");
                details := None; stderr := None |}, w1)
      | (inl _, w1) =>
          (* the working directory is only logged; a failure is swallowed *)
          let '(_, w2) := execSync World spawn ("docker exec " +:+ containerId +:+ " pwd")
                            defaultMaxBuffer w1 in
          match execSync World spawn
                  ("docker exec " +:+ containerId +:+ " " +:+ escapedCommand command)
                  maxBuffer w2 with
          | (inl out, w3) =>
              (mkResponse 200
                 {| success := Some true; output := Some (trim out);
                    error := None; details := None; stderr := None |}, w3)
          | (inr e, w3) => (mkResponse 200 (failureBody e), w3)
          end
      end.

  (** The command line of the execution proper (line 74). *)
Definition execLine (containerId : string) (command : list string) : string :=
    "docker exec " +:+ containerId +:+ " " +:+ escapedCommand command.

  (** The world in which the execution proper starts: after the existence
      check and the working-directory probe. *)
Definition worldBeforeExec (containerId : string) (w : World) : World :=
    let '(_, w1) := spawn ("docker container inspect " +:+ containerId) w in
    let '(_, w2) := spawn ("docker exec " +:+ containerId +:+ " pwd") w1 in
    w2.

Definition containerExists (containerId : string) (w : World) : bool :=
    match execSync World spawn ("docker container inspect " +:+ containerId)
            defaultMaxBuffer w with
    | (inl _, _) => true
    | (inr _, _) => false
    end.
End Route.

End Executor.



(* ===================================================================== *)
(** ** Computations over a store that may throw *)
(* ===================================================================== *)

Module Eff.
Import Host.

(** Computations over a store that may throw; what was assigned before a
    throw stays assigned. *)
Definition M (S A : Type) : Type := S -> (A + thrown) * S.

Definition ret {S A} (a : A) : M S A := fun s => (inl a, s).

Definition throw {S A} (e : thrown) : M S A := fun s => (inr e, s).

Definition bind {S A B} (m : M S A) (k : A -> M S B) : M S B :=
  fun s =>
    match m s with
    | (inl a, s') => k a s'
    | (inr e, s') => (inr e, s')
    end.

Definition tryCatch {S A} (m : M S A) (h : thrown -> M S A) : M S A :=
  fun s =>
    match m s with
    | (inl a, s') => (inl a, s')
    | (inr e, s') => h e s'
    end.

Notation "x <- m ;; k" := (bind m (fun x => k))
  (at level 100, m at next level, right associativity).
Notation "m ;;; k" := (bind m (fun _ => k))
  (at level 100, right associativity).

(** [for (const x of l) { f(x) }] *)
Fixpoint forEach {S A} (f : A -> M S unit) (l : list A) : M S unit :=
  match l with
  | [] => ret tt
  | x :: t => bind (f x) (fun _ => forEach f t)
  end.

End Eff.

(* ===================================================================== *)
(** ** DockerServiceServer.executeCommand (docker-service-server.ts) *)
(* ===================================================================== *)

Module ServerService.
Import JS Host.

Section Service.
Variable World : Type.
Variable spawn : string -> World -> ProcResult * World.

(** [fetch] of the execute endpoint reaches the handler; the method throws
    when the response is not ok and otherwise returns [data.output || ''],
    whatever [data.success] says. *)
Definition executeCommand (containerId : string) (command : list string)
    (w : World) : (string + thrown) * World :=
  let '(response, w') := Executor.POST World spawn containerId command w in
  if negb (ok response) then
    (inr (ErrorObj ("Error al ejecutar comando: " +:+ statusText response) None), w')
  else
    (inl (or_else (default EmptyString (Executor.output (body response))) EmptyString), w').

End Service.
End ServerService.

(* ===================================================================== *)
(** ** Command repair: shell_fix_command (agentric-planning-flow.ts) *)
(* ===================================================================== *)

Module Repair.
Import JS Host Eff.

(** The object the callback returns; absent properties are [None]. *)
Record FixResult := mkFixResult {
  original_command : string;
  fixed_command : option string;
  fix_strategy : option string;
  success : bool;
  output : option string;
  error : option string
}.

(** The store of the callback: the world and the two [let] variables that
    the rules assign. *)
Record St (World : Type) := mkSt {
  world : World;
  fixStrategy : string;
  fixedCommand : string
}.
Arguments mkSt {World} _ _ _.
Arguments world {World} _.
Arguments fixStrategy {World} _.
Arguments fixedCommand {World} _.

(** Characters with a meaning of their own in a regular expression. *)
Definition isSyntaxChar (c : ascii) : bool :=
  existsb (Ascii.eqb c)
    ["^"; "$"; "092"; "."; "*"; "+"; "?"; "("; ")"; "["; "]"; "{"; "}"; "|"]%char.

Fixpoint isLiteralSource (s : string) : bool :=
  match s with
  | EmptyString => true
  | String c s' => negb (isSyntaxChar c) && isLiteralSource s'
  end.

(** [s.replace(/^lit(\s)/, template)] for a literal [lit]: the match is [lit]
    followed by one white-space character, which is capture 1. *)
Definition replacePrefixWs (lit template s : string) : string :=
  if startsWith s lit then
    match substring_from (String.length lit) s with
    | String c rest =>
        if isWhiteSpace c then
          let ws := String c EmptyString in
          getSubstitution (lit +:+ ws) EmptyString rest [ws] template +:+ rest
        else s
    | EmptyString => s
    end
  else s.

(** [`bash -c "${cmd.replace(/"/g, '\\"')}"`] *)
Definition bashWrap (cmd : string) : string :=
  "bash -c " +:+ dq +:+ replaceAllChar "034" (bs +:+ dq) cmd +:+ dq.

(** The tokens handed to the executor for a repaired command
    (lines 386-393). *)
Definition commandParts (fixedCommand : string) : list string :=
  if startsWith fixedCommand "bash -c" then
    ["bash"; "-c"; stripQuotes (trim (substring_from 8 fixedCommand))]
  else if includes fixedCommand " " then split space fixedCommand
  else [fixedCommand].

Section Fix.
Variable World : Type.
Variable spawn : string -> World -> ProcResult * World.
(** The regular-expression engine, for the one expression the callback
    builds at run time from text that is not literal:
    [s.replace(new RegExp(source), template)], or the [SyntaxError] of the
    constructor. *)
Variable regExpReplace : string -> string -> string -> string + thrown.

Definition exec (containerId : string) (command : list string)
    : M (St World) string :=
  fun st =>
    let '(r, w') := ServerService.executeCommand World spawn containerId command (world st) in
    (r, mkSt w' (fixStrategy st) (fixedCommand st)).

Definition setStrategy (v : string) : M (St World) unit :=
  fun st => (inl tt, mkSt (world st) v (fixedCommand st)).

Definition setFixed (v : string) : M (St World) unit :=
  fun st => (inl tt, mkSt (world st) (fixStrategy st) v).

Definition getStrategy : M (St World) string :=
  fun st => (inl (fixStrategy st), st).

Definition getFixed : M (St World) string :=
  fun st => (inl (fixedCommand st), st).

(** [originalCommand.replace(new RegExp(`^${mainCommand}(\\s)`), template)] *)
Definition replaceMainCommand (mainCommand template originalCommand : string)
    : M (St World) string :=
  if isLiteralSource mainCommand then
    ret (replacePrefixWs mainCommand template originalCommand)
  else
    match regExpReplace ("^" +:+ mainCommand +:+ "(\s)") originalCommand template with
    | inl r => ret r
    | inr e => throw e
    end.

(** Rule 1 (lines 276-307). *)
Definition fileNotFound (container_id originalCommand : string) : M (St World) unit :=
  setStrategy "file_not_found" ;;;
  match pop (split space originalCommand) with
  | None => ret tt
  | Some fileName =>
      if truthy fileName && negb (startsWith fileName "-") then
        let cleanFileName := replaceAllChar "'" EmptyString
                               (replaceAllChar "034" EmptyString fileName) in
        foundFiles <- exec container_id
                        ["find"; "/uploads"; "-name"; cleanFileName; "-type"; "f"] ;;
        if truthy (trim foundFiles) then
          setFixed (replaceFirst originalCommand fileName
                      (nth 0 (split lf (trim foundFiles)) EmptyString))
        else if includes cleanFileName " " then
          setFixed (replaceFirst originalCommand fileName (dq +:+ cleanFileName +:+ dq))
        else
          findAllResult <- exec container_id
                             ["bash"; "-c";
                              "find / -name " +:+ dq +:+ cleanFileName +:+ dq
                              +:+ " -type f 2>/dev/null | head -1"] ;;
          if truthy (trim findAllResult) then
            setFixed (replaceFirst originalCommand fileName (trim findAllResult))
          else ret tt
      else ret tt
  end.

(** Rule 2 (lines 309-319). *)
Definition permissionDenied (originalCommand : string) : M (St World) unit :=
  setStrategy "permission_denied" ;;;
  if negb (startsWith originalCommand "sudo ") then
    setFixed ("sudo " +:+ originalCommand)
  else
    setFixed ("bash -c " +:+ dq +:+ originalCommand +:+ dq).

(** Rule 3 (lines 321-365). *)
Definition commandNotFound (container_id originalCommand : string) : M (St World) unit :=
  setStrategy "command_not_found" ;;;
  let mainCommand := nth 0 (split space originalCommand) EmptyString in
  (if String.eqb mainCommand "python" || String.eqb mainCommand "python3" then
     pythonVersions <- exec container_id
                         ["bash"; "-c";
                          "command -v python || command -v python3 || echo "
                          +:+ dq +:+ "No Python found" +:+ dq] ;;
     if includes pythonVersions "python3" then
       setFixed (replacePrefixWs "python" "python3$1" originalCommand)
     else if includes pythonVersions "python" then
       setFixed (replacePrefixWs "python3" "python$1" originalCommand)
     else ret tt
   else if String.eqb mainCommand "node" || String.eqb mainCommand "npm" then
     nodeCheck <- exec container_id
                    ["bash"; "-c";
                     "command -v node || command -v nodejs || echo "
                     +:+ dq +:+ "No Node.js found" +:+ dq] ;;
     if includes nodeCheck "nodejs" && negb (includes nodeCheck "node") then
       setFixed (replacePrefixWs "node" "nodejs$1" originalCommand)
     else ret tt
   else ret tt) ;;;
  fixedCommand <- getFixed ;;
  if String.eqb fixedCommand originalCommand then
    whichCommand <- exec container_id
                      ["bash"; "-c";
                       "which " +:+ mainCommand +:+ " || echo "
                       +:+ dq +:+ "Not found" +:+ dq] ;;
    if negb (includes whichCommand "Not found") then
      r <- replaceMainCommand mainCommand (trim whichCommand +:+ "$1") originalCommand ;;
      setFixed r
    else ret tt
  else ret tt.

(** Rule 4 (lines 367-372). *)
Definition syntaxError (originalCommand : string) : M (St World) unit :=
  setStrategy "syntax_error" ;;;
  setFixed (bashWrap originalCommand).

(** The classification and rewriting (lines 268-378). *)
Definition computeFix (container_id originalCommand errorMsg : string)
    : M (St World) unit :=
  setStrategy "unknown" ;;;
  setFixed originalCommand ;;;
  (if includes errorMsg "No such file or directory" then
     fileNotFound container_id originalCommand
   else if includes errorMsg "Permission denied" then
     permissionDenied originalCommand
   else if includes errorMsg "command not found" || includes errorMsg "not found" then
     commandNotFound container_id originalCommand
   else if includes errorMsg "unexpected token" || includes errorMsg "syntax error" then
     syntaxError originalCommand
   else ret tt) ;;;
  fixStrategy <- getStrategy ;;
  if String.eqb fixStrategy "unknown"
     && negb (String.eqb originalCommand (bashWrap originalCommand)) then
    setStrategy "general_fallback" ;;;
    setFixed (bashWrap originalCommand)
  else ret tt.

(** The single execution of the repaired command (lines 380-400). *)
Definition runFixed (container_id : string) : M (St World) (bool * string) :=
  fixedCommand <- getFixed ;;
  tryCatch
    (fixOutput <- exec container_id (commandParts fixedCommand) ;;
     ret (true, fixOutput))
    (fun fixError =>
       ret (false, message_or "Error al ejecutar comando corregido" fixError)).

(** The body of the outer [try] (lines 266-408). *)
Definition tryBody (container_id failed_command error_message : string)
    : M (St World) FixResult :=
  let originalCommand := failed_command in
  let errorMsg := error_message in
  computeFix container_id originalCommand errorMsg ;;;
  r <- runFixed container_id ;;
  fixStrategy <- getStrategy ;;
  fixedCommand <- getFixed ;;
  ret {| original_command := originalCommand;
         fixed_command := Some fixedCommand;
         fix_strategy := Some fixStrategy;
         success := fst r;
         output := Some (snd r);
         error := None |}.

(** The store in which the body starts; both variables are assigned before
    anything can throw. *)
Definition initial (failed_command : string) (w : World) : St World :=
  mkSt w "unknown" failed_command.

(** The callback, with the outer [catch] (lines 409-416). *)
Definition shell_fix_command (container_id failed_command error_message : string)
    (w : World) : FixResult * St World :=
  match tryBody container_id failed_command error_message (initial failed_command w) with
  | (inl r, st) => (r, st)
  | (inr e, st) =>
      ({| original_command := failed_command;
          fixed_command := None;
          fix_strategy := None;
          success := false;
          output := None;
          error := Some (message_or "Error desconocido" e) |}, st)
  end.

End Fix.
End Repair.

(* ===================================================================== *)
(** ** The registry routes: list, create, remove, clean up, initialize *)
(* ===================================================================== *)

Module Routes.
Import JS Host.

Definition pipe : ascii := "|"%char.

(** The two listings the handlers ask the runtime for. *)
Definition psFull : string :=
  "docker ps -a --format " +:+ dq
  +:+ "{{.ID}}|{{.Names}}|{{.Image}}|{{.Status}}|{{.CreatedAt}}" +:+ dq.

Definition psBrief : string :=
  "docker ps -a --format " +:+ dq +:+ "{{.ID}}|{{.Names}}|{{.Image}}" +:+ dq.

(** [output.trim().split('\n').filter(line => line.trim() !== '')] *)
Definition outputLines (output : string) : list string :=
  List.filter (fun line => truthy (trim line)) (split lf (trim output)).

(** The [TypeError] of the call of [includes] on [undefined]. *)
Definition typeError : thrown :=
  ErrorObj "Cannot read properties of undefined (reading 'includes')" None.

(** [l.map(f)] for a callback that may throw. *)
Fixpoint mapM {A B} (f : A -> B + thrown) (l : list A) : list B + thrown :=
  match l with
  | [] => inl []
  | x :: t =>
      match f x with
      | inr e => inr e
      | inl y =>
          match mapM f t with
          | inr e => inr e
          | inl ys => inl (y :: ys)
          end
      end
  end.

(** [l.filter(f)] for a callback that may throw. *)
Fixpoint filterM {A} (f : A -> bool + thrown) (l : list A) : list A + thrown :=
  match l with
  | [] => inl []
  | x :: t =>
      match f x with
      | inr e => inr e
      | inl b =>
          match filterM f t with
          | inr e => inr e
          | inl ys => inl (if b then x :: ys else ys)
          end
      end
  end.

(** *** GET /api/docker/containers *)

(** A record of the list, as serialized to the client. *)
Record ContainerInfo := mkContainerInfo {
  id : string;
  name : string;
  image : string;
  status : string;
  rawStatus : option string;
  created : option string;
  ports : option (list string)
}.

(** Runtime status text to the normalized status (lines 17-24). *)
Definition normalizedStatus (status : string) : string :=
  if includes status "Up" then "running"
  else if includes status "Exited" then "exited"
  else if includes status "Created" then "created"
  else "unknown".

(** The callback of [map] (lines 13-34): a line with fewer than four
    fields leaves [status] undefined and [status.includes] throws. *)
Definition parseLine (line : string) : ContainerInfo + thrown :=
  match split pipe line with
  | i :: n :: im :: st :: rest =>
      inl {| id := i; name := n; image := im;
             status := normalizedStatus st;
             rawStatus := Some st;
             created := head rest;
             ports := None |}
  | _ => inr typeError
  end.

(** The filter of lines 36-40. *)
Definition isAppContainer (c : ContainerInfo) : bool :=
  includes (name c) "codeai" || includes (image c) "codeai".

Record ErrorBody := mkErrorBody {
  err_error : string;
  err_details : option string
}.

(** *** POST /api/docker/cleanup-others and POST /api/docker/cleanup *)

Record Brief := mkBrief {
  b_id : string;
  b_name : option string;
  b_image : option string
}.

(** [const [id, name, image] = line.split('|')] *)
Definition parseBrief (line : string) : Brief :=
  let parts := split pipe line in
  {| b_id := nth 0 parts EmptyString;
     b_name := nth_error parts 1;
     b_image := nth_error parts 2 |}.

(** [container.name.includes('codeai') || container.image.includes('codeai')]
    on a record whose fields may be undefined. *)
Definition briefIsApp (c : Brief) : bool + thrown :=
  match b_name c with
  | None => inr typeError
  | Some n =>
      if includes n "codeai" then inl true
      else match b_image c with
           | None => inr typeError
           | Some im => inl (includes im "codeai")
           end
  end.

(** The filter of cleanup-others (lines 23-33). *)
Definition isOther (keepContainerId : string) (c : Brief) : bool + thrown :=
  match briefIsApp c with
  | inr e => inr e
  | inl b => inl (b && negb (String.eqb (b_id c) keepContainerId))
  end.

Record CleanupResult := mkCleanupResult {
  cr_id : string;
  cr_name : option string;
  cr_status : string;
  cr_error : option string
}.

Record CleanupBody := mkCleanupBody {
  cl_success : bool;
  cl_message : string;
  cl_results : option (list CleanupResult);
  cl_warning : option string
}.

Definition removed (c : Brief) : CleanupResult :=
  {| cr_id := b_id c; cr_name := b_name c; cr_status := "removed"; cr_error := None |}.

Definition countRemoved (results : list CleanupResult) : nat :=
  length (List.filter (fun r => String.eqb (cr_status r) "removed") results).

(** [s.substring(0, 12)] *)
Definition short12 (s : string) : string := String.substring 0 12 s.

(** *** POST /api/docker/container *)

Record DockerContainerConfig := mkConfig {
  cfg_image : string;
  cfg_name : option string;
  cfg_ports : option (list string);
  cfg_volumes : option (list string);
  cfg_envVars : option (list (string * string));
  cfg_command : option (list string);
  cfg_workdir : option string
}.

Definition defaultImage : string := "codeai-execution-env:latest".

(** [l.forEach(x => { cmd += ` ${flag} ${x}` })] *)
Definition flags (flag : string) (l : list string) : string :=
  fold_left (fun acc x => acc +:+ " " +:+ flag +:+ " " +:+ x) l EmptyString.

(** The command line of the creation (lines 13-47). *)
Definition dockerRunCmd (name image : string) (config : DockerContainerConfig) : string :=
  "docker run -d --name " +:+ name
  +:+ flags "-p" (default [] (cfg_ports config))
  +:+ flags "-e" (map (fun kv => fst kv +:+ "=" +:+ snd kv) (default [] (cfg_envVars config)))
  +:+ flags "-v" (default [] (cfg_volumes config))
  +:+ (match cfg_workdir config with
       | Some d => if truthy d then " -w " +:+ d else EmptyString
       | None => EmptyString
       end)
  +:+ " " +:+ image
  +:+ (match cfg_command config with
       | Some (c :: cs) => " " +:+ join " " (c :: cs)
       | _ => EmptyString
       end).

Definition checkCommands : list string :=
  ["python3 --version"; "node --version"; "ls -la /app"; "cat /etc/os-release"].

Record InitBody := mkInitBody {
  init_success : bool;
  init_container : ContainerInfo;
  init_python : string;
  init_node : string
}.

Section Handlers.
Variable World : Type.
Variable spawn : string -> World -> ProcResult * World.
(** [Date.now()] in a world, and [new Date(t).toISOString()]. *)
Variable now : World -> Z.
Variable toISOString : Z -> string.
(** Whether [JSON.parse(text)[0]] evaluates without throwing. *)
Variable firstOfParsed : string -> bool.
(** [fs.writeFileSync('Dockerfile', ...)] of the initialization. *)
Variable writeDockerfile : World -> option thrown * World.

Definition run (cmd : string) (w : World) : (string + thrown) * World :=
  execSync World spawn cmd defaultMaxBuffer w.

Definition GET_containers (w : World)
    : Response (list ContainerInfo + ErrorBody) * World :=
  match run psFull w with
  | (inr e, w1) =>
      (mkResponse 500
         (inr {| err_error := "Error al obtener lista de contenedores";
                 err_details := Some (message_or "Error desconocido" e) |}), w1)
  | (inl output, w1) =>
      match mapM parseLine (outputLines output) with
      | inr e =>
          (mkResponse 500
             (inr {| err_error := "Error al obtener lista de contenedores";
                     err_details := Some (message_or "Error desconocido" e) |}), w1)
      | inl containers =>
          (mkResponse 200 (inl (List.filter isAppContainer containers)), w1)
      end
  end.

(** The sequential removal shared by both cleanup handlers: stop, then
    remove, one container at a time; a failure is recorded and the loop
    goes on. *)
Fixpoint removeEach (containers : list Brief) (w : World)
    : list CleanupResult * World :=
  match containers with
  | [] => ([], w)
  | c :: rest =>
      let '(r, w') :=
        match run ("docker stop " +:+ b_id c) w with
        | (inr e, w1) =>
            ({| cr_id := b_id c; cr_name := b_name c; cr_status := "error";
                cr_error := Some (message_or "Error desconocido" e) |}, w1)
        | (inl _, w1) =>
            match run ("docker rm " +:+ b_id c) w1 with
            | (inr e, w2) =>
                ({| cr_id := b_id c; cr_name := b_name c; cr_status := "error";
                    cr_error := Some (message_or "Error desconocido" e) |}, w2)
            | (inl _, w2) => (removed c, w2)
            end
        end in
      let '(rs, w'') := removeEach rest w' in
      (r :: rs, w'')
  end.

Definition cleanupError (e : thrown) : ErrorBody :=
  {| err_error := "Error al limpiar recursos Docker";
     err_details := Some (message_or "Error desconocido" e) |}.

Definition POST_cleanup_others (keepContainerId : string) (w : World)
    : Response (CleanupBody + ErrorBody) * World :=
  if negb (truthy keepContainerId) then
    (mkResponse 400
       (inr {| err_error := "Se requiere especificar el ID del contenedor a mantener";
               err_details := None |}), w)
  else
    match run psBrief w with
    | (inr e, w1) => (mkResponse 500 (inr (cleanupError e)), w1)
    | (inl output, w1) =>
        match filterM (isOther keepContainerId) (map parseBrief (outputLines output)) with
        | inr e => (mkResponse 500 (inr (cleanupError e)), w1)
        | inl [] =>
            (mkResponse 200
               (inl {| cl_success := true;
                       cl_message := "No hay contenedores para eliminar";
                       cl_results := None; cl_warning := None |}), w1)
        | inl containers =>
            let containerIds := join " " (map b_id containers) in
            let sequential (e : thrown) (w' : World) :=
              let '(results, w'') := removeEach containers w' in
              (mkResponse 200
                 (inl {| cl_success := true;
                         cl_message := pretty (countRemoved results)
                                       +:+ " contenedores eliminados (manteniendo "
                                       +:+ short12 keepContainerId +:+ ")";
                         cl_results := Some results;
                         cl_warning := Some ("El método en lote falló: "
                                             +:+ message_or "Error desconocido" e) |}),
               w'') in
            match run ("docker stop " +:+ containerIds) w1 with
            | (inr e, w2) => sequential e w2
            | (inl _, w2) =>
                match run ("docker rm " +:+ containerIds) w2 with
                | (inr e, w3) => sequential e w3
                | (inl _, w3) =>
                    (mkResponse 200
                       (inl {| cl_success := true;
                               cl_message := pretty (length containers)
                                             +:+ " contenedores eliminados (manteniendo "
                                             +:+ short12 keepContainerId +:+ ")";
                               cl_results := Some (map removed containers);
                               cl_warning := None |}), w3)
                end
            end
        end
    end.

Definition POST_cleanup (w : World) : Response (CleanupBody + ErrorBody) * World :=
  match run psBrief w with
  | (inr e, w1) => (mkResponse 500 (inr (cleanupError e)), w1)
  | (inl output, w1) =>
      match filterM briefIsApp (map parseBrief (outputLines output)) with
      | inr e => (mkResponse 500 (inr (cleanupError e)), w1)
      | inl containers =>
          let '(results, w2) := removeEach containers w1 in
          (mkResponse 200
             (inl {| cl_success := true;
                     cl_message := pretty (countRemoved results) +:+ " contenedores eliminados";
                     cl_results := Some results; cl_warning := None |}), w2)
      end
  end.

(** The probes after a creation (lines 59-89): each failure is recorded
    or logged, none ends the handler. *)
Definition probes (containerId : string) (w : World) : World :=
  let w1 :=
    fold_left (fun w' cmd => snd (run ("docker exec " +:+ containerId +:+ " " +:+ cmd) w'))
      checkCommands w in
  snd (run ("docker exec " +:+ containerId +:+ " mkdir -p /app/uploads") w1).

Definition POST_container (config : DockerContainerConfig) (w : World)
    : Response (ContainerInfo + ErrorBody) * World :=
  let image := or_else (cfg_image config) defaultImage in
  let name := or_else (default EmptyString (cfg_name config))
                ("codeai-container-" +:+ pretty (now w)) in
  let failed (e : thrown) :=
    mkResponse 500
      (inr {| err_error := "No se pudo crear el contenedor Docker";
              err_details := Some (message_or "Error desconocido" e) |}) in
  match run (dockerRunCmd name image config) w with
  | (inr e, w1) => (failed e, w1)
  | (inl out, w1) =>
      let containerId := trim out in
      let w2 := probes containerId w1 in
      match run ("docker container inspect " +:+ containerId) w2 with
      | (inr e, w3) => (failed e, w3)
      | (inl inspected, w3) =>
          if firstOfParsed inspected then
            (mkResponse 200
               (inl {| id := containerId; name := name; image := image;
                       status := "running"; rawStatus := None;
                       created := Some (toISOString (now w3));
                       ports := Some (default [] (cfg_ports config)) |}), w3)
          else (failed (ErrorObj "Unexpected token" None), w3)
      end
  end.

(** *** DELETE /api/docker/container/[id] *)
Definition DELETE_container (containerId : string) (w : World)
    : Response (string + ErrorBody) * World :=
  if negb (truthy containerId) then
    (mkResponse 400
       (inr {| err_error := "ID de contenedor no proporcionado"; err_details := None |}), w)
  else
    match run ("docker container inspect " +:+ containerId) w with
    | (inr _, w1) =>
        (mkResponse 404
           (inr {| err_error := "El contenedor " +:+ containerId +:+ " no existe";
                   err_details := None |}), w1)
    | (inl _, w1) =>
        let failed (e : thrown) :=
          mkResponse 500
            (inr {| err_error := "Error al eliminar el contenedor";
                    err_details := Some (message_or "Error desconocido" e) |}) in
        match run ("docker stop " +:+ containerId) w1 with
        | (inr e, w2) => (failed e, w2)
        | (inl _, w2) =>
            match run ("docker rm " +:+ containerId) w2 with
            | (inr e, w3) => (failed e, w3)
            | (inl _, w3) =>
                (mkResponse 200
                   (inl ("Contenedor " +:+ containerId +:+ " eliminado correctamente")), w3)
            end
        end
    end.

(** *** POST /api/docker/initialize *)

(** The clean slate of lines 20-68: every failure in it is logged only. *)
Definition initialCleanup (w : World) : World :=
  match run psBrief w with
  | (inr _, w1) => w1
  | (inl output, w1) =>
      match filterM briefIsApp (map parseBrief (outputLines output)) with
      | inr _ => w1
      | inl [] => w1
      | inl containers =>
          let containerIds := join " " (map b_id containers) in
          if truthy containerIds then
            let w2 := snd (run ("docker stop " +:+ containerIds) w1) in
            snd (run ("docker rm " +:+ containerIds) w2)
          else w1
      end
  end.

(** The image check of lines 70-123: [None] when the handler goes on. *)
Definition ensureImage (w : World) : option thrown * World :=
  match run ("docker images -q " +:+ defaultImage) w with
  | (inr e, w1) => (Some e, w1)
  | (inl images, w1) =>
      if truthy (trim images) then (None, w1)
      else
        let '(written, w3) :=
          match run "test -f Dockerfile" w1 with
          | (inl _, w2) => (None, w2)
          | (inr _, w2) => writeDockerfile w2
          end in
        match written with
        | Some e => (Some e, w3)
        | None =>
            match execSyncInherit World spawn ("docker build -t " +:+ defaultImage +:+ " .") w3 with
            | (inr e, w4) => (Some e, w4)
            | (inl _, w4) => (None, w4)
            end
        end
  end.

Definition POST_initialize (w : World) : Response (InitBody + ErrorBody) * World :=
  match run "docker --version" w with
  | (inr _, w1) =>
      (mkResponse 500
         (inr {| err_error := "Docker no está instalado o no está en ejecución";
                 err_details := None |}), w1)
  | (inl _, w1) =>
      let w2 := initialCleanup w1 in
      match ensureImage w2 with
      | (Some _, w3) =>
          (mkResponse 500
             (inr {| err_error := "No se pudo crear la imagen Docker";
                     err_details := None |}), w3)
      | (None, w3) =>
          let failed :=
            mkResponse 500
              (inr {| err_error := "No se pudo crear el contenedor Docker";
                      err_details := None |}) in
          let containerName := "codeai-container-" +:+ pretty (now w3) in
          match run ("docker run -d --name " +:+ containerName +:+ " " +:+ defaultImage) w3 with
          | (inr _, w4) => (failed, w4)
          | (inl out, w4) =>
              let containerId := trim out in
              match run ("docker exec " +:+ containerId +:+ " python3 --version") w4 with
              | (inr _, w5) => (failed, w5)
              | (inl python, w5) =>
                  match run ("docker exec " +:+ containerId +:+ " node --version") w5 with
                  | (inr _, w6) => (failed, w6)
                  | (inl node, w6) =>
                      (mkResponse 200
                         (inl {| init_success := true;
                                 init_container :=
                                   {| id := containerId; name := containerName;
                                      image := defaultImage; status := "running";
                                      rawStatus := None;
                                      created := Some (toISOString (now w6));
                                      ports := None |};
                                 init_python := trim python;
                                 init_node := trim node |}), w6)
                  end
              end
          end
      end
  end.

End Handlers.
End Routes.

(* ===================================================================== *)
(** ** The pool reconciler: DockerService (docker-service.ts) and
       DockerServiceServer.getAvailableContainer *)
(* ===================================================================== *)

Module Pool.
Import JS Host Eff Routes.

(** The requests a service sends, in the order it sends them. *)
Inductive Request :=
| ReqList
| ReqCreate (config : DockerContainerConfig)
| ReqDelete (containerId : string)
| ReqInitialize.

(** The fields of the client object, the world it talks to, and the
    journal of its requests. A settled [initPromise] is [Some None] when it
    resolved and [Some (Some e)] when it rejected with [e]. *)
Record St (World : Type) := mkSt {
  world : World;
  containerPool : gmap string ContainerInfo;
  isInitialized : bool;
  initPromise : option (option thrown);
  requests : list Request
}.
Arguments mkSt {World} _ _ _ _ _.
Arguments world {World} _.
Arguments containerPool {World} _.
Arguments isInitialized {World} _.
Arguments initPromise {World} _.
Arguments requests {World} _.

Section Sorting.
(** [new Date(text).getTime()], [None] for an invalid date. *)
Variable dateTime : string -> option Z.

(** The instant a record's [created] denotes, when it has one. *)
Definition instant (c : ContainerInfo) : option Z :=
  match created c with
  | Some text => if truthy text then dateTime text else None
  | None => None
  end.

(** The comparator of lines 363-366; a missing text gives 0, and so does
    an invalid date, whose difference is NaN. *)
Definition compareCreated (a b : ContainerInfo) : Z :=
  match instant a, instant b with
  | Some ta, Some tb => tb - ta
  | _, _ => 0
  end.

(** [Array.prototype.sort] is stable; for a comparator that orders the
    array consistently every stable sort gives this result. *)
Fixpoint insertSorted (x : ContainerInfo) (l : list ContainerInfo) : list ContainerInfo :=
  match l with
  | [] => [x]
  | y :: t => if (compareCreated x y <=? 0)%Z then x :: y :: t else y :: insertSorted x t
  end.

Fixpoint sortByCreated (l : list ContainerInfo) : list ContainerInfo :=
  match l with
  | [] => []
  | x :: t => insertSorted x (sortByCreated t)
  end.
End Sorting.

Section Service.
Variable World : Type.
Variable spawn : string -> World -> ProcResult * World.
Variable now : World -> Z.
Variable toISOString : Z -> string.
Variable firstOfParsed : string -> bool.
Variable writeDockerfile : World -> option thrown * World.
Variable dateTime : string -> option Z.

Local Abbreviation Svc := (M (St World)).

(** [fetch] of a route: the request is journalled and the handler runs in
    the current world. *)
Definition fetch {B} (req : Request) (handler : World -> Response B * World)
    : Svc (Response B) :=
  fun st =>
    let '(r, w') := handler (world st) in
    (inl r, mkSt w' (containerPool st) (isInitialized st) (initPromise st)
              (requests st ++ [req])).

Definition poolSet (c : ContainerInfo) : Svc unit :=
  fun st =>
    (inl tt, mkSt (world st) (<[id c := c]> (containerPool st)) (isInitialized st)
               (initPromise st) (requests st)).

Definition poolDelete (containerId : string) : Svc unit :=
  fun st =>
    (inl tt, mkSt (world st) (delete containerId (containerPool st)) (isInitialized st)
               (initPromise st) (requests st)).

Definition poolGet (containerId : string) : Svc (option ContainerInfo) :=
  fun st => (inl (containerPool st !! containerId), st).

Definition error (message : string) : thrown := ErrorObj message None.

(** [initialize] (lines 216-268); the logging is left out. *)
Definition initialize : Svc unit :=
  fun st =>
    if isInitialized st then (inl tt, st)
    else
      match initPromise st with
      | Some None => (inl tt, st)
      | Some (Some e) => (inr e, st)
      | None =>
          let body : Svc unit :=
            response <- fetch ReqInitialize
                          (POST_initialize World spawn now toISOString writeDockerfile) ;;
            match Host.body response with
            | inl data =>
                if ok response then
                  poolSet (init_container data) ;;;
                  (fun st' => (inl tt, mkSt (world st') (containerPool st') true
                                         (initPromise st') (requests st')))
                else throw (error ("Error al inicializar Docker: " +:+ statusText response))
            | inr _ =>
                throw (error ("Error al inicializar Docker: " +:+ statusText response))
            end in
          match body st with
          | (inl _, st') =>
              (inl tt, mkSt (world st') (containerPool st') (isInitialized st')
                         (Some None) (requests st'))
          | (inr e, st') =>
              (inr e, mkSt (world st') (containerPool st') (isInitialized st')
                        (Some (Some e)) (requests st'))
          end
      end.

Definition ensureInitialized : Svc unit :=
  fun st => if isInitialized st then (inl tt, st) else initialize st.

(** [getAllContainers] (lines 513-538). *)
Definition getAllContainers : Svc (list ContainerInfo) :=
  response <- fetch ReqList (GET_containers World spawn) ;;
  match Host.body response with
  | inl containers =>
      if ok response then
        forEach poolSet containers ;;;
        ret containers
      else throw (error ("Error al obtener contenedores: " +:+ statusText response))
  | inr _ => throw (error ("Error al obtener contenedores: " +:+ statusText response))
  end.

(** [removeContainer] (lines 540-580). *)
Definition removeContainer (containerId : string) : Svc unit :=
  containerInfo <- poolGet containerId ;;
  match containerInfo with
  | None => throw (error ("Contenedor " +:+ containerId +:+ " no encontrado"))
  | Some _ =>
      response <- fetch (ReqDelete containerId) (DELETE_container World spawn containerId) ;;
      if negb (ok response) then
        throw (error ("Error al eliminar contenedor: " +:+ statusText response))
      else poolDelete containerId
  end.

(** [forceCleanupExceptLatest] (lines 621-658): a failed removal is caught
    inside the loop; a failed listing makes the method answer [false]. *)
Definition forceCleanupExceptLatest (keepContainerId : string) : Svc bool :=
  tryCatch
    (containers <- getAllContainers ;;
     forEach
       (fun container =>
          if negb (String.eqb (id container) keepContainerId) then
            tryCatch (removeContainer (id container)) (fun _ => ret tt)
          else ret tt)
       containers ;;;
     ret true)
    (fun _ => ret false).

(** [!config || c.image === config.image] *)
Definition imageAccepted (config : option DockerContainerConfig) (c : ContainerInfo) : bool :=
  match config with
  | None => true
  | Some cfg => String.eqb (image c) (cfg_image cfg)
  end.

Definition reusable (config : option DockerContainerConfig) (c : ContainerInfo) : bool :=
  String.eqb (status c) "running" && imageAccepted config c.

Definition defaultConfig : DockerContainerConfig :=
  {| cfg_image := defaultImage; cfg_name := None; cfg_ports := None;
     cfg_volumes := None; cfg_envVars := None; cfg_command := None;
     cfg_workdir := None |}.

(** The creation of lines 395-430, reached when nothing can be reused;
    [found] is the number of containers the first listing gave. *)
Definition createContainer (config : option DockerContainerConfig) (found : nat)
    : Svc ContainerInfo :=
  let sent := default defaultConfig config in
  response <- fetch (ReqCreate sent)
                (POST_container World spawn now toISOString firstOfParsed sent) ;;
  match Host.body response with
  | inl containerInfo =>
      if ok response then
        poolSet containerInfo ;;;
        (if (0 <? found)%nat then
           forceCleanupExceptLatest (id containerInfo) ;;; ret tt
         else ret tt) ;;;
        ret containerInfo
      else throw (error ("Error al crear contenedor: " +:+ statusText response))
  | inr _ => throw (error ("Error al crear contenedor: " +:+ statusText response))
  end.

(** [getAvailableContainer] (lines 343-439). *)
Definition getAvailableContainer (config : option DockerContainerConfig)
    : Svc ContainerInfo :=
  ensureInitialized ;;;
  containers <- getAllContainers ;;
  if (1 <? length containers)%nat then
    match sortByCreated dateTime containers with
    | latestContainer :: _ =>
        forceCleanupExceptLatest (id latestContainer) ;;;
        if reusable config latestContainer then ret latestContainer
        else createContainer config (length containers)
    | [] => createContainer config (length containers)
    end
  else
    match containers with
    | [c] => if reusable config c then ret c else createContainer config 1
    | _ => createContainer config (length containers)
    end.

(** The service as its constructor leaves it: [initialize] has run once
    and its outcome is kept. *)
Definition blank (w : World) : St World := mkSt w ∅ false None [].

Definition construct (w : World) : St World := snd (initialize (blank w)).

(** [DockerServiceServer.getAvailableContainer] (lines 7-46): the first
    listed container, or the one the initialization creates. *)
Definition serverGetAvailableContainer (config : option DockerContainerConfig)
    : Svc ContainerInfo :=
  response <- fetch ReqList (GET_containers World spawn) ;;
  match Host.body response with
  | inl (c :: _) =>
      if ok response then ret c
      else throw (error ("Error al obtener contenedores: " +:+ statusText response))
  | inl [] =>
      if ok response then
        createResponse <- fetch ReqInitialize
                            (POST_initialize World spawn now toISOString writeDockerfile) ;;
        match Host.body createResponse with
        | inl newContainer =>
            if ok createResponse then ret (init_container newContainer)
            else throw (error ("Error al crear contenedor: " +:+ statusText createResponse))
        | inr _ => throw (error ("Error al crear contenedor: " +:+ statusText createResponse))
        end
      else throw (error ("Error al obtener contenedores: " +:+ statusText response))
  | inr _ => throw (error ("Error al obtener contenedores: " +:+ statusText response))
  end.

End Service.
End Pool.

(* ===================================================================== *)
(** ** JSON values *)
(* ===================================================================== *)

Module Json.

#[local] Set Warnings "-register-all".

(** A JavaScript value that [JSON.parse] can give or that the service
    builds; numbers are IEEE doubles. The properties of an object are kept
    in insertion order. *)
Inductive value :=
| Null
| Bool (b : bool)
| Number (f : float)
| Str (s : string)
| Arr (items : list value)
| Obj (fields : list (string * value)).

(** [if (v)]: false for [null], [false], [0], [-0], [NaN] and the empty
    string. *)
Definition truthy (v : value) : bool :=
  match v with
  | Null => false
  | Bool b => b
  | Number f => negb (is_zero f || is_nan f)
  | Str s => JS.truthy s
  | Arr _ => true
  | Obj _ => true
  end.

(** [typeof v === 'object' && v !== null] *)
Definition isObject (v : value) : bool :=
  match v with
  | Arr _ | Obj _ => true
  | _ => false
  end.

(** [Array.isArray(v)] *)
Definition isArray (v : value) : bool :=
  match v with
  | Arr _ => true
  | _ => false
  end.

(** [obj[key] = v] on the list of properties. *)
Fixpoint setProp (key : string) (v : value) (fields : list (string * value))
    : list (string * value) :=
  match fields with
  | [] => [(key, v)]
  | (k, x) :: rest =>
      if String.eqb k key then (k, v) :: rest else (k, x) :: setProp key v rest
  end.

(** [obj[key]], [None] for [undefined]. *)
Fixpoint getProp (key : string) (fields : list (string * value)) : option value :=
  match fields with
  | [] => None
  | (k, x) :: rest => if String.eqb k key then Some x else getProp key rest
  end.

End Json.

(* ===================================================================== *)
(** ** Regular expressions of the sources *)
(* ===================================================================== *)

Module Regex.
Import JS.

(** The constructs the regular-expression literals of gemini-service.ts
    use. Quantifiers only ever apply to one character of a class there. *)
Inductive re :=
| Lit (s : string)
| Seq (a b : re)
| Alt (a b : re)
| Opt (a : re)
| Star (p : ascii -> bool)
| Plus (p : ascii -> bool)
| LazyStar (p : ascii -> bool)
| Group (a : re)
| Eol.

Definition any (c : ascii) : bool := true.

(** [\w] *)
Definition isWord (c : ascii) : bool :=
  let n := nat_of_ascii c in
  ((48 <=? n) && (n <=? 57) || (65 <=? n) && (n <=? 90)
   || (97 <=? n) && (n <=? 122) || Nat.eqb n 95)%nat.

(** [\d] *)
Definition isDigit (c : ascii) : bool :=
  let n := nat_of_ascii c in ((48 <=? n) && (n <=? 57))%nat.

Definition isLineTerminator (c : ascii) : bool :=
  let n := nat_of_ascii c in (Nat.eqb n 10 || Nat.eqb n 13)%nat.

Definition isNot (x : ascii) (c : ascii) : bool := negb (Ascii.eqb c x).

(** [s.substring(0, s.length - rest.length)]: what was consumed between
    [s] and its suffix [rest]. *)
Definition consumed (s rest : string) : string :=
  String.substring 0 (String.length s - String.length rest) s.

Section Matcher.
Variable R : Type.

(** Greedy and lazy repetition of a class, with backtracking into the
    continuation [k]. *)
Fixpoint starGreedy (p : ascii -> bool) (s : string) (k : string -> option R)
    : option R :=
  match s with
  | String c s' =>
      if p c then
        match starGreedy p s' k with
        | Some r => Some r
        | None => k s
        end
      else k s
  | EmptyString => k s
  end.

Fixpoint starLazy (p : ascii -> bool) (s : string) (k : string -> option R)
    : option R :=
  match k s with
  | Some r => Some r
  | None =>
      match s with
      | String c s' => if p c then starLazy p s' k else None
      | EmptyString => None
      end
  end.

(** The backtracking matcher: [run r s caps k] matches [r] at the start of
    [s] and hands the rest and the captures to [k]; [None] is failure. *)
Fixpoint run (r : re) (s : string) (caps : list string)
    (k : string -> list string -> option R) : option R :=
  match r with
  | Lit l =>
      if startsWith s l then k (substring_from (String.length l) s) caps else None
  | Seq a b => run a s caps (fun s' caps' => run b s' caps' k)
  | Alt a b =>
      match run a s caps k with
      | Some x => Some x
      | None => run b s caps k
      end
  | Opt a =>
      match run a s caps k with
      | Some x => Some x
      | None => k s caps
      end
  | Star p => starGreedy p s (fun s' => k s' caps)
  | Plus p =>
      match s with
      | String c s' => if p c then starGreedy p s' (fun s'' => k s'' caps) else None
      | EmptyString => None
      end
  | LazyStar p => starLazy p s (fun s' => k s' caps)
  | Group a => run a s caps (fun s' caps' => k s' (caps' ++ [consumed s s']))
  | Eol =>
      match s with
      | EmptyString => k s caps
      | String c _ => if isLineTerminator c then k s caps else None
      end
  end.
End Matcher.

(** A match: the text before it, the matched text, the captures and the
    text after it. *)
Record found := mkFound {
  before : string;
  matched : string;
  captures : list string;
  after : string
}.

Definition matchAt (r : re) (pre s : string) : option found :=
  run found r s [] (fun rest caps => Some (mkFound pre (consumed s rest) caps rest)).

(** [text.match(r)] and [r.exec(text)]: the leftmost match. *)
Fixpoint searchFrom (r : re) (pre s : string) : option found :=
  match matchAt r pre s with
  | Some m => Some m
  | None =>
      match s with
      | String c s' => searchFrom r (pre +:+ String c EmptyString) s'
      | EmptyString => None
      end
  end.

Definition search (r : re) (text : string) : option found :=
  searchFrom r EmptyString text.

(** [text.replace(r, template)] for a global [r] none of whose matches is
    empty; [fuel] bounds the number of matches. *)
Fixpoint replaceAllFrom (fuel : nat) (r : re) (template : string) (pre s : string)
    : string :=
  match fuel with
  | O => s
  | S fuel' =>
      match searchFrom r pre s with
      | None => s
      | Some m =>
          substring_from (String.length pre) (before m)
          +:+ getSubstitution (matched m) (before m) (after m) (captures m) template
          +:+ replaceAllFrom fuel' r template (before m +:+ matched m) (after m)
      end
  end.

Definition replaceAll (r : re) (template : string) (text : string) : string :=
  replaceAllFrom (S (String.length text)) r template EmptyString text.

(** The successive results of [r.exec(text)] for a global [r]. *)
Fixpoint execAllFrom (fuel : nat) (r : re) (pre s : string) : list found :=
  match fuel with
  | O => []
  | S fuel' =>
      match searchFrom r pre s with
      | None => []
      | Some m => m :: execAllFrom fuel' r (before m +:+ matched m) (after m)
      end
  end.

Definition execAll (r : re) (text : string) : list found :=
  execAllFrom (S (String.length text)) r EmptyString text.

End Regex.

(* ===================================================================== *)
(** ** Structured responses: GeminiService (gemini-service.ts) *)
(* ===================================================================== *)

Module Gemini.
Import JS Json Regex.

(** The shape of the schemas the service is given: every property is an
    object with a [type], and an array property may describe its items. *)
Record ItemsSchema := mkItems {
  items_type : string;
  items_properties : option (list string)
}.

Record PropSchema := mkProp {
  prop_type : string;
  prop_items : option ItemsSchema
}.

Record StructuredOutputConfig := mkSchema {
  schema_title : string;
  schema_type : string;
  schema_properties : option (list (string * PropSchema));
  schema_required : option (list string)
}.

(** The regular-expression literals of [extractJsonFromText]. *)

(** [/```(?:json)?\s*\n?([\s\S]*?)\n?```/] *)
Definition jsonCodeBlockRegex : re :=
  Seq (Lit "```")
    (Seq (Opt (Lit "json"))
       (Seq (Star isWhiteSpace)
          (Seq (Opt (Lit nl))
             (Seq (Group (LazyStar any))
                (Seq (Opt (Lit nl)) (Lit "```")))))).

(** [/(\w+)'\s*:/g] *)
Definition singleQuotedKey : re :=
  Seq (Group (Plus isWord)) (Seq (Lit "'") (Seq (Star isWhiteSpace) (Lit ":"))).

(** [/:\s*'([^']+)'/g] *)
Definition singleQuotedValue : re :=
  Seq (Lit ":") (Seq (Star isWhiteSpace)
    (Seq (Lit "'") (Seq (Group (Plus (isNot "'"))) (Lit "'")))).

(** [/\/\/.*$/gm] *)
Definition lineComment : re :=
  Seq (Lit "//") (Seq (Star (fun c => negb (isLineTerminator c))) Eol).

(** [/\/\*[\s\S]*?\*\//g] *)
Definition blockComment : re :=
  Seq (Lit "/*") (Seq (LazyStar any) (Lit "*/")).

(** [/{[\s\S]*?}/] and [/\[[\s\S]*?\]/] *)
Definition firstBraces : re := Seq (Lit "{") (Seq (LazyStar any) (Lit "}")).
Definition firstBrackets : re := Seq (Lit "[") (Seq (LazyStar any) (Lit "]")).

(** The expression of the last resort (line 1175): a double-quoted key, a
    colon, and a string, a run of digits, a literal, or the shortest
    braced or bracketed text. *)
Definition propsRegex : re :=
  Seq (Lit dq) (Seq (Group (Plus (isNot "034"))) (Seq (Lit dq) (Seq (Lit ":")
    (Seq (Star isWhiteSpace)
       (Group
          (Alt (Seq (Lit dq) (Seq (Star (isNot "034")) (Lit dq)))
          (Alt (Plus isDigit)
          (Alt (Lit "true")
          (Alt (Lit "false")
          (Alt (Lit "null")
          (Alt firstBraces firstBrackets))))))))))).

Section Extraction.
(** [JSON.parse], [None] when it throws. *)
Variable JSON_parse : string -> option value.

(** The scan of lines 1086-1111 (and 1116-1140 for brackets): [count] is
    the running difference of opening and closing characters, [start] the
    index the current candidate began at, [i] the index of the head of
    [rest] in [text]. *)
Fixpoint balancedScan (opening closing : ascii) (accept : value -> bool)
    (text rest : string) (i : nat) (count : Z) (start : option nat) : option value :=
  match rest with
  | EmptyString => None
  | String c rest' =>
      if Ascii.eqb c opening then
        balancedScan opening closing accept text rest' (S i) (count + 1)
          (if (count =? 0)%Z then Some i else start)
      else if Ascii.eqb c closing then
        let count' := (count - 1)%Z in
        let continue := balancedScan opening closing accept text rest' (S i) count' start in
        match start with
        | Some st =>
            if (count' =? 0)%Z then
              match JSON_parse (String.substring st (S i - st) text) with
              | Some result => if accept result then Some result else continue
              | None => continue
              end
            else continue
        | None => continue
        end
      else balancedScan opening closing accept text rest' (S i) count start
  end.

(** The repairs of lines 1145-1150. *)
Definition fixedText (text : string) : string :=
  let t := replaceAll singleQuotedKey (dq +:+ "$1" +:+ dq +:+ ":") text in
  let t := replaceAll singleQuotedValue (":" +:+ dq +:+ "$1" +:+ dq) t in
  let t := replaceAll lineComment EmptyString t in
  replaceAll blockComment EmptyString t.

(** The loop of lines 1179-1193 over the matches of [propsRegex]. *)
Definition collectProps (text : string) : list (string * value) :=
  fold_left
    (fun props m =>
       let key := nth 0 (captures m) EmptyString in
       let v := nth 1 (captures m) EmptyString in
       match JSON_parse v with
       | Some parsed => setProp key parsed props
       | None => setProp key (Str (stripQuotes v)) props
       end)
    (execAll propsRegex text) [].

(** [a ?? b] for attempts that may give nothing. *)
Definition orElse {A} (a : option A) (b : option A) : option A :=
  match a with
  | Some x => Some x
  | None => b
  end.

(** [extractJsonFromText] (lines 1062-1204): [None] is [null]. *)
Definition extractJsonFromText (text : string) : option value :=
  orElse (JSON_parse text)
  (orElse
     (match search jsonCodeBlockRegex text with
      | Some m =>
          let inner := nth 0 (captures m) EmptyString in
          if JS.truthy inner then JSON_parse inner else None
      | None => None
      end)
  (orElse (balancedScan "{" "}" isObject text text 0 0 None)
  (orElse
     (if includes text "[" && includes text "]" then
        balancedScan "[" "]" isArray text text 0 0 None
      else None)
  (orElse
     (match search firstBraces (fixedText text) with
      | Some m => JSON_parse (matched m)
      | None => None
      end)
  (orElse
     (match search firstBrackets (fixedText text) with
      | Some m => JSON_parse (matched m)
      | None => None
      end)
     (match collectProps text with
      | [] => None
      | props => Some (Obj props)
      end)))))).

(** [createBasicResponseFromSchema] (lines 1212-1256). *)
Definition exampleItem (items : ItemsSchema) : value :=
  Obj (fold_left
         (fun fields itemKey => setProp itemKey (Str ("Ejemplo de " +:+ itemKey)) fields)
         (default [] (items_properties items)) []).

Definition basicValue (key : string) (prop : PropSchema) (text : string) : value :=
  if String.eqb (prop_type prop) "string" then
    if String.eqb key "plan" then Str text
    else Str ("Información extraída para " +:+ key)
  else if String.eqb (prop_type prop) "boolean" then Bool false
  else if String.eqb (prop_type prop) "array" then
    match prop_items prop with
    | Some items =>
        if String.eqb (items_type items) "object" then Arr [exampleItem items] else Arr []
    | None => Arr []
    end
  else if String.eqb (prop_type prop) "object" then Obj []
  else Null.

Definition createBasicResponseFromSchema (schema : StructuredOutputConfig)
    (text : string) : value :=
  Obj (fold_left
         (fun result kp => setProp (fst kp) (basicValue (fst kp) (snd kp) text) result)
         (default [] (schema_properties schema)) []).

(** The reading of the model's answer in [getStructuredResponse]
    (lines 1032-1053), for the answer [responseText]. *)
Definition getStructuredResponse (schema : StructuredOutputConfig)
    (responseText : string) : value :=
  match JSON_parse responseText with
  | Some v => v
  | None =>
      match extractJsonFromText responseText with
      | Some extractedJson =>
          if truthy extractedJson then extractedJson
          else createBasicResponseFromSchema schema responseText
      | None => createBasicResponseFromSchema schema responseText
      end
  end.

End Extraction.
End Gemini.

(* ===================================================================== *)
(** ** The planner's two entry points (agentric-planning-flow.ts) *)
(* ===================================================================== *)

Module Planner.
Import JS Host Eff Json.

Record AgenticPlanningInput := mkInput {
  prompt : string;
  fileNames : option (list string);
  fileContents : option (list string)
}.

(** The plan object; a property that is [undefined] is [None]. *)
Record AgenticPlanningOutput := mkPlan {
  plan : option value;
  pasos : option value;
  requiereInfoExterna : bool;
  requiereAnalisisArchivos : bool;
  detallesVisualizacion : option value;
  archivosSolicitados : list string;
  busquedasRealizadas : list string
}.

(** [v.key] for a value that is not [undefined]: reading a property of
    [null] throws. *)
Definition member (v : value) (key : string) : option value + thrown :=
  match v with
  | Null =>
      inr (ErrorObj ("Cannot read properties of null (reading '" +:+ key +:+ "')") None)
  | Obj fields => inl (getProp key fields)
  | _ => inl None
  end.

(** [a || b] for a property that may be undefined. *)
Definition orDefault (a : option value) (b : value) : value :=
  match a with
  | Some x => if truthy x then x else b
  | None => b
  end.

Definition step (paso explicacion : string) : value :=
  Obj [("paso", Str paso); ("explicacion", Str explicacion)].

(** The plan of the [catch] of [agenticPlanningFlow] (lines 1045-1062). *)
Definition errorPlan (e : thrown) : AgenticPlanningOutput :=
  {| plan := Some (Str ("Error al generar el plan: " +:+ message_or "Error desconocido" e));
     pasos := Some (Arr [step "Error en la generación del plan"
                           "Se produjo un error al procesar la solicitud con Gemini."]);
     requiereInfoExterna := false;
     requiereAnalisisArchivos := false;
     detallesVisualizacion := Some (Str "No disponible debido a un error.");
     archivosSolicitados := [];
     busquedasRealizadas := [] |}.

(** What steps 1 to 4 of [agenticPlanningFlow] and its prompt assembly
    (lines 840-1006) hand to the final request. *)
Record FlowContext := mkFlowContext {
  fc_promptCompleto : string;
  fc_archivosAnalizadosDetalle : string;
  fc_busquedas : string;
  fc_infoExternaRequerida : bool;
  fc_archivosRelevantes : list string;
  fc_archivosSolicitados : list string;
  fc_busquedasRealizadas : list string
}.

(** What [generateAgenticPlan] has gathered when it asks for the final
    plan (lines 428-801). *)
Record PlanContext := mkPlanContext {
  pc_archivosDisponibles : string;
  pc_fileAnalysisContext : string;
  pc_externalInfoContext : string;
  pc_needsExternalInfo : bool;
  pc_filesToAnalyze : list string;
  pc_filesRequested : list string;
  pc_searchQueries : list string
}.

Section Flows.
Variable World : Type.
(** [geminiService.createDetailedPlan]: the structured answer, or the
    error its retries end with. *)
Variable createDetailedPlan :
  string -> list string + string -> string -> string -> World -> (value + thrown) * World.
(** Steps 1 to 4 of either entry point: requests to the model, searches
    and container commands, each with the handlers the sources give it;
    what still escapes them is the [thrown] of the result. *)
Variable gatherFlow : AgenticPlanningInput -> World -> (FlowContext + thrown) * World.
Variable gatherPlan : AgenticPlanningInput -> World -> (PlanContext + thrown) * World.

(** The body of the [try] of [agenticPlanningFlow] (lines 839-1043). *)
Definition flowBody (input : AgenticPlanningInput) : M World AgenticPlanningOutput :=
  ctx <- gatherFlow input ;;
  planResult <- createDetailedPlan (fc_promptCompleto ctx)
                  (inl (default [] (fileNames input)))
                  (fc_archivosAnalizadosDetalle ctx) (fc_busquedas ctx) ;;
  if negb (truthy planResult) || negb (isObject planResult) then
    throw (ErrorObj "La respuesta del modelo no es un objeto válido" None)
  else
    match member planResult "plan", member planResult "pasos",
          member planResult "detallesVisualizacion" with
    | inl p, inl ps, inl d =>
        ret {| plan := Some (orDefault p (Str "No se pudo generar un plan detallado."));
               pasos := Some (match ps with
                              | Some (Arr items) => Arr items
                              | _ => Arr [step "Procesar solicitud"
                                            "Analizar y procesar la solicitud del usuario."]
                              end);
               requiereInfoExterna := fc_infoExternaRequerida ctx;
               requiereAnalisisArchivos := (0 <? length (fc_archivosRelevantes ctx))%nat;
               detallesVisualizacion :=
                 Some (orDefault d
                         (Str "Se mostrará un informe de texto con los resultados del análisis."));
               archivosSolicitados := fc_archivosSolicitados ctx;
               busquedasRealizadas := fc_busquedasRealizadas ctx |}
    | inr e, _, _ | _, inr e, _ | _, _, inr e => throw e
    end.

(** The handler of [agenticPlanningFlow] (lines 838-1063). *)
Definition agenticPlanningFlow (input : AgenticPlanningInput) (w : World)
    : AgenticPlanningOutput * World :=
  match flowBody input w with
  | (inl p, w') => (p, w')
  | (inr e, w') => (errorPlan e, w')
  end.

(** [generateAgenticPlan] (lines 427-826): the function the pages call.
    It has no handler of its own around the final request. *)
Definition generateAgenticPlan (input : AgenticPlanningInput)
    : M World AgenticPlanningOutput :=
  ctx <- gatherPlan input ;;
  detailedPlan <- createDetailedPlan (prompt input) (inr (pc_archivosDisponibles ctx))
                    (pc_fileAnalysisContext ctx) (pc_externalInfoContext ctx) ;;
  match member detailedPlan "plan", member detailedPlan "pasos",
        member detailedPlan "detallesVisualizacion" with
  | inl p, inl ps, inl d =>
      ret {| plan := p;
             pasos := ps;
             requiereInfoExterna := pc_needsExternalInfo ctx;
             requiereAnalisisArchivos := (0 <? length (pc_filesToAnalyze ctx))%nat;
             detallesVisualizacion := d;
             archivosSolicitados := pc_filesRequested ctx;
             busquedasRealizadas := pc_searchQueries ctx |}
  | inr e, _, _ | _, inr e, _ | _, _, inr e => throw e
  end.

End Flows.
End Planner.

(* ===================================================================== *)
(** ** The log of the service: addLog and getLogs (docker-service.ts) *)
(* ===================================================================== *)

Module Logs.
Import JS.

Inductive LogLevel := info | error | warning | success.


Record LogEntry := mkLogEntry {
  timestamp : Z;
  message : string;
  level : LogLevel;
  command : option string;
  containerId : option string
}.

(** The two fields the method touches, and what it has handed to the
    listeners of the [log] event, oldest first. *)
Record St := mkSt {
  logs : list LogEntry;
  emitted : list LogEntry
}.







End Logs.

(* ===================================================================== *)
(** ** Retries of the model calls: handleApiError and withRetry
       (gemini-service.ts) *)
(* ===================================================================== *)

Module Retry.
Import JS Host.

Definition maxRetries : nat := 3.
Definition retryDelay : Z := 1000.

(** What an operation threw, as [handleApiError] reads it: [null],
    [undefined], or a value with a property [message] that is a string
    ([WithMessage]), that is falsy without being a string, as when the value
    has none ([WithoutMessage]), or that is truthy and has no method
    [includes], as a number has none ([WithOddMessage]). *)
Inductive Failure :=
| ThrownNull
| ThrownUndefined
| WithMessage (message : string)
| WithoutMessage
| WithOddMessage.

(** [message && message.includes(p)] for a string. *)
Definition mentions (message p : string) : bool :=
  truthy message && includes message p.

Definition authorizationMessage : string :=
  "Error de autorización (403): La API key no es válida o no tiene permisos. Verifica tu API key y los permisos de la cuenta.".

Definition quotaMessage : string :=
  "Error de cuota excedida: Has superado el límite de solicitudes permitidas. Intenta más tarde o aumenta tu cuota.".

(** Lines 835-846 for a message that is a string: the message of the
    error returned. *)
Definition processed (message : string) : string :=
  if mentions message "403" then authorizationMessage
  else if mentions message "429" || mentions message "quota" then quotaMessage
  else "Error en la llamada a la API de Gemini: "
       +:+ or_else message "Error desconocido".

(** [handleApiError] (lines 832-847): the message of the error it returns,
    or the [TypeError] that ends it: the one of reading [message] on [null]
    or [undefined], or the one of calling [includes] when there is no such
    method. A falsy [message] is read as the empty string is. *)
Definition handleApiError (e : Failure) : string + thrown :=
  match e with
  | ThrownNull =>
      inr (ErrorObj "Cannot read properties of null (reading 'message')" None)
  | ThrownUndefined =>
      inr (ErrorObj "Cannot read properties of undefined (reading 'message')" None)
  | WithMessage message => inl (processed message)
  | WithoutMessage => inl (processed EmptyString)
  | WithOddMessage => inr (ErrorObj "error.message.includes is not a function" None)
  end.

(** The test of line 864 on the message of the processed error. *)
Definition retried (message : string) : bool :=
  includes message "429" || includes message "500".

Section WithRetry.
Variable World : Type.
Variable A : Type.
(** The operation, and [setTimeout] for a number of milliseconds. *)
Variable operation : World -> (A + Failure) * World.
Variable sleep : Z -> World -> World.

(** The loop of lines 857-874 with [remaining] iterations to go, the next
    of them being number [attempt]. An error that [handleApiError] throws
    is thrown inside the [catch] block and leaves the loop. *)
Fixpoint attempts (remaining : nat) (attempt : Z) (lastError : option thrown)
    (w : World) : (A + thrown) * World :=
  match remaining with
  | O =>
      (inr (default (ErrorObj "Máximo de reintentos alcanzado" None) lastError), w)
  | S remaining' =>
      match operation w with
      | (inl result, w1) => (inl result, w1)
      | (inr e, w1) =>
          match handleApiError e with
          | inr typeError => (inr typeError, w1)
          | inl message =>
              let lastError' := ErrorObj message None in
              if negb (includes message "429") && negb (includes message "500")
              then (inr lastError', w1)
              else
                let w2 :=
                  if (attempt <? Z.of_nat maxRetries - 1)%Z
                  then sleep (retryDelay * 2 ^ attempt) w1
                  else w1 in
                attempts remaining' (attempt + 1) (Some lastError') w2
          end
      end
  end.

(** [withRetry] (lines 854-877). *)
Definition withRetry (w : World) : (A + thrown) * World :=
  attempts maxRetries 0 None w.

End WithRetry.

(** What happens during a call, oldest first: an attempt, with how the
    operation ended, or a wait. *)
Inductive Event (A : Type) :=
| Attempt (result : A + Failure)
| Wait (ms : Z).

Arguments Attempt {A} result.
Arguments Wait {A} ms.

(** An operation and a timer that keep a journal of their calls. *)
Definition journalled {World A} (operation : World -> (A + Failure) * World)
    (wj : World * list (Event A)) : (A + Failure) * (World * list (Event A)) :=
  let '(r, w') := operation (fst wj) in (r, (w', snd wj ++ [Attempt r])).

Definition journalledSleep {World A} (sleep : Z -> World -> World) (ms : Z)
    (wj : World * list (Event A)) : World * list (Event A) :=
  (sleep ms (fst wj), snd wj ++ [Wait ms]).

End Retry.

(* ===================================================================== *)
(** ** The command tool: shell_execute_command
       (agentric-planning-flow.ts) *)
(* ===================================================================== *)

Module Tools.
Import JS Host.

(** The arguments of the callback; an absent property is [None]. *)
Record ExecArgs := mkExecArgs {
  container_id : string;
  command : string;
  directory : option string;
  timeout_seconds : option float
}.

(** The object the callback returns. *)
Record ExecResult := mkExecResult {
  res_command : string;
  res_output : option string;
  res_error : option string;
  res_success : bool;
  res_suggestion : option string
}.

(** The text to run (lines 101-105). *)
Definition commandToExecute (args : ExecArgs) : string :=
  match directory args with
  | Some d => if truthy d then "cd " +:+ d +:+ " && " +:+ command args else command args
  | None => command args
  end.

(** The test of lines 109-116. *)
Definition needsShell (c : string) : bool :=
  includes c "|" || includes c ">" || includes c "<" || includes c "&&"
  || includes c "||" || includes c ";" || includes c "*" || includes c " ".

(** The tokens before the timeout (lines 108-122). *)
Definition baseParts (c : string) : list string :=
  if needsShell c then ["bash"; "-c"; c]
  else List.filter (fun p => (0 <? String.length p)%nat) (split space c).

Section Callback.
Variable World : Type.
Variable spawn : string -> World -> ProcResult * World.
(** [Number.prototype.toString] *)
Variable numberToString : float -> string.

(** [args.timeout_seconds && args.timeout_seconds > 0] *)
Definition hasTimeout (args : ExecArgs) : bool :=
  match timeout_seconds args with
  | Some t => Json.truthy (Json.Number t) && PrimFloat.ltb 0 t
  | None => false
  end.

(** The tokens handed to the executor (lines 107-128). *)
Definition commandParts (args : ExecArgs) : list string :=
  let parts := baseParts (commandToExecute args) in
  match timeout_seconds args with
  | Some t => if hasTimeout args then "timeout" :: numberToString t :: parts else parts
  | None => parts
  end.

(** The callback (lines 92-141). *)
Definition shell_execute_command (args : ExecArgs) (w : World) : ExecResult * World :=
  match ServerService.executeCommand World spawn (container_id args)
          (commandParts args) w with
  | (inl result, w') =>
      ({| res_command := command args; res_output := Some result; res_error := None;
          res_success := true; res_suggestion := None |}, w')
  | (inr e, w') =>
      ({| res_command := command args; res_output := None;
          res_error := Some (message_or "Error desconocido" e);
          res_success := false;
          res_suggestion :=
            Some "Intenta usar shell_fix_command para corregir este comando" |}, w')
  end.

End Callback.
End Tools.

(* ===================================================================== *)
(** ** The client side of the executor and of the cleanup
       (docker-service.ts) *)
(* ===================================================================== *)

Module Client.
Import JS Host Eff Routes Pool.

Section Service.
Variable World : Type.
Variable spawn : string -> World -> ProcResult * World.
Variable now : World -> Z.
Variable toISOString : Z -> string.
Variable writeDockerfile : World -> option thrown * World.

Local Abbreviation Svc := (M (St World)).

(** [fetch] of a route whose request the journal does not follow. *)
Definition call {B} (handler : World -> Response B * World) : Svc (Response B) :=
  fun st =>
    let '(r, w') := handler (world st) in
    (inl r, mkSt w' (containerPool st) (isInitialized st) (initPromise st) (requests st)).

(** [a || b] on properties that may be undefined. *)
Definition orText (a : option string) (b : string) : string :=
  match a with
  | Some x => or_else x b
  | None => b
  end.

(** [data.stderr || data.details || data.error || 'Error desconocido'] *)
Definition errorMsg (data : Executor.ExecBody) : string :=
  orText (Executor.stderr data)
    (orText (Executor.details data)
       (orText (Executor.error data) "Error desconocido")).

(** [DockerService.executeCommand] (lines 270-341); the entries it adds
    to the log are left out. What it returns is [data.output]. *)
Definition executeCommand (containerId : string) (command : list string)
    : Svc (option string) :=
  ensureInitialized World spawn now toISOString writeDockerfile ;;;
  response <- call (Executor.POST World spawn containerId command) ;;
  let data := body response in
  if negb (ok response) || negb (default false (Executor.success data)) then
    throw (ErrorObj (errorMsg data) None)
  else ret (Executor.output data).

(** [this.containerPool.clear()] *)
Definition poolClear : Svc unit :=
  fun st =>
    (inl tt, mkSt (world st) ∅ (isInitialized st) (initPromise st) (requests st)).

(** [DockerService.cleanup] (lines 588-619). *)
Definition cleanup : Svc unit :=
  response <- call (POST_cleanup World spawn) ;;
  if negb (ok response) then
    throw (error ("Error al limpiar recursos: " +:+ statusText response))
  else poolClear.

End Service.
End Client.

(* ===================================================================== *)
(** ** Facts about strings *)
(* ===================================================================== *)

Module StringFacts.
Import JS.

Lemma app_nil_r (s : string) : s +:+ EmptyString = s.
Proof. induction s as [|c s IH]; simpl; [reflexivity | now rewrite IH]. Qed.

Lemma app_assoc (a b c : string) : (a +:+ b) +:+ c = a +:+ (b +:+ c).
Proof. induction a as [|x a IH]; simpl; [reflexivity | now rewrite IH]. Qed.

Lemma length_app (a b : string) :
  String.length (a +:+ b) = String.length a + String.length b.
Proof. induction a as [|x a IH]; simpl; [reflexivity | now rewrite IH]. Qed.

Lemma startsWith_app (p s : string) : startsWith (p +:+ s) p = true.
Proof.
  induction p as [|c p IH]; simpl; [reflexivity|].
  now rewrite Ascii.eqb_refl, IH.
Qed.

Lemma substring_from_app (p s : string) :
  substring_from (String.length p) (p +:+ s) = s.
Proof. induction p as [|c p IH]; simpl; [reflexivity | exact IH]. Qed.

(** A text without the separator is one field. *)
Lemma split_without_separator (sep : ascii) (s : string) :
  includes s (String sep EmptyString) = false -> split sep s = [s].
Proof.
  induction s as [|c s IH]; [reflexivity|].
  cbn [includes startsWith split]. rewrite andb_true_r.
  intros H. apply orb_false_elim in H as [Hc Hs].
  rewrite Ascii.eqb_sym, Hc, (IH Hs). reflexivity.
Qed.

Lemma split_field (sep : ascii) (a rest : string) :
  includes a (String sep EmptyString) = false ->
  split sep (a +:+ String sep EmptyString +:+ rest) = a :: split sep rest.
Proof.
  induction a as [|c a IH]; intros H.
  - cbn. now rewrite Ascii.eqb_refl.
  - cbn [includes startsWith] in H. rewrite andb_true_r in H.
    apply orb_false_elim in H as [Hc Ha].
    change (split sep (String c (a +:+ String sep EmptyString +:+ rest))
            = String c a :: split sep rest).
    cbn [split]. rewrite Ascii.eqb_sym, Hc, (IH Ha). reflexivity.
Qed.

(** Texts without a space, joined by spaces, are the words of the line. *)
Lemma split_join (l : list string) :
  l <> [] ->
  (forall x, In x l -> includes x " " = false) ->
  split space (join " " l) = l.
Proof.
  induction l as [|x l IH]; intros Hne Hall; [congruence|].
  destruct l as [|y l].
  - cbn [join String.concat]. apply split_without_separator. apply Hall. now left.
  - change (join " " (x :: y :: l)) with (x +:+ " " +:+ join " " (y :: l)).
    rewrite (split_field space x) by (apply Hall; now left).
    rewrite IH; [reflexivity | discriminate |].
    intros z Hz. apply Hall. now right.
Qed.

End StringFacts.

(* ===================================================================== *)
(** ** Concrete environments used to run the model *)
(* ===================================================================== *)

Module Scenario.
Import JS Host.

(** A host with one container, [c1], in which [which foo] finds nothing,
    the searches for files find nothing, and every other command fails
    with exit status 1. *)
Definition failingHost (cmd : string) (w : unit) : ProcResult * unit :=
  if String.eqb cmd "docker container inspect c1" then (mkProc 0 "[{}]" EmptyString, tt)
  else if startsWith cmd "docker container inspect" then
    (mkProc 1 EmptyString "Error: No such container", tt)
  else if String.eqb cmd "docker exec c1 pwd" then (mkProc 0 ("/app" +:+ nl) EmptyString, tt)
  else if includes cmd "which foo" then (mkProc 0 ("Not found" +:+ nl) EmptyString, tt)
  else if includes cmd "find" then (mkProc 0 EmptyString EmptyString, tt)
  else if includes cmd "cat" then
    (mkProc 1 EmptyString "cat: notes.txt: No such file or directory", tt)
  else (mkProc 127 EmptyString "exec failed: executable file not found", tt).

(** A host with container [c1], in which every command exits with status 1
    and writes nothing, as [false] does. *)
Definition silentHost (cmd : string) (w : unit) : ProcResult * unit :=
  if String.eqb cmd "docker container inspect c1" then (mkProc 0 "[{}]" EmptyString, tt)
  else if String.eqb cmd "docker exec c1 pwd" then (mkProc 0 ("/app" +:+ nl) EmptyString, tt)
  else (mkProc 1 EmptyString EmptyString, tt).

(** U+00A0 and U+FEFF in UTF-8. *)
Definition nbsp : string := String "194"%char (String "160"%char EmptyString).
Definition bom : string :=
  String "239"%char (String "187"%char (String "191"%char EmptyString)).

(** A host with container [c1], in which every command prints [done]
    between a no-break space and a byte order mark, and a line feed. *)
Definition paddedHost (cmd : string) (w : unit) : ProcResult * unit :=
  if String.eqb cmd "docker container inspect c1" then (mkProc 0 "[{}]" EmptyString, tt)
  else if String.eqb cmd "docker exec c1 pwd" then (mkProc 0 ("/app" +:+ nl) EmptyString, tt)
  else (mkProc 0 (nbsp +:+ "done" +:+ bom +:+ nl) EmptyString, tt).

(** The same host with [foo] installed and every command succeeding. *)
Definition workingHost (cmd : string) (w : unit) : ProcResult * unit :=
  if String.eqb cmd "docker container inspect c1" then (mkProc 0 "[{}]" EmptyString, tt)
  else if startsWith cmd "docker container inspect" then
    (mkProc 1 EmptyString "Error: No such container", tt)
  else if String.eqb cmd "docker exec c1 pwd" then (mkProc 0 ("/app" +:+ nl) EmptyString, tt)
  else if includes cmd "which foo" then (mkProc 0 ("/usr/local/bin/foo" +:+ nl) EmptyString, tt)
  else if includes cmd "find" then (mkProc 0 EmptyString EmptyString, tt)
  else (mkProc 0 ("  done " +:+ nl) EmptyString, tt).

(** *** A small container runtime

    Containers are kept newest first, as the runtime lists them. A
    container that is [locked] cannot be stopped or removed. Every command
    takes one unit of time; instants are printed as decimal numbers. *)
Record Box := mkBox {
  bx_id : string;
  bx_name : string;
  bx_image : string;
  bx_status : string;
  bx_created : Z;
  bx_locked : bool
}.

Record Dock := mkDock {
  boxes : list Box;
  clock : Z;
  serial : nat
}.

Definition fullLine (b : Box) : string :=
  bx_id b +:+ "|" +:+ bx_name b +:+ "|" +:+ bx_image b +:+ "|" +:+ bx_status b
  +:+ "|" +:+ pretty (bx_created b) +:+ nl.

Definition briefLine (b : Box) : string :=
  bx_id b +:+ "|" +:+ bx_name b +:+ "|" +:+ bx_image b +:+ nl.

Definition done (out : string) : ProcResult := mkProc 0 out EmptyString.
Definition failed (code : Z) (err : string) : ProcResult := mkProc code EmptyString err.

Definition known (d : Dock) (i : string) : bool :=
  existsb (fun b => String.eqb (bx_id b) i) (boxes d).

Definition removable (d : Dock) (i : string) : bool :=
  existsb (fun b => String.eqb (bx_id b) i && negb (bx_locked b)) (boxes d).

Definition stopBoxes (ids : list string) (d : Dock) : Dock :=
  mkDock (map (fun b =>
                 if existsb (String.eqb (bx_id b)) ids
                 then mkBox (bx_id b) (bx_name b) (bx_image b) "Exited (0) 1 second ago"
                        (bx_created b) (bx_locked b)
                 else b) (boxes d))
         (clock d) (serial d).

Definition removeBoxes (ids : list string) (d : Dock) : Dock :=
  mkDock (List.filter (fun b => negb (existsb (String.eqb (bx_id b)) ids)) (boxes d))
         (clock d) (serial d).

Definition runtimeStep (cmd : string) (d : Dock) : ProcResult * Dock :=
  if String.eqb cmd Routes.psFull then
    (done (String.concat EmptyString (map fullLine (boxes d))), d)
  else if String.eqb cmd Routes.psBrief then
    (done (String.concat EmptyString (map briefLine (boxes d))), d)
  else if startsWith cmd "docker run -d --name " then
    match split space (substring_from 21 cmd) with
    | [name; image] =>
        if existsb (fun b => String.eqb (bx_name b) name) (boxes d) then
          (failed 125 "Conflict. The container name is already in use", d)
        else
          let i := "box" +:+ pretty (serial d) in
          (done (i +:+ nl),
           mkDock (mkBox i name image "Up 1 second" (clock d) false :: boxes d)
             (clock d) (S (serial d)))
    | _ => (failed 125 "unsupported options", d)
    end
  else if startsWith cmd "docker container inspect " then
    if known d (substring_from 25 cmd) then (done "[{}]", d)
    else (failed 1 "Error: No such container", d)
  else if startsWith cmd "docker exec " then
    if known d (nth 2 (split space cmd) EmptyString) then (done ("v1" +:+ nl), d)
    else (failed 1 "Error: No such container", d)
  else if startsWith cmd "docker stop " then
    let ids := split space (substring_from 12 cmd) in
    if forallb (removable d) ids then (done EmptyString, stopBoxes ids d)
    else (failed 1 "cannot stop container", d)
  else if startsWith cmd "docker rm " then
    let ids := split space (substring_from 10 cmd) in
    if forallb (removable d) ids then (done EmptyString, removeBoxes ids d)
    else (failed 1 "cannot remove container", d)
  else if String.eqb cmd "docker --version" then (done "Docker version 24", d)
  else if startsWith cmd "docker images -q " then (done ("img1" +:+ nl), d)
  else (failed 127 "command not found", d).

Definition runtime (cmd : string) (d : Dock) : ProcResult * Dock :=
  let '(r, d') := runtimeStep cmd d in
  (r, mkDock (boxes d') (clock d' + 1) (serial d')).

Definition runtimeNow (d : Dock) : Z := clock d.

Definition printInstant (t : Z) : string := pretty t.

Fixpoint readDigits (acc : N) (s : string) : option N :=
  match s with
  | EmptyString => Some acc
  | String c s' =>
      match digit_of c with
      | Some n => readDigits (10 * acc + N.of_nat n) s'
      | None => None
      end
  end.

Definition readInstant (s : string) : option Z :=
  if truthy s then option_map Z.of_N (readDigits 0 s) else None.

Definition parsesToArray (s : string) : bool := startsWith s "[".

Definition noDockerfile (d : Dock) : option thrown * Dock := (None, d).

(** Three containers created at 1000 < 2000 < 3000; the oldest cannot be
    removed. In the first registry all run; in the second the newest has
    exited. *)
Definition t1 : Box := mkBox "t1" "codeai-a" Routes.defaultImage "Up 3 hours" 1000 true.
Definition t2 : Box := mkBox "t2" "codeai-b" Routes.defaultImage "Up 2 hours" 2000 false.
Definition t3 : Box := mkBox "t3" "codeai-c" Routes.defaultImage "Up 1 hour" 3000 false.
Definition t3exited : Box :=
  mkBox "t3" "codeai-c" Routes.defaultImage "Exited (0) 5 minutes ago" 3000 false.

Definition threeRunning : Dock := mkDock [t3; t2; t1] 5000 0.
Definition newestExited : Dock := mkDock [t3exited; t2; t1] 5000 0.
Definition emptyDock : Dock := mkDock [] 5000 0.

(** A registry whose newest container is not one of the application's. *)
Definition stranger : Box := mkBox "s9" "web" "nginx:latest" "Up 5 minutes" 4000 false.
Definition mixed : Dock := mkDock [stranger; t3] 5000 0.

(** An initialised service in front of a runtime. *)
Definition service (d : Dock) : Pool.St Dock := Pool.mkSt d ∅ true (Some None) [].

Definition getAvailable (config : option Routes.DockerContainerConfig)
    : Eff.M (Pool.St Dock) Routes.ContainerInfo :=
  Pool.getAvailableContainer Dock runtime runtimeNow printInstant parsesToArray
    noDockerfile readInstant config.

Definition serverGetAvailable (config : option Routes.DockerContainerConfig)
    : Eff.M (Pool.St Dock) Routes.ContainerInfo :=
  Pool.serverGetAvailableContainer Dock runtime runtimeNow printInstant noDockerfile config.

(** The record the list endpoint gives for a box. *)
Definition listed (b : Box) : Routes.ContainerInfo :=
  Routes.mkContainerInfo (bx_id b) (bx_name b) (bx_image b)
    (Routes.normalizedStatus (bx_status b)) (Some (bx_status b))
    (Some (pretty (bx_created b))) None.

(** A configuration whose container the list endpoint does not show. *)
Definition webConfig : Routes.DockerContainerConfig :=
  Routes.mkConfig "ubuntu:22.04" (Some "web") None None None None None.

(** No regular expression is built from text that is not literal in these
    runs. *)
Definition noRegExp (source input template : string) : string + thrown :=
  inr (ErrorObj "Invalid regular expression" None).

End Scenario.

(* ===================================================================== *)
(** ** Properties of the Command Executor *)
(* ===================================================================== *)

Module ExecutorSpec.
Import JS Host Executor.

Lemma modifiedCommand_mkdir (command : list string) :
  isMkdirWithoutP command = true ->
  modifiedCommand command = "mkdir" :: "-p" :: tl command.
Proof.
  intros H. unfold modifiedCommand. now rewrite H.
Qed.

Lemma modifiedCommand_echo (command : list string) :
  isMkdirWithoutP command = false ->
  isEchoRedirect command = true ->
  modifiedCommand command = echoRewrite command.
Proof.
  intros Hm He. unfold modifiedCommand. now rewrite Hm, He.
Qed.

Lemma modifiedCommand_same (command : list string) :
  isMkdirWithoutP command = false ->
  isEchoRedirect command = false ->
  modifiedCommand command = command.
Proof.
  intros Hm He. unfold modifiedCommand. now rewrite Hm, He.
Qed.

Section Journal.
Variable World : Type.
Variable spawn : string -> World -> ProcResult * World.

(** The command lines the handler asks the host to run. *)
Definition journal (containerId : string) (command : list string) (w : World)
    : list string :=
  snd (snd (POST (World * list string) (logged spawn) containerId command (w, []))).

Lemma execSync_logged (cmd : string) (m : N) (w : World) (l : list string) :
  execSync (World * list string) (logged spawn) cmd m (w, l)
  = (fst (execSync World spawn cmd m w), (snd (execSync World spawn cmd m w), l ++ [cmd])).
Proof.
  unfold execSync, logged. simpl. destruct (spawn cmd w) as [r w']. simpl.
  destruct (_ || _); [reflexivity|]. destruct (pr_status r =? 0)%Z; reflexivity.
Qed.

Lemma journal_lines (containerId : string) (command : list string) (w : World) :
  forall line, In line (journal containerId command w) ->
    line = "docker container inspect " +:+ containerId
    \/ line = "docker exec " +:+ containerId +:+ " pwd"
    \/ line = execLine containerId command.
Proof.
  intros line. unfold journal, POST.
  destruct (truthy containerId); simpl; [|tauto].
  rewrite execSync_logged.
  destruct (execSync World spawn _ defaultMaxBuffer w) as [[o|e] w1]; simpl.
  - rewrite execSync_logged.
    destruct (execSync World spawn _ defaultMaxBuffer w1) as [o2 w2]; simpl.
    rewrite execSync_logged.
    destruct (execSync World spawn _ maxBuffer w2) as [[o3|e3] w3]; simpl;
      unfold execLine; intuition.
  - intuition.
Qed.
End Journal.

Section Existing.
Variable World : Type.
Variable spawn : string -> World -> ProcResult * World.

(** For a container that exists the handler starts three processes: the
    existence check, the working-directory probe and the command. *)
Lemma journal_existing (containerId : string) (command : list string) (w : World) :
  truthy containerId = true ->
  containerExists World spawn containerId w = true ->
  journal World spawn containerId command w
  = ["docker container inspect " +:+ containerId;
     "docker exec " +:+ containerId +:+ " pwd";
     execLine containerId command].
Proof.
  intros Hid Hex. unfold journal, POST, containerExists in *. rewrite Hid.
  cbn [negb]. rewrite execSync_logged.
  destruct (execSync World spawn _ defaultMaxBuffer w) as [[o|e] w1];
    [|discriminate].
  cbn [fst snd]. rewrite execSync_logged.
  destruct (execSync World spawn _ defaultMaxBuffer w1) as [o2 w2]. cbn [fst snd].
  rewrite execSync_logged.
  destruct (execSync World spawn _ maxBuffer w2) as [[o3|e3] w3]; reflexivity.
Qed.
End Existing.

(** How the shell reads the command line of an execution. *)
Lemma scan_plain_char (c : ascii) (cur : option string) (rest : string) :
  Shell.isPlain c = true ->
  Shell.scan false cur (String c rest) = Shell.scan false (Shell.grown cur c) rest.
Proof.
  intros H.
  destruct c as [[] [] [] [] [] [] [] []]; vm_compute in H; try discriminate H;
    reflexivity.
Qed.

Lemma scan_plain_word (word : string) (cur : option string) (rest : string) :
  Shell.every Shell.isPlain word = true ->
  truthy word = true ->
  Shell.scan false cur (word +:+ rest)
  = Shell.scan false (Some (default EmptyString cur +:+ word)) rest.
Proof.
  revert cur. induction word as [|c word IH]; intros cur Hall Hne; [discriminate|].
  cbn [Shell.every] in Hall. apply andb_true_iff in Hall as [Hc Hall].
  cbn [String.append]. rewrite (scan_plain_char c cur _ Hc).
  destruct word as [|d word].
  - reflexivity.
  - rewrite (IH (Shell.grown cur c) Hall eq_refl). unfold Shell.grown.
    replace (default EmptyString (Some (default EmptyString cur +:+ String c EmptyString)))
      with (default EmptyString cur +:+ String c EmptyString) by reflexivity.
    now rewrite StringFacts.app_assoc.
Qed.

Lemma scan_quoted_char (c : ascii) (cur : option string) (rest : string) :
  Shell.isLiteral c = true ->
  Shell.scan true cur (quoteChar c +:+ rest) = Shell.scan true (Shell.grown cur c) rest.
Proof.
  intros H.
  destruct c as [[] [] [] [] [] [] [] []]; vm_compute in H; try discriminate H;
    reflexivity.
Qed.

Lemma scan_quoted_body (token acc rest : string) :
  Shell.every Shell.isLiteral token = true ->
  Shell.scan true (Some acc) (quoteBody token +:+ dq +:+ rest)
  = Shell.scan false (Some (acc +:+ token)) rest.
Proof.
  revert acc. induction token as [|c token IH]; intros acc Hall.
  - now rewrite StringFacts.app_nil_r.
  - cbn [Shell.every] in Hall. apply andb_true_iff in Hall as [Hc Hall].
    cbn [quoteBody]. rewrite StringFacts.app_assoc.
    rewrite (scan_quoted_char c (Some acc) _ Hc). unfold Shell.grown.
    replace (default EmptyString (Some acc)) with acc by reflexivity.
    rewrite (IH _ Hall). now rewrite StringFacts.app_assoc.
Qed.

(** A token as [JSON.stringify] writes it is read back as the token. *)
Lemma scan_stringified (token rest : string) :
  Shell.every Shell.isLiteral token = true ->
  Shell.scan false None (JSON_stringify token +:+ rest)
  = Shell.scan false (Some token) rest.
Proof.
  intros Hall. unfold JSON_stringify.
  rewrite !StringFacts.app_assoc.
  change (Shell.scan false None (dq +:+ quoteBody token +:+ dq +:+ rest))
    with (Shell.scan true (Some EmptyString) (quoteBody token +:+ dq +:+ rest)).
  now rewrite scan_quoted_body.
Qed.

Lemma scan_stringified_tokens (tokens : list string) :
  (forall token, In token tokens -> Shell.every Shell.isLiteral token = true) ->
  Shell.scan false None (join " " (map JSON_stringify tokens)) = Some tokens.
Proof.
  induction tokens as [|t tokens IH]; intros Hall; [reflexivity|].
  assert (Ht : Shell.every Shell.isLiteral t = true) by (apply Hall; now left).
  assert (Hrest : Shell.scan false None (join " " (map JSON_stringify tokens))
                  = Some tokens).
  { apply IH. intros token Hin. apply Hall. now right. }
  destruct tokens as [|t' tokens].
  - cbn [map join String.concat].
    rewrite <- (StringFacts.app_nil_r (JSON_stringify t)).
    now rewrite scan_stringified.
  - change (join " " (map JSON_stringify (t :: t' :: tokens)))
      with (JSON_stringify t +:+ " " +:+ join " " (map JSON_stringify (t' :: tokens))).
    rewrite scan_stringified by exact Ht.
    change (Shell.scan false (Some t)
              (" " +:+ join " " (map JSON_stringify (t' :: tokens))))
      with (option_map (cons t)
              (Shell.scan false None (join " " (map JSON_stringify (t' :: tokens))))).
    now rewrite Hrest.
Qed.

(** The shell reads the command line of an execution as [docker], [exec],
    the container and the tokens. *)
Lemma words_execLine (containerId : string) (tokens : list string) :
  truthy containerId = true ->
  Shell.every Shell.isPlain containerId = true ->
  (forall token, In token tokens -> Shell.every Shell.isLiteral token = true) ->
  Shell.words ("docker exec " +:+ containerId +:+ " "
               +:+ join " " (map JSON_stringify tokens))
  = Some ("docker" :: "exec" :: containerId :: tokens).
Proof.
  intros Hid Hplain Hall. unfold Shell.words.
  change (Shell.scan false None
            ("docker exec " +:+ containerId +:+ " "
             +:+ join " " (map JSON_stringify tokens)))
    with (option_map (cons "docker")
            (option_map (cons "exec")
               (Shell.scan false None
                  (containerId +:+ " " +:+ join " " (map JSON_stringify tokens))))).
  rewrite (scan_plain_word containerId None _ Hplain Hid).
  change (Shell.scan false (Some (default EmptyString None +:+ containerId))
            (" " +:+ join " " (map JSON_stringify tokens)))
    with (option_map (cons containerId)
            (Shell.scan false None (join " " (map JSON_stringify tokens)))).
  now rewrite (scan_stringified_tokens tokens Hall).
Qed.

(** C6 (amended): a command that is neither an [echo ... > file] nor a
    [mkdir] without [-p] is run with exactly the submitted tokens. The
    handler changes none of them, and every command line it starts is the
    existence check, the working-directory probe, or [docker exec] of the
    container followed by the submitted tokens, each written by
    [JSON.stringify]; for a container that exists it starts these three
    lines, in this order. The handler puts no shell in front of the tokens;
    the line passes through the shell of [execSync], which reads it as
    [docker], [exec], the container and the submitted tokens, unchanged,
    when the container is named by plain characters and the tokens hold no
    control character, no [$] and no backquote. *)
Theorem C6_tokens_run_unchanged
    (World : Type) (spawn : string -> World -> ProcResult * World)
    (containerId : string) (command : list string) (w : World) :
  isMkdirWithoutP command = false ->
  isEchoRedirect command = false ->
  modifiedCommand command = command
  /\ (forall line, In line (journal World spawn containerId command w) ->
        line = "docker container inspect " +:+ containerId
        \/ line = "docker exec " +:+ containerId +:+ " pwd"
        \/ line = "docker exec " +:+ containerId +:+ " "
                  +:+ join " " (map JSON_stringify command))
  /\ (truthy containerId = true ->
      containerExists World spawn containerId w = true ->
      journal World spawn containerId command w
      = ["docker container inspect " +:+ containerId;
         "docker exec " +:+ containerId +:+ " pwd";
         "docker exec " +:+ containerId +:+ " "
         +:+ join " " (map JSON_stringify command)])
  /\ (truthy containerId = true ->
      Shell.every Shell.isPlain containerId = true ->
      (forall token, In token command ->
         Shell.every Shell.isLiteral token = true) ->
      Shell.words ("docker exec " +:+ containerId +:+ " "
                   +:+ join " " (map JSON_stringify command))
      = Some ("docker" :: "exec" :: containerId :: command)).
Proof.
  intros Hm He.
  pose proof (modifiedCommand_same command Hm He) as Hsame.
  split; [exact Hsame|]. split; [|split].
  - intros line Hin.
    destruct (journal_lines World spawn containerId command w line Hin) as [H|[H|H]];
      [now left | now right; left | right; right].
    rewrite H. unfold execLine, escapedCommand. now rewrite Hsame.
  - intros Hid Hex. rewrite (journal_existing World spawn containerId command w Hid Hex).
    unfold execLine, escapedCommand. now rewrite Hsame.
  - apply words_execLine.
Qed.

Lemma C6_tokens_run_unchanged_witness :
  modifiedCommand ["ls"; "-la"; "/uploads"] = ["ls"; "-la"; "/uploads"]
  /\ journal unit Scenario.workingHost "c1" ["ls"; "-la"; "/uploads"] tt
     = ["docker container inspect c1"; "docker exec c1 pwd";
        "docker exec c1 " +:+ join " " (map JSON_stringify ["ls"; "-la"; "/uploads"])]
  /\ Shell.words
       ("docker exec c1 " +:+ join " " (map JSON_stringify ["ls"; "-la"; "/uploads"]))
     = Some ["docker"; "exec"; "c1"; "ls"; "-la"; "/uploads"].
Proof.
  destruct (C6_tokens_run_unchanged unit Scenario.workingHost "c1"
              ["ls"; "-la"; "/uploads"] tt eq_refl eq_refl)
    as [Hsame [_ [Hrun Hwords]]].
  split; [exact Hsame|]. split; [exact (Hrun eq_refl eq_refl)|].
  apply (Hwords eq_refl eq_refl).
  intros token [<-|[<-|[<-|[]]]]; reflexivity.
Defined.

(** The shell does not read every token as it is: what [JSON.stringify]
    writes for a line feed stays a backslash and an [n], and a token with a
    [$] is not read by the rules for literal text. *)
Lemma tokens_the_shell_changes :
  Shell.words ("docker exec c1 " +:+ join " " (map JSON_stringify ["echo"; "a" +:+ nl +:+ "b"]))
  = Some ["docker"; "exec"; "c1"; "echo"; "a" +:+ bs +:+ "nb"]
  /\ Shell.words ("docker exec c1 " +:+ join " " (map JSON_stringify ["echo"; "$HOME"]))
     = None.
Proof. split; reflexivity. Qed.

(** C6, as stated, fails: the handler adds [-p] to a [mkdir] and turns an
    [echo] with a redirection into a [bash -c] invocation that the caller
    never asked for. *)
Lemma C6_counterexample :
  modifiedCommand ["mkdir"; "data"] = ["mkdir"; "-p"; "data"]
  /\ modifiedCommand ["echo"; "hello"; ">"; "out.txt"]
     = ["bash"; "-c"; "echo hello > " +:+ dq +:+ "out.txt" +:+ dq]
  /\ journal unit Scenario.workingHost "c1" ["echo"; "hello"; ">"; "out.txt"] tt
     = ["docker container inspect c1"; "docker exec c1 pwd";
        "docker exec c1 "
        +:+ join " " (map JSON_stringify ["bash"; "-c"; "echo hello > " +:+ dq +:+ "out.txt" +:+ dq])].
Proof.
  repeat split; reflexivity.
Qed.

Section Outcome.
Variable World : Type.
Variable spawn : string -> World -> ProcResult * World.

Lemma execSync_world (cmd : string) (m : N) (w : World) :
  snd (execSync World spawn cmd m w) = snd (spawn cmd w).
Proof.
  unfold execSync. destruct (spawn cmd w) as [r w'].
  destruct (_ || _); [reflexivity|]. destruct (pr_status r =? 0)%Z; reflexivity.
Qed.

Lemma worldBeforeExec_eq (containerId : string) (w : World) :
  worldBeforeExec World spawn containerId w
  = snd (spawn ("docker exec " +:+ containerId +:+ " pwd")
           (snd (spawn ("docker container inspect " +:+ containerId) w))).
Proof.
  unfold worldBeforeExec.
  destruct (spawn ("docker container inspect " +:+ containerId) w) as [r1 w1].
  cbn [snd]. destruct (spawn _ w1) as [r2 w2]. reflexivity.
Qed.

Lemma POST_existing (containerId : string) (command : list string) (w : World) :
  truthy containerId = true ->
  containerExists World spawn containerId w = true ->
  fst (POST World spawn containerId command w)
  = match fst (execSync World spawn (execLine containerId command) maxBuffer
                 (worldBeforeExec World spawn containerId w)) with
    | inl out =>
        mkResponse 200
          {| success := Some true; output := Some (trim out);
             error := None; details := None; stderr := None |}
    | inr e => mkResponse 200 (failureBody e)
    end.
Proof.
  intros Hid Hex. rewrite worldBeforeExec_eq.
  unfold POST, containerExists in *. rewrite Hid. cbn [negb].
  pose proof (execSync_world ("docker container inspect " +:+ containerId)
                defaultMaxBuffer w) as H1.
  destruct (execSync World spawn ("docker container inspect " +:+ containerId)
              defaultMaxBuffer w) as [[o|e] w1]; [|discriminate].
  cbn [snd] in H1. subst w1.
  pose proof (execSync_world ("docker exec " +:+ containerId +:+ " pwd")
                defaultMaxBuffer
                (snd (spawn ("docker container inspect " +:+ containerId) w))) as H2.
  destruct (execSync World spawn ("docker exec " +:+ containerId +:+ " pwd")
              defaultMaxBuffer _) as [o2 w2].
  cbn [snd] in H2. subst w2. unfold execLine.
  destruct (execSync World spawn _ maxBuffer _) as [[o3|e3] w3]; reflexivity.
Qed.

(** C7: for a request that reaches the execution (a container id was given
    and the container exists), let [r] be what the process of the command
    left behind. A response with [success = true] carries exactly the
    standard output of [r], trimmed, and that output was within the buffer
    ceiling of 5 MiB; an output above the ceiling gives [success = false]
    with an error, never a shortened output; and a process that exits with
    status 0 within the ceiling gives [success = true]. Trimmed is as
    [String.prototype.trim] does it: the white space at both ends goes, the
    no-break space, the byte order mark and the other white space beyond
    ASCII included. *)
Theorem C7_trimmed_output_or_failure
    (containerId : string) (command : list string) (w : World) :
  truthy containerId = true ->
  containerExists World spawn containerId w = true ->
  let r := fst (spawn (execLine containerId command)
                  (worldBeforeExec World spawn containerId w)) in
  let response := fst (POST World spawn containerId command w) in
  (success (body response) = Some true ->
     output (body response) = Some (trim (pr_stdout r))
     /\ (N.of_nat (String.length (pr_stdout r)) <= maxBuffer)%N)
  /\ ((maxBuffer < N.of_nat (String.length (pr_stdout r)))%N ->
        success (body response) = Some false
        /\ error (body response) = Some "Error al ejecutar comando"
        /\ details (body response) = Some "spawnSync /bin/sh ENOBUFS")
  /\ ((N.of_nat (String.length (pr_stdout r)) <= maxBuffer)%N ->
      (N.of_nat (String.length (pr_stderr r)) <= maxBuffer)%N ->
      pr_status r = 0%Z ->
        success (body response) = Some true
        /\ output (body response) = Some (trim (pr_stdout r))).
Proof.
  intros Hid Hex r response. subst response.
  rewrite (POST_existing containerId command w Hid Hex).
  unfold execSync. subst r.
  destruct (spawn (execLine containerId command) _) as [r w3]. simpl.
  destruct (maxBuffer <? N.of_nat (String.length (pr_stdout r)))%N eqn:Hout; simpl.
  - apply N.ltb_lt in Hout. repeat split; try discriminate; try lia.
  - apply N.ltb_ge in Hout.
    destruct (maxBuffer <? N.of_nat (String.length (pr_stderr r)))%N eqn:Herr; simpl.
    + apply N.ltb_lt in Herr. repeat split; try discriminate; try lia.
    + destruct (pr_status r =? 0)%Z eqn:Hst; simpl.
      * repeat split; auto; lia.
      * apply Z.eqb_neq in Hst. repeat split; try discriminate; try lia; congruence.
Qed.
End Outcome.

Lemma C7_trimmed_output_or_failure_witness :
  (success (body (fst (POST unit Scenario.workingHost "c1" ["ls"] tt))) = Some true
   /\ output (body (fst (POST unit Scenario.workingHost "c1" ["ls"] tt)))
      = Some "done")
  /\ (success (body (fst (POST unit Scenario.paddedHost "c1" ["run"] tt))) = Some true
      /\ output (body (fst (POST unit Scenario.paddedHost "c1" ["run"] tt)))
         = Some "done").
Proof.
  pose proof (C7_trimmed_output_or_failure unit Scenario.workingHost "c1" ["ls"] tt
                eq_refl eq_refl) as [_ [_ H]].
  pose proof (C7_trimmed_output_or_failure unit Scenario.paddedHost "c1" ["run"] tt
                eq_refl eq_refl) as [_ [_ H']].
  split.
  - apply H; [vm_compute; discriminate | vm_compute; discriminate | reflexivity].
  - apply H'; [vm_compute; discriminate | vm_compute; discriminate | reflexivity].
Defined.

End ExecutorSpec.

(* ===================================================================== *)
(** ** Properties of the command repair *)
(* ===================================================================== *)

Module RepairSpec.
Import JS Host Eff Repair.


Section Store.
Variable World : Type.
Variable spawn : string -> World -> ProcResult * World.
Variable regExpReplace : string -> string -> string -> string + thrown.

Local Abbreviation exec := (Repair.exec World spawn).

(** A computation that never assigns [fixStrategy]. *)
Definition keeps {A} (m : M (St World) A) : Prop :=
  forall st r st', m st = (r, st') -> fixStrategy st' = fixStrategy st.

Lemma keeps_ret {A} (a : A) : keeps (ret a).
Proof. intros st r st' H. inversion H. reflexivity. Qed.

Lemma keeps_throw {A} (e : thrown) : keeps (@throw (St World) A e).
Proof. intros st r st' H. inversion H. reflexivity. Qed.

Lemma keeps_bind {A B} (m : M (St World) A) (k : A -> M (St World) B) :
  keeps m -> (forall a, keeps (k a)) -> keeps (bind m k).
Proof.
  intros Hm Hk st r st' H. unfold bind in H.
  destruct (m st) as [[a|e] s1] eqn:E.
  - rewrite (Hk a _ _ _ H). exact (Hm _ _ _ E).
  - inversion H; subst. exact (Hm _ _ _ E).
Qed.

Lemma keeps_tryCatch {A} (m : M (St World) A) (h : thrown -> M (St World) A) :
  keeps m -> (forall e, keeps (h e)) -> keeps (tryCatch m h).
Proof.
  intros Hm Hh st r st' H. unfold tryCatch in H.
  destruct (m st) as [[a|e] s1] eqn:E.
  - inversion H; subst. exact (Hm _ _ _ E).
  - rewrite (Hh e _ _ _ H). exact (Hm _ _ _ E).
Qed.

Lemma keeps_exec (cid : string) (cmd : list string) : keeps (exec cid cmd).
Proof.
  intros st r st' H. unfold Repair.exec in H.
  destruct (ServerService.executeCommand _ _ _ _ _) as [r0 w']. inversion H. reflexivity.
Qed.

Lemma keeps_setFixed (v : string) : keeps (setFixed World v).
Proof. intros st r st' H. inversion H. reflexivity. Qed.

Lemma keeps_getFixed : keeps (getFixed World).
Proof. intros st r st' H. inversion H. reflexivity. Qed.

Lemma keeps_getStrategy : keeps (getStrategy World).
Proof. intros st r st' H. inversion H. reflexivity. Qed.

Lemma keeps_replaceMainCommand (a b c : string) :
  keeps (replaceMainCommand World regExpReplace a b c).
Proof.
  unfold replaceMainCommand. destruct (isLiteralSource a); [apply keeps_ret|].
  destruct (regExpReplace _ _ _); [apply keeps_ret | apply keeps_throw].
Qed.

Lemma keeps_runFixed (cid : string) : keeps (runFixed World spawn cid).
Proof.
  unfold runFixed. apply keeps_bind; [apply keeps_getFixed|]. intros f.
  apply keeps_tryCatch.
  - apply keeps_bind; [apply keeps_exec | intros; apply keeps_ret].
  - intros; apply keeps_ret.
Qed.

(** Rule 1 leaves [fixStrategy] at [file_not_found], whether its lookups
    return or throw. *)
Lemma fileNotFound_strategy (cid cmd : string) (st : St World) r st' :
  fileNotFound World spawn cid cmd st = (r, st') ->
  fixStrategy st' = "file_not_found".
Proof.
  unfold fileNotFound, bind at 1. simpl. intros H.
  match type of H with ?m ?s = _ =>
    assert (K : keeps m); [| rewrite (K _ _ _ H); reflexivity] end.
  destruct (pop (split space cmd)) as [fileName|]; [|apply keeps_ret].
  destruct (_ && _); [|apply keeps_ret].
  apply keeps_bind; [apply keeps_exec|]. intros found.
  destruct (truthy (trim found)); [apply keeps_setFixed|].
  destruct (includes _ " "); [apply keeps_setFixed|].
  apply keeps_bind; [apply keeps_exec|]. intros found2.
  destruct (truthy (trim found2)); [apply keeps_setFixed | apply keeps_ret].
Qed.

Lemma computeFix_file_not_found (cid cmd err : string) (st : St World) r st' :
  includes err "No such file or directory" = true ->
  computeFix World spawn regExpReplace cid cmd err st = (r, st') ->
  fixStrategy st' = "file_not_found".
Proof.
  intros Herr. unfold computeFix. rewrite Herr.
  unfold bind at 1. simpl. unfold bind at 1. simpl. unfold bind at 1.
  destruct (fileNotFound World spawn cid cmd _) as [[[]|e] s1] eqn:E; intros H.
  - pose proof (fileNotFound_strategy _ _ _ _ _ E) as Hs.
    unfold bind, getStrategy in H. rewrite Hs in H. simpl in H.
    inversion H; subst. exact Hs.
  - inversion H; subst. exact (fileNotFound_strategy _ _ _ _ _ E).
Qed.

Lemma shell_fix_file_not_found
    (container_id failed_command error_message : string) (w : World) result st :
  includes error_message "No such file or directory" = true ->
  shell_fix_command World spawn regExpReplace
    container_id failed_command error_message w = (result, st) ->
  fixStrategy st = "file_not_found"
  /\ (fix_strategy result = Some "file_not_found"
      \/ (fix_strategy result = None /\ success result = false
          /\ fixed_command result = None))
  /\ original_command result = failed_command.
Proof.
  intros Herr. unfold shell_fix_command, tryBody.
  unfold bind at 1.
  destruct (computeFix World spawn regExpReplace container_id failed_command
              error_message (initial World failed_command w)) as [[[]|e] s1] eqn:E;
    pose proof (computeFix_file_not_found _ _ _ _ _ _ Herr E) as Hs.
  - unfold bind at 1.
    destruct (runFixed World spawn container_id s1) as [[r|e] s2] eqn:E2;
      pose proof (keeps_runFixed container_id _ _ _ E2) as Hk; rewrite Hs in Hk.
    + unfold bind, getStrategy, getFixed, ret. intros H. inversion H; subst.
      cbn. rewrite Hk. auto.
    + intros H. inversion H; subst. cbn. intuition.
  - intros H. inversion H; subst. cbn. intuition.
Qed.

(** C3: when the error text contains "No such file or directory", the
    variable [fixStrategy] holds [file_not_found] when the callback ends,
    however its lookups went; the object it returns names that strategy,
    or none at all when a lookup threw and the failure is reported; and
    [original_command] is the command that was passed in, the rewritten
    command being a value of its own. *)
Theorem C3_file_not_found_selected
    (container_id failed_command error_message : string) (w : World) :
  includes error_message "No such file or directory" = true ->
  let result := fst (shell_fix_command World spawn regExpReplace
                       container_id failed_command error_message w) in
  let st := snd (shell_fix_command World spawn regExpReplace
                   container_id failed_command error_message w) in
  fixStrategy st = "file_not_found"
  /\ (fix_strategy result = Some "file_not_found"
      \/ (fix_strategy result = None /\ success result = false
          /\ fixed_command result = None))
  /\ original_command result = failed_command.
Proof.
  intros Herr.
  destruct (shell_fix_command World spawn regExpReplace container_id failed_command
              error_message w) as [result st] eqn:E.
  cbn [fst snd]. exact (shell_fix_file_not_found _ _ _ _ _ _ Herr E).
Qed.



End Store.

Lemma C3_file_not_found_selected_witness :
  fix_strategy (fst (shell_fix_command unit Scenario.failingHost Scenario.noRegExp
                       "c1" "cat notes.txt" "cat: notes.txt: No such file or directory" tt))
  = Some "file_not_found"
  /\ original_command
       (fst (shell_fix_command unit Scenario.failingHost Scenario.noRegExp
               "c1" "cat notes.txt" "cat: notes.txt: No such file or directory" tt))
     = "cat notes.txt".
Proof.
  pose proof (C3_file_not_found_selected unit Scenario.failingHost Scenario.noRegExp
                "c1" "cat notes.txt" "cat: notes.txt: No such file or directory" tt
                eq_refl) as [_ [_ H]].
  split; [reflexivity | exact H].
Defined.



Section Executor.
Variable World : Type.
Variable spawn : string -> World -> ProcResult * World.

(** The server-side executor does not throw for a command that fails: for
    an existing container it returns text whatever the exit status was. *)
Lemma executeCommand_returns_text (containerId : string) (command : list string)
    (w : World) :
  truthy containerId = true ->
  Executor.containerExists World spawn containerId w = true ->
  exists text, fst (ServerService.executeCommand World spawn containerId command w)
               = inl text.
Proof.
  intros Hid Hex. unfold ServerService.executeCommand.
  pose proof (ExecutorSpec.POST_existing World spawn containerId command w Hid Hex) as H.
  destruct (Executor.POST World spawn containerId command w) as [response w'].
  cbn [fst] in H. subst response.
  destruct (fst (execSync World spawn _ _ _)); cbn; eauto.
Qed.
End Executor.

Section Outcomes.
Variable World : Type.
Variable spawn : string -> World -> ProcResult * World.
Variable regExpReplace : string -> string -> string -> string + thrown.

(** What the callback answers once the rewriting has completed, in terms
    of the single call of the executor that follows. *)
Lemma shell_fix_after_rewriting
    (container_id failed_command error_message : string) (w : World) (st1 : St World) :
  computeFix World spawn regExpReplace container_id failed_command error_message
    (initial World failed_command w) = (inl tt, st1) ->
  fst (shell_fix_command World spawn regExpReplace container_id failed_command
         error_message w)
  = match fst (ServerService.executeCommand World spawn container_id
                 (commandParts (fixedCommand st1)) (world st1)) with
    | inl text =>
        {| original_command := failed_command;
           fixed_command := Some (fixedCommand st1);
           fix_strategy := Some (fixStrategy st1);
           success := true; output := Some text; error := None |}
    | inr fixError =>
        {| original_command := failed_command;
           fixed_command := Some (fixedCommand st1);
           fix_strategy := Some (fixStrategy st1);
           success := false;
           output := Some (message_or "Error al ejecutar comando corregido" fixError);
           error := None |}
    end.
Proof.
  intros Hfix. unfold shell_fix_command, tryBody. unfold bind at 1. rewrite Hfix.
  unfold runFixed, bind, tryCatch, getFixed, getStrategy, ret, Repair.exec. cbn.
  destruct (ServerService.executeCommand World spawn container_id _ (world st1))
    as [[text|e] w2]; reflexivity.
Qed.

(** An exception in the rewriting itself is caught and reported. *)
Lemma shell_fix_rewriting_throws
    (container_id failed_command error_message : string) (w : World) (e : thrown)
    (st1 : St World) :
  computeFix World spawn regExpReplace container_id failed_command error_message
    (initial World failed_command w) = (inr e, st1) ->
  fst (shell_fix_command World spawn regExpReplace container_id failed_command
         error_message w)
  = {| original_command := failed_command; fixed_command := None;
       fix_strategy := None; success := false; output := None;
       error := Some (message_or "Error desconocido" e) |}.
Proof.
  intros Hfix. unfold shell_fix_command, tryBody. unfold bind at 1. now rewrite Hfix.
Qed.

(** The defect behind C5: when the container of the request exists, the
    callback reports success for the repaired command whatever its exit
    status, because the executor it calls does not throw. *)
Lemma shell_fix_success_ignores_exit_status
    (container_id failed_command error_message : string) (w : World) (st1 : St World) :
  computeFix World spawn regExpReplace container_id failed_command error_message
    (initial World failed_command w) = (inl tt, st1) ->
  truthy container_id = true ->
  Executor.containerExists World spawn container_id (world st1) = true ->
  success (fst (shell_fix_command World spawn regExpReplace container_id
                  failed_command error_message w)) = true.
Proof.
  intros Hfix Hid Hex. rewrite (shell_fix_after_rewriting _ _ _ _ _ Hfix).
  destruct (executeCommand_returns_text World spawn container_id
              (commandParts (fixedCommand st1)) (world st1) Hid Hex) as [text Ht].
  now rewrite Ht.
Qed.
End Outcomes.

(** C5, at a failing input: the command [cat notes.txt] failed with "No
    such file or directory"; the searches find no such file, so the same
    command is run a second time and exits with status 1 again. The
    callback reports [success = true], with the error text of the second
    run as its output. *)
Lemma C5_second_failure_reported_as_success :
  fst (shell_fix_command unit Scenario.failingHost Scenario.noRegExp
         "c1" "cat notes.txt" "cat: notes.txt: No such file or directory" tt)
  = {| original_command := "cat notes.txt";
       fixed_command := Some "cat notes.txt";
       fix_strategy := Some "file_not_found";
       success := true;
       output := Some "cat: notes.txt: No such file or directory";
       error := None |}
  /\ Executor.success
       (body (fst (Executor.POST unit Scenario.failingHost "c1" ["cat"; "notes.txt"] tt)))
     = Some false.
Proof.
  split; reflexivity.
Qed.

End RepairSpec.

(* ===================================================================== *)
(** ** Properties of the pool reconciler *)
(* ===================================================================== *)

Module PoolSpec.
Import JS Host Eff Routes Pool.

Section Sorting.
Variable dateTime : string -> option Z.

(** [newest] is listed, every listed record has a valid creation time, and
    every other one is strictly older. *)
Definition strictlyNewest (newest : ContainerInfo) (l : list ContainerInfo) : Prop :=
  In newest l
  /\ exists tn, instant dateTime newest = Some tn
       /\ forall c, In c l ->
            c = newest \/ exists t, instant dateTime c = Some t /\ (t < tn)%Z.

Lemma insertSorted_In (x c : ContainerInfo) (l : list ContainerInfo) :
  In c (insertSorted dateTime x l) <-> c = x \/ In c l.
Proof.
  induction l as [|y t IH]; simpl.
  - intuition.
  - destruct (compareCreated dateTime x y <=? 0)%Z; simpl; [intuition|].
    rewrite IH. intuition.
Qed.

Lemma sortByCreated_In (c : ContainerInfo) (l : list ContainerInfo) :
  In c (sortByCreated dateTime l) <-> In c l.
Proof.
  induction l as [|x t IH]; simpl; [tauto|].
  rewrite insertSorted_In, IH. intuition.
Qed.

Lemma compare_newest_first (newest y : ContainerInfo) (tn : Z) :
  instant dateTime newest = Some tn ->
  (y = newest \/ exists t, instant dateTime y = Some t /\ (t < tn)%Z) ->
  (compareCreated dateTime newest y <=? 0)%Z = true.
Proof.
  intros Hn [->|[t [Ht Hlt]]]; unfold compareCreated.
  - rewrite Hn. apply Z.leb_le. lia.
  - rewrite Hn, Ht. apply Z.leb_le. lia.
Qed.

(** Sorting puts the strictly newest record first. *)
Lemma sortByCreated_head (newest : ContainerInfo) (l : list ContainerInfo) :
  strictlyNewest newest l ->
  exists rest, sortByCreated dateTime l = newest :: rest.
Proof.
  induction l as [|x t IH]; intros [Hin [tn [Hn Hall]]]; [destruct Hin|].
  simpl. destruct Hin as [->|Hin].
  - destruct (sortByCreated dateTime t) as [|y s] eqn:E; simpl; [eauto|].
    assert (Hy : In y t) by (apply sortByCreated_In; rewrite E; now left).
    rewrite (compare_newest_first newest y tn Hn (Hall y (or_intror Hy))). eauto.
  - destruct IH as [rest Hrest].
    { split; [exact Hin|]. exists tn. split; [exact Hn|].
      intros c Hc. apply Hall. now right. }
    rewrite Hrest. simpl.
    destruct (Hall x (or_introl eq_refl)) as [->|[tx [Hx Hlt]]].
    + rewrite (compare_newest_first newest newest tn Hn (or_introl eq_refl)). eauto.
    + unfold compareCreated. rewrite Hx, Hn.
      destruct (tn - tx <=? 0)%Z eqn:E; [apply Z.leb_le in E; lia | eauto].
Qed.
End Sorting.

(** The ids a cleanup that keeps [keep] asks to remove, in listing order. *)
Definition others (keep : string) (l : list ContainerInfo) : list string :=
  List.filter (fun i => negb (String.eqb i keep)) (map id l).

Lemma others_excludes_keep (keep : string) (l : list ContainerInfo) :
  ~ In keep (others keep l).
Proof.
  unfold others. intros H. apply filter_In in H as [_ H].
  now rewrite String.eqb_refl in H.
Qed.

Section Service.
Variable World : Type.
Variable spawn : string -> World -> ProcResult * World.
Variable now : World -> Z.
Variable toISOString : Z -> string.
Variable firstOfParsed : string -> bool.
Variable writeDockerfile : World -> option thrown * World.
Variable dateTime : string -> option Z.

Local Abbreviation Svc := (M (St World)).
Local Abbreviation getAll := (getAllContainers World spawn).
Local Abbreviation remove := (removeContainer World spawn).
Local Abbreviation cleanup := (forceCleanupExceptLatest World spawn).
Local Abbreviation create :=
  (createContainer World spawn now toISOString firstOfParsed).
Local Abbreviation getAvailable :=
  (getAvailableContainer World spawn now toISOString firstOfParsed writeDockerfile dateTime).
Local Abbreviation listing := (GET_containers World spawn).

(** Recording a listing in the pool. *)
Definition recorded (l : list ContainerInfo) (pool : gmap string ContainerInfo)
    : gmap string ContainerInfo :=
  fold_left (fun p c => <[id c := c]> p) l pool.

Lemma recorded_keeps (l : list ContainerInfo) (pool : gmap string ContainerInfo)
    (k : string) :
  is_Some (pool !! k) -> is_Some (recorded l pool !! k).
Proof.
  revert pool. induction l as [|c t IH]; intros pool H; simpl; [exact H|].
  apply IH. destruct (decide (id c = k)) as [->|Hne].
  - rewrite lookup_insert_eq. eauto.
  - now rewrite lookup_insert_ne.
Qed.

Lemma recorded_has (l : list ContainerInfo) (pool : gmap string ContainerInfo)
    (c : ContainerInfo) :
  In c l -> is_Some (recorded l pool !! id c).
Proof.
  revert pool. induction l as [|x t IH]; intros pool Hin; [destruct Hin|].
  simpl. destruct Hin as [->|Hin]; [|now apply IH].
  apply recorded_keeps. rewrite lookup_insert_eq. eauto.
Qed.

Lemma forEach_poolSet (l : list ContainerInfo) (st : St World) :
  forEach (poolSet World) l st
  = (inl tt, mkSt (world st) (recorded l (containerPool st)) (isInitialized st)
               (initPromise st) (requests st)).
Proof.
  revert st. induction l as [|c t IH]; intros st; simpl.
  - destruct st; reflexivity.
  - unfold bind, poolSet at 1. rewrite IH. reflexivity.
Qed.

(** A listing that succeeds is returned, recorded and journalled. *)
Lemma getAllContainers_listed (st : St World) (l : list ContainerInfo) (w' : World) :
  listing (world st) = (mkResponse 200 (inl l), w') ->
  getAll st
  = (inl l, mkSt w' (recorded l (containerPool st)) (isInitialized st)
              (initPromise st) (requests st ++ [ReqList])).
Proof.
  intros H. unfold getAllContainers, bind, fetch. rewrite H. cbn.
  rewrite forEach_poolSet. reflexivity.
Qed.

(** A removal of a recorded container sends exactly one request, whatever
    the answer, and touches the pool at that id only. *)
Lemma removeContainer_recorded (i : string) (st : St World) :
  is_Some (containerPool st !! i) ->
  exists r st', remove i st = (r, st')
    /\ requests st' = requests st ++ [ReqDelete i]
    /\ (forall k, k <> i -> containerPool st' !! k = containerPool st !! k).
Proof.
  intros [c Hc]. unfold removeContainer, bind, poolGet, fetch. rewrite Hc.
  destruct (DELETE_container World spawn i (world st)) as [response w'].
  destruct (ok response); cbn.
  - do 2 eexists. split; [reflexivity|]. cbn. split; [reflexivity|].
    intros k Hk. now rewrite lookup_delete_ne.
  - do 2 eexists. split; [reflexivity|]. cbn. auto.
Qed.

(** The loop of the cleanup: every listed container other than the kept
    one gets its removal request, in order, whether or not earlier
    removals failed. *)
Lemma cleanup_loop (keep : string) (l : list ContainerInfo) (st : St World) :
  NoDup (map id l) ->
  (forall c, In c l -> is_Some (containerPool st !! id c)) ->
  exists st',
    forEach
      (fun container =>
         if negb (String.eqb (id container) keep) then
           tryCatch (remove (id container)) (fun _ => ret tt)
         else ret tt) l st = (inl tt, st')
    /\ requests st' = requests st ++ map ReqDelete (others keep l).
Proof.
  revert st. induction l as [|c t IH]; intros st Hnd Hpool.
  - exists st. split; [reflexivity|]. cbn. now rewrite app_nil_r.
  - cbn [map] in Hnd. apply NoDup_cons in Hnd as [Hnotin Hnd].
    cbn [forEach]. unfold bind at 1. unfold others. cbn [map List.filter].
    destruct (negb (String.eqb (id c) keep)) eqn:Hk.
    + destruct (removeContainer_recorded (id c) st (Hpool c (or_introl eq_refl)))
        as [r [st1 [Hrun [Hreq Hkeep]]]].
      unfold tryCatch. rewrite Hrun.
      assert (Hpool1 : forall c', In c' t -> is_Some (containerPool st1 !! id c')).
      { intros c' Hc'. rewrite Hkeep; [apply Hpool; now right|].
        intros Heq. apply Hnotin. rewrite <- Heq.
        apply list_elem_of_In. now apply in_map. }
      destruct r as [[]|e]; cbn.
      * destruct (IH st1 Hnd Hpool1) as [st' [Hloop Hreq']].
        exists st'. split; [exact Hloop|].
        rewrite Hreq', Hreq. unfold others. now rewrite <- app_assoc.
      * destruct (IH st1 Hnd Hpool1) as [st' [Hloop Hreq']].
        exists st'. split; [exact Hloop|].
        rewrite Hreq', Hreq. unfold others. now rewrite <- app_assoc.
    + cbn. apply IH; [exact Hnd|]. intros c' Hc'. apply Hpool. now right.
Qed.

(** A cleanup whose listing succeeds answers [true] after one listing and
    one removal request per container other than the kept one. *)
Lemma cleanup_journal (keep : string) (st : St World)
    (discovered : list ContainerInfo) (w' : World) :
  listing (world st) = (mkResponse 200 (inl discovered), w') ->
  NoDup (map id discovered) ->
  exists st',
    cleanup keep st = (inl true, st')
    /\ requests st' = requests st ++ [ReqList] ++ map ReqDelete (others keep discovered).
Proof.
  intros Hlist Hnd. unfold forceCleanupExceptLatest. unfold tryCatch at 1.
  unfold bind at 1.
  rewrite (getAllContainers_listed st discovered w' Hlist).
  set (st1 := mkSt w' _ _ _ _).
  destruct (cleanup_loop keep discovered st1 Hnd) as [st' [Hloop Hreq]].
  { intros c Hc. apply recorded_has. exact Hc. }
  cbn beta iota. unfold bind at 1. rewrite Hloop. cbn.
  exists st'. split; [reflexivity|].
  rewrite Hreq. subst st1. cbn. now rewrite <- app_assoc.
Qed.

(** A cleanup never throws. *)
Lemma cleanup_total (keep : string) (st : St World) :
  exists b st', cleanup keep st = (inl b, st').
Proof.
  unfold forceCleanupExceptLatest. unfold tryCatch at 1.
  destruct (bind _ _ st) as [[b|e] st']; cbn; eauto.
Qed.

(** Every operation of the service only adds to its journal. *)
Definition extends {A} (m : Svc A) : Prop :=
  forall st r st', m st = (r, st') -> exists more, requests st' = requests st ++ more.

Lemma extends_ret {A} (a : A) : extends (ret a).
Proof. intros st r st' H. inversion H. exists []. now rewrite app_nil_r. Qed.

Lemma extends_throw {A} (e : thrown) : extends (@throw (St World) A e).
Proof. intros st r st' H. inversion H. exists []. now rewrite app_nil_r. Qed.

Lemma extends_bind {A B} (m : Svc A) (k : A -> Svc B) :
  extends m -> (forall a, extends (k a)) -> extends (bind m k).
Proof.
  intros Hm Hk st r st' H. unfold bind in H.
  destruct (m st) as [[a|e] s1] eqn:E.
  - destruct (Hm _ _ _ E) as [l1 H1]. destruct (Hk a _ _ _ H) as [l2 H2].
    exists (l1 ++ l2). now rewrite H2, H1, app_assoc.
  - inversion H; subst. exact (Hm _ _ _ E).
Qed.

Lemma extends_tryCatch {A} (m : Svc A) (h : thrown -> Svc A) :
  extends m -> (forall e, extends (h e)) -> extends (tryCatch m h).
Proof.
  intros Hm Hh st r st' H. unfold tryCatch in H.
  destruct (m st) as [[a|e] s1] eqn:E.
  - inversion H; subst. exact (Hm _ _ _ E).
  - destruct (Hm _ _ _ E) as [l1 H1]. destruct (Hh e _ _ _ H) as [l2 H2].
    exists (l1 ++ l2). now rewrite H2, H1, app_assoc.
Qed.

Lemma extends_fetch {B} (req : Request) (handler : World -> Response B * World) :
  extends (fetch World req handler).
Proof.
  intros st r st' H. unfold fetch in H. destruct (handler (world st)).
  inversion H. cbn. eauto.
Qed.

Lemma extends_poolSet (c : ContainerInfo) : extends (poolSet World c).
Proof. intros st r st' H. inversion H. exists []. cbn. now rewrite app_nil_r. Qed.

Lemma extends_poolDelete (i : string) : extends (poolDelete World i).
Proof. intros st r st' H. inversion H. exists []. cbn. now rewrite app_nil_r. Qed.

Lemma extends_poolGet (i : string) : extends (poolGet World i).
Proof. intros st r st' H. inversion H. exists []. now rewrite app_nil_r. Qed.

Lemma extends_forEach {A} (f : A -> Svc unit) (l : list A) :
  (forall a, extends (f a)) -> extends (forEach f l).
Proof.
  intros Hf. induction l as [|a t IH]; cbn [forEach].
  - apply extends_ret.
  - apply extends_bind; [apply Hf | intros; exact IH].
Qed.

Lemma extends_getAll : extends getAll.
Proof.
  unfold getAllContainers. apply extends_bind; [apply extends_fetch|].
  intros response. destruct (body response); [|apply extends_throw].
  destruct (ok response); [|apply extends_throw].
  apply extends_bind; [|intros; apply extends_ret].
  apply extends_forEach. apply extends_poolSet.
Qed.

Lemma extends_remove (i : string) : extends (remove i).
Proof.
  unfold removeContainer. apply extends_bind; [apply extends_poolGet|].
  intros [c|]; [|apply extends_throw].
  apply extends_bind; [apply extends_fetch|].
  intros response. destruct (negb (ok response));
    [apply extends_throw | apply extends_poolDelete].
Qed.

Lemma extends_cleanup (keep : string) : extends (cleanup keep).
Proof.
  unfold forceCleanupExceptLatest. apply extends_tryCatch; [|intros; apply extends_ret].
  apply extends_bind; [apply extends_getAll|]. intros l.
  apply extends_bind; [|intros; apply extends_ret].
  apply extends_forEach. intros c.
  destruct (negb _); [|apply extends_ret].
  apply extends_tryCatch; [apply extends_remove | intros; apply extends_ret].
Qed.

(** A creation starts with its request; whatever follows comes after. *)
Lemma create_journal (config : option DockerContainerConfig) (found : nat)
    (st : St World) r st' :
  create config found st = (r, st') ->
  exists more, requests st'
               = requests st ++ ReqCreate (default defaultConfig config) :: more.
Proof.
  unfold createContainer. unfold bind at 1. unfold fetch at 1.
  destruct (POST_container World spawn now toISOString firstOfParsed _ (world st))
    as [response w'].
  set (st1 := mkSt w' _ _ _ _).
  intros H.
  assert (Hext : exists more, requests st' = requests st1 ++ more).
  { revert H. generalize st1. clear st1. intros st1 H.
    destruct (body response) as [info|err].
    - destruct (ok response).
      + revert H. apply extends_bind; [apply extends_poolSet|]. intros _.
        apply extends_bind; [|intros; apply extends_ret].
        destruct (0 <? found)%nat; [|apply extends_ret].
        apply extends_bind; [apply extends_cleanup | intros; apply extends_ret].
      + revert H. apply extends_throw.
    - revert H. apply extends_throw. }
  destruct Hext as [more Hmore]. exists more.
  rewrite Hmore. subst st1. cbn. now rewrite <- app_assoc.
Qed.

(** A creation that succeeds after a listing that was not empty: the new
    container is recorded, and a cleanup follows that lists the containers
    again and requests the removal of every one of them but the new one. *)
Lemma create_supersedes (config : option DockerContainerConfig) (found : nat)
    (st : St World) (made : ContainerInfo) (discovered : list ContainerInfo)
    (w3 w4 : World) :
  POST_container World spawn now toISOString firstOfParsed
    (default defaultConfig config) (world st) = (mkResponse 200 (inl made), w3) ->
  0 < found ->
  listing w3 = (mkResponse 200 (inl discovered), w4) ->
  NoDup (map id discovered) ->
  exists st',
    create config found st = (inl made, st')
    /\ requests st'
       = requests st ++ [ReqCreate (default defaultConfig config); ReqList]
         ++ map ReqDelete (others (id made) discovered).
Proof.
  intros Hpost Hfound Hlist Hnd.
  unfold createContainer. unfold bind at 1. unfold fetch at 1. rewrite Hpost.
  cbn [Host.body]. unfold ok. cbn [Host.status].
  change ((200 <=? 200)%nat && (200 <? 300)%nat) with true. cbv iota.
  unfold bind at 1. unfold poolSet at 1.
  destruct found as [|n]; [lia|]. cbn [Nat.ltb Nat.leb].
  unfold bind at 1. unfold bind at 1.
  cbn [world containerPool isInitialized initPromise requests].
  match goal with
  | |- context [forceCleanupExceptLatest World spawn (id made) ?s] =>
      destruct (cleanup_journal (id made) s discovered w4 Hlist Hnd)
        as [st' [Hclean Hreq]]
  end.
  rewrite Hclean. cbn. exists st'. split; [reflexivity|].
  rewrite Hreq. cbn. now rewrite <- app_assoc.
Qed.

Lemma others_has (keep : string) (c : ContainerInfo) (l : list ContainerInfo) :
  In c l -> id c <> keep -> In (id c) (others keep l).
Proof.
  intros Hin Hne. unfold others. apply filter_In. split.
  - apply in_map. exact Hin.
  - apply negb_true_iff. now apply String.eqb_neq.
Qed.

(** C1 (amended): on an initialised service whose listing shows two or
    more containers, one of them strictly the newest, the reconciler takes
    that newest container as the one to keep and, once the cleanup has
    listed the containers again, sends a removal request for every listed
    container other than it, one after the other and whatever the answers
    to the earlier requests were; none is sent for the newest. When the
    newest is running and its image is acceptable, it is what the call
    returns and nothing else is sent. Otherwise the call goes on with a
    creation request. When that creation succeeds, the new container is what
    the call returns, and a second cleanup lists the containers once more
    and sends a removal request for every container listed then other than
    the new one: the former newest, when it is still listed, is among
    them. *)
Theorem C1_newest_kept_others_removed
    (config : option DockerContainerConfig) (st : St World)
    (containers discovered : list ContainerInfo) (newest : ContainerInfo)
    (w1 w2 : World) :
  isInitialized st = true ->
  listing (world st) = (mkResponse 200 (inl containers), w1) ->
  2 <= length containers ->
  PoolSpec.strictlyNewest dateTime newest containers ->
  listing w1 = (mkResponse 200 (inl discovered), w2) ->
  NoDup (map id discovered) ->
  exists more,
    requests (snd (getAvailable config st))
    = requests st ++ [ReqList; ReqList]
      ++ map ReqDelete (others (id newest) discovered) ++ more
    /\ ~ In (id newest) (others (id newest) discovered)
    /\ (reusable config newest = true ->
          fst (getAvailable config st) = inl newest /\ more = [])
    /\ (reusable config newest = false ->
          (exists more', more = ReqCreate (default defaultConfig config) :: more')
          /\ forall (made : ContainerInfo) (listedThen : list ContainerInfo)
                    (w3 w4 : World),
               POST_container World spawn now toISOString firstOfParsed
                 (default defaultConfig config)
                 (world (snd (cleanup (id newest) (snd (getAll st)))))
               = (mkResponse 200 (inl made), w3) ->
               listing w3 = (mkResponse 200 (inl listedThen), w4) ->
               NoDup (map id listedThen) ->
               fst (getAvailable config st) = inl made
               /\ more = [ReqCreate (default defaultConfig config); ReqList]
                         ++ map ReqDelete (others (id made) listedThen)
               /\ (In newest listedThen -> id newest <> id made ->
                   In (ReqDelete (id newest)) more)).
Proof.
  intros Hinit Hlist Hlen Hnewest Hlist2 Hnd.
  destruct (sortByCreated_head dateTime newest containers Hnewest) as [rest Hsort].
  destruct (getAvailable config st) as [result st'] eqn:Hrun. cbn [fst snd].
  unfold getAvailableContainer in Hrun. unfold bind at 1 in Hrun.
  unfold ensureInitialized in Hrun. rewrite Hinit in Hrun. unfold bind at 1 in Hrun.
  rewrite (getAllContainers_listed st containers w1 Hlist) in Hrun.
  rewrite (getAllContainers_listed st containers w1 Hlist). cbn [snd].
  set (st1 := mkSt w1 _ _ _ _) in *.
  replace (1 <? length containers)%nat with true in Hrun
    by (symmetry; apply Nat.ltb_lt; lia).
  rewrite Hsort in Hrun. unfold bind at 1 in Hrun.
  destruct (cleanup_journal (id newest) st1 discovered w2 Hlist2 Hnd)
    as [st2 [Hclean Hreq]].
  rewrite Hclean in Hrun. rewrite Hclean. cbn [snd].
  assert (Hreq2 : requests st2
                  = requests st ++ [ReqList; ReqList]
                    ++ map ReqDelete (others (id newest) discovered)).
  { rewrite Hreq. subst st1. cbn. now rewrite <- app_assoc. }
  destruct (reusable config newest) eqn:Hre.
  - inversion Hrun; subst result st'. exists []. rewrite app_nil_r.
    split; [exact Hreq2|]. split; [apply others_excludes_keep|].
    split; [auto | discriminate].
  - destruct (create_journal config _ st2 result st' Hrun) as [more' Hmore].
    exists (ReqCreate (default defaultConfig config) :: more').
    split; [rewrite Hmore, Hreq2; now rewrite <- !app_assoc|].
    split; [apply others_excludes_keep|].
    split; [discriminate|]. intros _. split; [eauto|].
    intros made listedThen w3 w4 Hpost Hlist3 Hnd3.
    destruct (create_supersedes config (length containers) st2 made listedThen w3 w4
                Hpost ltac:(lia) Hlist3 Hnd3) as [st'' [Hcreate Hreq3]].
    rewrite Hcreate in Hrun. inversion Hrun; subst result st''.
    rewrite Hreq3 in Hmore.
    apply app_inv_head in Hmore. 
    split; [reflexivity|]. split; [symmetry; exact Hmore|].
    intros Hin Hne. inversion Hmore as [Hm]. right. right.
    apply in_map. now apply others_has.
Qed.

(** What a first call on an empty registry does. *)
Lemma first_call_creates (config : option DockerContainerConfig) (st : St World)
    (made : ContainerInfo) (w1 w2 : World) :
  isInitialized st = true ->
  listing (world st) = (mkResponse 200 (inl []), w1) ->
  POST_container World spawn now toISOString firstOfParsed
    (default defaultConfig config) w1 = (mkResponse 200 (inl made), w2) ->
  getAvailable config st
  = (inl made,
     mkSt w2 (<[id made := made]> (containerPool st)) true (initPromise st)
       (requests st ++ [ReqList; ReqCreate (default defaultConfig config)])).
Proof.
  intros Hinit Hlist Hpost.
  unfold getAvailableContainer. unfold bind at 1. unfold ensureInitialized.
  rewrite Hinit. unfold bind at 1.
  rewrite (getAllContainers_listed st [] w1 Hlist). cbn [length Nat.ltb Nat.leb].
  unfold createContainer, bind, fetch. cbn [world]. rewrite Hpost. cbn.
  rewrite Hinit, <- app_assoc. reflexivity.
Qed.

(** What a call does when the listing shows one reusable container. *)
Lemma single_reusable_returned (config : option DockerContainerConfig) (st : St World)
    (found : ContainerInfo) (w' : World) :
  isInitialized st = true ->
  listing (world st) = (mkResponse 200 (inl [found]), w') ->
  reusable config found = true ->
  getAvailable config st
  = (inl found,
     mkSt w' (<[id found := found]> (containerPool st)) true (initPromise st)
       (requests st ++ [ReqList])).
Proof.
  intros Hinit Hlist Hre.
  unfold getAvailableContainer. unfold bind at 1. unfold ensureInitialized.
  rewrite Hinit. unfold bind at 1.
  rewrite (getAllContainers_listed st [found] w' Hlist). cbn [length Nat.ltb Nat.leb].
  rewrite Hre. cbn. rewrite Hinit. reflexivity.
Qed.

Local Abbreviation serverGetAvailable :=
  (serverGetAvailableContainer World spawn now toISOString writeDockerfile).

(** C2 (amended): on an initialised service whose listing is empty, the
    first call sends exactly one creation request and returns the container
    created; when the listing that follows shows that container (same id)
    as running with the image the configuration names, a second call with
    the same configuration sends no creation request and returns it. The
    server-side service behaves alike: its first call creates one container
    through the initialization endpoint, and its second call returns the
    first container listed. That the listing shows the container is a
    condition: the list endpoint only shows containers whose name or image
    contains "codeai". *)
Theorem C2_created_once_then_reused
    (config : option DockerContainerConfig) (st : St World) :
  (forall (made found : ContainerInfo) (w1 w2 w3 : World),
     isInitialized st = true ->
     listing (world st) = (mkResponse 200 (inl []), w1) ->
     POST_container World spawn now toISOString firstOfParsed
       (default defaultConfig config) w1 = (mkResponse 200 (inl made), w2) ->
     listing w2 = (mkResponse 200 (inl [found]), w3) ->
     id found = id made ->
     reusable config found = true ->
     let first := getAvailable config st in
     let second := getAvailable config (snd first) in
     fst first = inl made
     /\ requests (snd first)
        = requests st ++ [ReqList; ReqCreate (default defaultConfig config)]
     /\ fst second = inl found
     /\ requests (snd second) = requests (snd first) ++ [ReqList])
  /\ (forall (data : InitBody) (found : ContainerInfo) (rest : list ContainerInfo)
            (w1 w2 w3 : World),
       listing (world st) = (mkResponse 200 (inl []), w1) ->
       POST_initialize World spawn now toISOString writeDockerfile w1
       = (mkResponse 200 (inl data), w2) ->
       listing w2 = (mkResponse 200 (inl (found :: rest)), w3) ->
       id found = id (init_container data) ->
       let first := serverGetAvailable config st in
       let second := serverGetAvailable config (snd first) in
       fst first = inl (init_container data)
       /\ requests (snd first) = requests st ++ [ReqList; ReqInitialize]
       /\ fst second = inl found
       /\ requests (snd second) = requests (snd first) ++ [ReqList]).
Proof.
  split.
  - intros made found w1 w2 w3 Hinit Hlist Hpost Hlist2 Hid Hre first second.
    subst second first.
    rewrite (first_call_creates config st made w1 w2 Hinit Hlist Hpost). cbn [fst snd].
    set (st1 := mkSt w2 _ _ _ _).
    rewrite (single_reusable_returned config st1 found w3 eq_refl Hlist2 Hre).
    subst st1. cbn [fst snd requests]. auto.
  - intros data found rest w1 w2 w3 Hlist Hpost Hlist2 Hid first second.
    subst second first.
    assert (Hfirst : serverGetAvailable config st
                     = (inl (init_container data),
                        mkSt w2 (containerPool st) (isInitialized st) (initPromise st)
                          (requests st ++ [ReqList; ReqInitialize]))).
    { unfold serverGetAvailableContainer, bind, fetch. rewrite Hlist. cbn.
      rewrite Hpost. cbn. now rewrite <- app_assoc. }
    rewrite Hfirst. cbn [fst snd].
    unfold serverGetAvailableContainer, bind, fetch. cbn [world]. rewrite Hlist2. cbn.
    auto.
Qed.

End Service.

Import Scenario.

Lemma threeRunning_newest :
  strictlyNewest readInstant (listed t3) [listed t3; listed t2; listed t1].
Proof.
  split; [now left|]. exists 3000%Z. split; [reflexivity|].
  intros c [<-|[<-|[<-|[]]]]; [now left | right | right].
  - exists 2000%Z. split; [reflexivity | lia].
  - exists 1000%Z. split; [reflexivity | lia].
Qed.

Lemma threeRunning_ids_distinct :
  NoDup (map id [listed t3; listed t2; listed t1]).
Proof.
  apply NoDup_ListNoDup. cbn. repeat constructor; cbn; intuition discriminate.
Qed.

Lemma newestExited_newest :
  strictlyNewest readInstant (listed t3exited)
    [listed t3exited; listed t2; listed t1].
Proof.
  split; [now left|]. exists 3000%Z. split; [reflexivity|].
  intros c [<-|[<-|[<-|[]]]]; [now left | right | right].
  - exists 2000%Z. split; [reflexivity | lia].
  - exists 1000%Z. split; [reflexivity | lia].
Qed.

(** The container made on the second registry once [t2] is gone, and the
    listing after its creation. *)
Definition secondMade : ContainerInfo :=
  mkContainerInfo "box0" "codeai-container-5007" defaultImage "running" None
    (Some "5014") (Some []).

Definition listedThen : list ContainerInfo :=
  [listed (mkBox "box0" "codeai-container-5007" defaultImage "Up 1 second" 5007 false);
   listed t3exited; listed t1].

Lemma listedThen_ids_distinct : NoDup (map id listedThen).
Proof.
  apply NoDup_ListNoDup. cbn. repeat constructor; cbn; intuition discriminate.
Qed.

Definition afterFirstCleanup : Dock :=
  world (snd (forceCleanupExceptLatest Dock runtime "t3"
                (snd (getAllContainers Dock runtime (service newestExited))))).

Definition afterCreation : Dock :=
  snd (POST_container Dock runtime runtimeNow printInstant parsesToArray
         defaultConfig afterFirstCleanup).

Lemma C1_newest_kept_others_removed_witness :
  (fst (getAvailable None (service threeRunning)) = inl (listed t3)
   /\ requests (snd (getAvailable None (service threeRunning)))
      = [ReqList; ReqList; ReqDelete "t2"; ReqDelete "t1"])
  /\ (fst (getAvailable None (service newestExited)) = inl secondMade
      /\ requests (snd (getAvailable None (service newestExited)))
         = [ReqList; ReqList; ReqDelete "t2"; ReqDelete "t1";
            ReqCreate defaultConfig; ReqList; ReqDelete "t3"; ReqDelete "t1"]).
Proof.
  split.
  - destruct (C1_newest_kept_others_removed Dock runtime runtimeNow printInstant
                parsesToArray noDockerfile readInstant None (service threeRunning)
                [listed t3; listed t2; listed t1] [listed t3; listed t2; listed t1]
                (listed t3)
                (snd (GET_containers Dock runtime threeRunning))
                (snd (GET_containers Dock runtime
                        (snd (GET_containers Dock runtime threeRunning))))
                eq_refl eq_refl (le_S _ _ (le_n 2)) threeRunning_newest eq_refl
                threeRunning_ids_distinct)
      as [more [Hreq [_ [Hre _]]]].
    destruct (Hre eq_refl) as [Hfst Hmore]. split; [exact Hfst|].
    unfold getAvailable. rewrite Hreq, Hmore. reflexivity.
  - destruct (C1_newest_kept_others_removed Dock runtime runtimeNow printInstant
                parsesToArray noDockerfile readInstant None (service newestExited)
                [listed t3exited; listed t2; listed t1]
                [listed t3exited; listed t2; listed t1]
                (listed t3exited)
                (snd (GET_containers Dock runtime newestExited))
                (snd (GET_containers Dock runtime
                        (snd (GET_containers Dock runtime newestExited))))
                eq_refl eq_refl (le_S _ _ (le_n 2)) newestExited_newest eq_refl
                threeRunning_ids_distinct)
      as [more [Hreq [_ [_ Hno]]]].
    destruct (Hno eq_refl) as [_ Hall].
    destruct (Hall secondMade listedThen afterCreation
                (snd (GET_containers Dock runtime afterCreation))
                eq_refl eq_refl listedThen_ids_distinct)
      as [Hfst [Hmore _]].
    split; [exact Hfst|].
    unfold getAvailable. rewrite Hreq, Hmore. reflexivity.
Defined.

(** C1, as stated, fails when the newest container is not running: the
    removals of T1 and T2 are attempted (the one of T1 fails), and then a
    new container is created and the removal of T3 is requested as well. *)
Lemma C1_counterexample :
  requests (snd (getAvailable None (service newestExited)))
  = [ReqList; ReqList; ReqDelete "t2"; ReqDelete "t1";
     ReqCreate defaultConfig; ReqList; ReqDelete "t3"; ReqDelete "t1"]
  /\ map bx_id (boxes (world (snd (getAvailable None (service newestExited)))))
     = ["box0"; "t1"].
Proof.
  split; vm_compute; reflexivity.
Qed.

(** The container the first call creates on the empty runtime, as the
    creation answers it and as the listing shows it afterwards. *)
Definition firstMade : ContainerInfo :=
  mkContainerInfo "box0" "codeai-container-5001" defaultImage "running" None
    (Some "5008") (Some []).

Definition firstListed : ContainerInfo :=
  listed (mkBox "box0" "codeai-container-5001" defaultImage "Up 1 second" 5001 false).

Lemma C2_created_once_then_reused_witness :
  fst (getAvailable None (service emptyDock)) = inl firstMade
  /\ fst (getAvailable None (snd (getAvailable None (service emptyDock))))
     = inl firstListed
  /\ requests (snd (getAvailable None (snd (getAvailable None (service emptyDock)))))
     = [ReqList; ReqCreate defaultConfig; ReqList].
Proof.
  pose (w1 := snd (GET_containers Dock runtime emptyDock)).
  pose (w2 := snd (POST_container Dock runtime runtimeNow printInstant parsesToArray
                     defaultConfig w1)).
  pose (w3 := snd (GET_containers Dock runtime w2)).
  destruct (proj1 (C2_created_once_then_reused Dock runtime runtimeNow printInstant
                     parsesToArray noDockerfile readInstant None (service emptyDock))
              firstMade firstListed w1 w2 w3 eq_refl
              ltac:(vm_compute; reflexivity) ltac:(vm_compute; reflexivity)
              ltac:(vm_compute; reflexivity) eq_refl eq_refl)
    as [H1 [H2 [H3 H4]]].
  unfold getAvailable. split; [exact H1|]. split; [exact H3|].
  rewrite H4, H2. reflexivity.
Defined.

(** C2, as stated, fails for a configuration whose container the list
    endpoint does not show: the first call creates the container [web];
    the second call does not see it, asks for a second creation, and ends
    with the error of that creation instead of returning the container. *)
Lemma C2_counterexample :
  option_map name (match fst (getAvailable (Some webConfig) (service emptyDock)) with
                   | inl c => Some c
                   | inr _ => None
                   end) = Some "web"
  /\ fst (getAvailable (Some webConfig)
            (snd (getAvailable (Some webConfig) (service emptyDock))))
     = inr (ErrorObj "Error al crear contenedor: Internal Server Error" None)
  /\ requests (snd (getAvailable (Some webConfig)
                      (snd (getAvailable (Some webConfig) (service emptyDock)))))
     = [ReqList; ReqCreate webConfig; ReqList; ReqCreate webConfig].
Proof.
  repeat split; vm_compute; reflexivity.
Qed.

End PoolSpec.

(* ===================================================================== *)
(** ** Properties of the registry routes *)
(* ===================================================================== *)

Module RoutesSpec.
Import JS Host Eff Routes.

Lemma filterM_inl {A} (f : A -> bool + thrown) (l l' : list A) :
  filterM f l = inl l' -> forall x, In x l' -> In x l /\ f x = inl true.
Proof.
  revert l'. induction l as [|a t IH]; intros l' H x Hx; cbn in H.
  - inversion H; subst. destruct Hx.
  - destruct (f a) as [b|e] eqn:Ha; [|discriminate].
    destruct (filterM f t) as [ys|e]; [|discriminate].
    inversion H; subst. destruct b.
    + destruct Hx as [<-|Hx]; [split; [now left | exact Ha]|].
      destruct (IH ys eq_refl x Hx). split; [now right | assumption].
    + destruct (IH ys eq_refl x Hx). split; [now right | assumption].
Qed.

Section Journals.
Variable World : Type.
Variable spawn : string -> World -> ProcResult * World.

Local Abbreviation LWorld := (World * list string)%type.
Local Abbreviation lspawn := (logged spawn).

Lemma run_logged (cmd : string) (w : World) (j : list string) :
  run LWorld lspawn cmd (w, j)
  = (fst (run World spawn cmd w), (snd (run World spawn cmd w), j ++ [cmd])).
Proof. unfold run. apply ExecutorSpec.execSync_logged. Qed.

Lemma run_output (cmd out : string) (w w' : World) :
  run World spawn cmd w = (inl out, w') -> out = pr_stdout (fst (spawn cmd w)).
Proof.
  unfold run, execSync. destruct (spawn cmd w) as [r w1]. cbn.
  destruct (_ || _); [discriminate|]. destruct (pr_status r =? 0)%Z; [|discriminate].
  intros H. now inversion H.
Qed.

(** The containers a cleanup may touch in a world: those listed there
    whose name or image contains "codeai". *)
Definition listedBriefs (w : World) : list Brief :=
  map parseBrief (outputLines (pr_stdout (fst (spawn psBrief w)))).

Definition appId (w : World) (i : string) : Prop :=
  exists c, In c (listedBriefs w) /\ b_id c = i /\ briefIsApp c = inl true.

(** A command line that stops or removes application containers only. *)
Definition removalOfApp (w : World) (line : string) : Prop :=
  exists ids,
    (line = "docker stop " +:+ join " " ids \/ line = "docker rm " +:+ join " " ids)
    /\ forall i, In i ids -> appId w i.

Lemma removeEach_journal (P : string -> Prop) (containers : list Brief) :
  (forall c, In c containers ->
     P ("docker stop " +:+ b_id c) /\ P ("docker rm " +:+ b_id c)) ->
  forall (w : World) (j : list string),
  exists new,
    snd (snd (removeEach LWorld lspawn containers (w, j))) = j ++ new
    /\ forall line, In line new -> P line.
Proof.
  induction containers as [|c t IH]; intros HP w j.
  - exists []. cbn. rewrite app_nil_r. split; [reflexivity | intros ? []].
  - cbn [removeEach]. rewrite run_logged.
    destruct (HP c (or_introl eq_refl)) as [Pstop Prm].
    assert (HPt : forall c', In c' t ->
              P ("docker stop " +:+ b_id c') /\ P ("docker rm " +:+ b_id c'))
      by (intros; apply HP; now right).
    destruct (run World spawn ("docker stop " +:+ b_id c) w) as [[o|e] w1]; cbn [fst snd].
    + rewrite run_logged.
      destruct (run World spawn ("docker rm " +:+ b_id c) w1) as [[o2|e2] w2];
        cbn [fst snd];
        destruct (IH HPt w2 ((j ++ ["docker stop " +:+ b_id c])
                              ++ ["docker rm " +:+ b_id c])) as [new [Hnew HF]];
        destruct (removeEach LWorld lspawn t _) as [rs [w3 j3]]; cbn [fst snd] in *;
        exists (("docker stop " +:+ b_id c) :: ("docker rm " +:+ b_id c) :: new);
        (split; [rewrite Hnew, <- !app_assoc; reflexivity|]);
        intros line [<-|[<-|Hl]]; auto.
    + destruct (IH HPt w1 (j ++ ["docker stop " +:+ b_id c])) as [new [Hnew HF]].
      destruct (removeEach LWorld lspawn t _) as [rs [w3 j3]]. cbn [fst snd] in *.
      exists (("docker stop " +:+ b_id c) :: new).
      split; [rewrite Hnew, <- !app_assoc; reflexivity|].
      intros line [<-|Hl]; auto.
Qed.

Lemma single_id (i : string) : join " " [i] = i.
Proof. reflexivity. Qed.

(** The command lines of POST /api/docker/cleanup-others. *)
Definition cleanupOthersJournal (keepContainerId : string) (w : World) : list string :=
  snd (snd (POST_cleanup_others LWorld lspawn keepContainerId (w, []))).

(** The command lines of POST /api/docker/cleanup. *)
Definition cleanupJournal (w : World) : list string :=
  snd (snd (POST_cleanup LWorld lspawn (w, []))).

Definition harmless (w : World) (line : string) : Prop :=
  line = psBrief \/ removalOfApp w line.

Lemma each_harmless (w : World) (containers : list Brief) :
  (forall c, In c containers -> appId w (b_id c)) ->
  forall c, In c containers ->
    harmless w ("docker stop " +:+ b_id c) /\ harmless w ("docker rm " +:+ b_id c).
Proof.
  intros Happ c Hc. split; right; exists [b_id c]; rewrite single_id;
    (split; [auto|]); intros i [<-|[]]; now apply Happ.
Qed.

Lemma batch_harmless (w : World) (containers : list Brief) :
  (forall c, In c containers -> appId w (b_id c)) ->
  harmless w ("docker stop " +:+ join " " (map b_id containers))
  /\ harmless w ("docker rm " +:+ join " " (map b_id containers)).
Proof.
  intros Happ.
  assert (Hbatch : forall i, In i (map b_id containers) -> appId w i).
  { intros i Hi. apply in_map_iff in Hi as [c [<- Hc]]. now apply Happ. }
  split; right; exists (map b_id containers); auto.
Qed.

Lemma cleanupOthers_lines (keepContainerId : string) (w : World) :
  forall line, In line (cleanupOthersJournal keepContainerId w) -> harmless w line.
Proof.
  unfold cleanupOthersJournal, POST_cleanup_others.
  destruct (truthy keepContainerId); cbn [negb]; [|intros ? []].
  rewrite run_logged.
  destruct (run World spawn psBrief w) as [[output|e] w1] eqn:Hps; cbn [fst snd];
    [|intros line [<-|[]]; now left].
  pose proof (run_output _ _ _ _ Hps) as Hout.
  destruct (filterM (isOther keepContainerId) (map parseBrief (outputLines output)))
    as [containers|e] eqn:Hf; [|intros line [<-|[]]; now left].
  assert (Happ : forall c, In c containers -> appId w (b_id c)).
  { intros c Hc. destruct (filterM_inl _ _ _ Hf c Hc) as [Hin Hother].
    exists c. unfold listedBriefs. rewrite <- Hout. split; [exact Hin|].
    split; [reflexivity|]. unfold isOther in Hother.
    destruct (briefIsApp c) as [[]|]; [reflexivity | discriminate | discriminate]. }
  destruct containers as [|c0 cs]; [intros line [<-|[]]; now left|].
  set (containers := c0 :: cs) in *.
  destruct (batch_harmless w containers Happ) as [Hstop Hrm].
  pose proof (each_harmless w containers Happ) as Heach.
  cbv zeta. rewrite run_logged.
  destruct (run World spawn ("docker stop " +:+ join " " (map b_id containers)) w1)
    as [[o|e] w2]; cbn [fst snd].
  - rewrite run_logged.
    destruct (run World spawn ("docker rm " +:+ join " " (map b_id containers)) w2)
      as [[o2|e2] w3]; cbn [fst snd].
    + intros line [<-|[<-|[<-|[]]]]; [now left | exact Hstop | exact Hrm].
    + destruct (removeEach_journal _ containers Heach w3
                  ((([] ++ [psBrief]) ++ ["docker stop " +:+ join " " (map b_id containers)])
                   ++ ["docker rm " +:+ join " " (map b_id containers)]))
        as [new [Hnew HF]].
      destruct (removeEach LWorld lspawn containers _) as [rs [w4 j4]].
      cbn [fst snd] in *. rewrite Hnew.
      intros line Hl. apply in_app_or in Hl as [[<-|[<-|[<-|[]]]]|Hl];
        [now left | exact Hstop | exact Hrm | now apply HF].
  - destruct (removeEach_journal _ containers Heach w2
                (([] ++ [psBrief]) ++ ["docker stop " +:+ join " " (map b_id containers)]))
      as [new [Hnew HF]].
    destruct (removeEach LWorld lspawn containers _) as [rs [w4 j4]].
    cbn [fst snd] in *. rewrite Hnew.
    intros line Hl. apply in_app_or in Hl as [[<-|[<-|[]]]|Hl];
      [now left | exact Hstop | now apply HF].
Qed.

Lemma cleanup_lines (w : World) :
  forall line, In line (cleanupJournal w) -> harmless w line.
Proof.
  unfold cleanupJournal, POST_cleanup. rewrite run_logged.
  destruct (run World spawn psBrief w) as [[output|e] w1] eqn:Hps; cbn [fst snd];
    [|intros line [<-|[]]; now left].
  pose proof (run_output _ _ _ _ Hps) as Hout.
  destruct (filterM briefIsApp (map parseBrief (outputLines output)))
    as [containers|e] eqn:Hf; [|intros line [<-|[]]; now left].
  assert (Happ : forall c, In c containers -> appId w (b_id c)).
  { intros c Hc. destruct (filterM_inl _ _ _ Hf c Hc) as [Hin Hother].
    exists c. unfold listedBriefs. rewrite <- Hout. auto. }
  destruct (removeEach_journal _ containers (each_harmless w containers Happ) w1
              ([] ++ [psBrief])) as [new [Hnew HF]].
  destruct (removeEach LWorld lspawn containers _) as [rs [w4 j4]].
  cbn [fst snd] in *. rewrite Hnew.
  intros line Hl. apply in_app_or in Hl as [[<-|[]]|Hl]; [now left | now apply HF].
Qed.

(** A stop or a removal of containers, at least one, that all satisfy
    [P]. *)
Definition removalOf (P : Brief -> Prop) (line : string) : Prop :=
  exists cs,
    cs <> []
    /\ (line = "docker stop " +:+ join " " (map b_id cs)
        \/ line = "docker rm " +:+ join " " (map b_id cs))
    /\ forall c, In c cs -> P c.

Definition listingOr (P : Brief -> Prop) (line : string) : Prop :=
  line = psBrief \/ removalOf P line.

Lemma each_removalOf (P : Brief -> Prop) (containers : list Brief) :
  (forall c, In c containers -> P c) ->
  forall c, In c containers ->
    listingOr P ("docker stop " +:+ b_id c) /\ listingOr P ("docker rm " +:+ b_id c).
Proof.
  intros HP c Hc.
  split; right; exists [c];
    (split; [discriminate|]); (split; [auto|]); intros c' [<-|[]]; now apply HP.
Qed.

Lemma batch_removalOf (P : Brief -> Prop) (containers : list Brief) :
  containers <> [] ->
  (forall c, In c containers -> P c) ->
  removalOf P ("docker stop " +:+ join " " (map b_id containers))
  /\ removalOf P ("docker rm " +:+ join " " (map b_id containers)).
Proof. intros Hne HP. split; exists containers; auto. Qed.

(** Every command line of cleanup-others is the listing, or a stop or a
    removal of listed containers that passed the filter of the handler. *)
Lemma cleanupOthers_removals (keepContainerId : string) (w : World) :
  forall line, In line (cleanupOthersJournal keepContainerId w) ->
    listingOr (fun c => In c (listedBriefs w)
                        /\ isOther keepContainerId c = inl true) line.
Proof.
  unfold cleanupOthersJournal, POST_cleanup_others.
  destruct (truthy keepContainerId); cbn [negb]; [|intros ? []].
  rewrite run_logged.
  destruct (run World spawn psBrief w) as [[output|e] w1] eqn:Hps; cbn [fst snd];
    [|intros line [<-|[]]; now left].
  pose proof (run_output _ _ _ _ Hps) as Hout.
  destruct (filterM (isOther keepContainerId) (map parseBrief (outputLines output)))
    as [containers|e] eqn:Hf; [|intros line [<-|[]]; now left].
  assert (HP : forall c, In c containers ->
                 In c (listedBriefs w) /\ isOther keepContainerId c = inl true).
  { intros c Hc. destruct (filterM_inl _ _ _ Hf c Hc) as [Hin Hother].
    unfold listedBriefs. rewrite <- Hout. auto. }
  destruct containers as [|c0 cs]; [intros line [<-|[]]; now left|].
  set (containers := c0 :: cs) in *.
  set (P := fun c => In c (listedBriefs w) /\ isOther keepContainerId c = inl true)
    in *.
  destruct (batch_removalOf P containers ltac:(discriminate) HP) as [Hstop Hrm].
  pose proof (each_removalOf P containers HP) as Heach.
  cbv zeta. rewrite run_logged.
  destruct (run World spawn ("docker stop " +:+ join " " (map b_id containers)) w1)
    as [[o|e] w2]; cbn [fst snd].
  - rewrite run_logged.
    destruct (run World spawn ("docker rm " +:+ join " " (map b_id containers)) w2)
      as [[o2|e2] w3]; cbn [fst snd].
    + intros line [<-|[<-|[<-|[]]]]; [now left | now right | now right].
    + destruct (removeEach_journal (listingOr P) containers Heach w3
                  ((([] ++ [psBrief]) ++ ["docker stop " +:+ join " " (map b_id containers)])
                   ++ ["docker rm " +:+ join " " (map b_id containers)]))
        as [new [Hnew HF]].
      destruct (removeEach LWorld lspawn containers _) as [rs [w4 j4]].
      cbn [fst snd] in *. rewrite Hnew.
      intros line Hl. apply in_app_or in Hl as [[<-|[<-|[<-|[]]]]|Hl];
        [now left | now right | now right | now apply HF].
  - destruct (removeEach_journal (listingOr P) containers Heach w2
                (([] ++ [psBrief]) ++ ["docker stop " +:+ join " " (map b_id containers)]))
      as [new [Hnew HF]].
    destruct (removeEach LWorld lspawn containers _) as [rs [w4 j4]].
    cbn [fst snd] in *. rewrite Hnew.
    intros line Hl. apply in_app_or in Hl as [[<-|[<-|[]]]|Hl];
      [now left | now right | now apply HF].
Qed.

Lemma cleanup_removals (w : World) :
  forall line, In line (cleanupJournal w) ->
    listingOr (fun c => In c (listedBriefs w) /\ briefIsApp c = inl true) line.
Proof.
  unfold cleanupJournal, POST_cleanup. rewrite run_logged.
  destruct (run World spawn psBrief w) as [[output|e] w1] eqn:Hps; cbn [fst snd];
    [|intros line [<-|[]]; now left].
  pose proof (run_output _ _ _ _ Hps) as Hout.
  destruct (filterM briefIsApp (map parseBrief (outputLines output)))
    as [containers|e] eqn:Hf; [|intros line [<-|[]]; now left].
  assert (HP : forall c, In c containers ->
                 In c (listedBriefs w) /\ briefIsApp c = inl true).
  { intros c Hc. destruct (filterM_inl _ _ _ Hf c Hc) as [Hin Happ].
    unfold listedBriefs. rewrite <- Hout. auto. }
  set (P := fun c => In c (listedBriefs w) /\ briefIsApp c = inl true) in *.
  destruct (removeEach_journal (listingOr P) containers
              (each_removalOf P containers HP) w1 ([] ++ [psBrief]))
    as [new [Hnew HF]].
  destruct (removeEach LWorld lspawn containers _) as [rs [w4 j4]].
  cbn [fst snd] in *. rewrite Hnew.
  intros line Hl. apply in_app_or in Hl as [[<-|[]]|Hl]; [now left | now apply HF].
Qed.

(** The words of a command line after its first two: the containers a
    [docker stop] or a [docker rm] names. *)
Definition namedOn (line : string) : list string := skipn 2 (split space line).

(** No identifier of the listing holds a space, as is so of the identifiers
    the runtime prints. *)
Definition unspaced (w : World) : Prop :=
  forall c, In c (listedBriefs w) -> includes (b_id c) " " = false.

Lemma namedOn_removal (P : Brief -> Prop) (line : string) :
  removalOf P line ->
  (forall c, P c -> includes (b_id c) " " = false) ->
  (startsWith line "docker stop " = true \/ startsWith line "docker rm " = true)
  /\ exists cs, namedOn line = map b_id cs /\ forall c, In c cs -> P c.
Proof.
  intros [cs [Hne [Hline HP]]] Hun.
  assert (Hsplit : split space (join " " (map b_id cs)) = map b_id cs).
  { apply StringFacts.split_join.
    - destruct cs; [congruence | discriminate].
    - intros x Hx. apply in_map_iff in Hx as [c [<- Hc]]. apply Hun, HP, Hc. }
  destruct Hline as [-> | ->].
  - split; [left; reflexivity|]. exists cs. split; [|exact HP]. unfold namedOn.
    change ("docker stop " +:+ join " " (map b_id cs))
      with ("docker" +:+ " " +:+ ("stop" +:+ " " +:+ join " " (map b_id cs))).
    rewrite (StringFacts.split_field space "docker") by reflexivity.
    rewrite (StringFacts.split_field space "stop") by reflexivity.
    cbn [skipn]. exact Hsplit.
  - split; [right; reflexivity|]. exists cs. split; [|exact HP]. unfold namedOn.
    change ("docker rm " +:+ join " " (map b_id cs))
      with ("docker" +:+ " " +:+ ("rm" +:+ " " +:+ join " " (map b_id cs))).
    rewrite (StringFacts.split_field space "docker") by reflexivity.
    rewrite (StringFacts.split_field space "rm") by reflexivity.
    cbn [skipn]. exact Hsplit.
Qed.

(** Of a line that is not the listing, every word after [docker stop] or
    [docker rm] is the identifier of a listed container whose name or image
    contains codeai. *)
Definition removesAppOnly (w : World) (line : string) : Prop :=
  line = psBrief
  \/ ((startsWith line "docker stop " = true \/ startsWith line "docker rm " = true)
      /\ forall word, In word (namedOn line) -> appId w word).

Lemma cleanupOthers_words (keepContainerId : string) (w : World) :
  unspaced w ->
  forall line, In line (cleanupOthersJournal keepContainerId w) ->
    removesAppOnly w line.
Proof.
  intros Hun line Hl.
  destruct (cleanupOthers_removals keepContainerId w line Hl) as [->|Hr];
    [now left | right].
  destruct (namedOn_removal _ line Hr) as [Hstart [cs [Hnamed HP]]].
  { intros c [Hin _]. now apply Hun. }
  split; [exact Hstart|]. rewrite Hnamed. intros word Hw.
  apply in_map_iff in Hw as [c [<- Hc]]. destruct (HP c Hc) as [Hin Hother].
  exists c. split; [exact Hin|]. split; [reflexivity|].
  unfold isOther in Hother.
  destruct (briefIsApp c) as [[]|]; [reflexivity | discriminate | discriminate].
Qed.

Lemma cleanup_words (w : World) :
  unspaced w ->
  forall line, In line (cleanupJournal w) -> removesAppOnly w line.
Proof.
  intros Hun line Hl.
  destruct (cleanup_removals w line Hl) as [->|Hr]; [now left | right].
  destruct (namedOn_removal _ line Hr) as [Hstart [cs [Hnamed HP]]].
  { intros c [Hin _]. now apply Hun. }
  split; [exact Hstart|]. rewrite Hnamed. intros word Hw.
  apply in_map_iff in Hw as [c [<- Hc]]. destruct (HP c Hc) as [Hin Happ].
  exists c. auto.
Qed.

(** The list endpoint answers with application containers only. *)
Lemma listed_are_app (w w' : World)
    (response : Response (list ContainerInfo + ErrorBody)) (l : list ContainerInfo) :
  GET_containers World spawn w = (response, w') ->
  body response = inl l ->
  forall c, In c l -> isAppContainer c = true.
Proof.
  unfold GET_containers.
  destruct (run World spawn psFull w) as [[output|e] w1].
  - destruct (mapM parseLine (outputLines output)) as [containers|e].
    + intros H Hb c Hc. inversion H; subst. cbn in Hb. inversion Hb; subst.
      now apply filter_In in Hc as [_ Hc].
    + intros H Hb. inversion H; subst. discriminate.
  - intros H Hb. inversion H; subst. discriminate.
Qed.

(** What the list endpoint answers is the application part of what the
    runtime printed: a record that does not pass the filter is absent
    whatever the runtime holds. *)
Lemma listed_is_filtered (w w' : World)
    (response : Response (list ContainerInfo + ErrorBody)) (l : list ContainerInfo) :
  GET_containers World spawn w = (response, w') ->
  body response = inl l ->
  exists parsed,
    mapM parseLine (outputLines (pr_stdout (fst (spawn psFull w)))) = inl parsed
    /\ l = List.filter isAppContainer parsed.
Proof.
  unfold GET_containers.
  destruct (run World spawn psFull w) as [[output|e] w1] eqn:Hps.
  - rewrite <- (run_output _ _ _ _ Hps).
    destruct (mapM parseLine (outputLines output)) as [containers|e].
    + intros H Hb. inversion H; subst. cbn in Hb. inversion Hb; subst. eauto.
    + intros H Hb. inversion H; subst. discriminate.
  - intros H Hb. inversion H; subst. discriminate.
Qed.

End Journals.

Section Visibility.
Variable World : Type.
Variable spawn : string -> World -> ProcResult * World.
Variable now : World -> Z.
Variable toISOString : Z -> string.
Variable firstOfParsed : string -> bool.
Variable writeDockerfile : World -> option thrown * World.
Variable dateTime : string -> option Z.

Local Abbreviation getAll := (Pool.getAllContainers World spawn).
Local Abbreviation getAvailable :=
  (Pool.getAvailableContainer World spawn now toISOString firstOfParsed
     writeDockerfile dateTime).

(** What the service takes for the containers of the registry is what the
    list endpoint answered. *)
Lemma getAll_listing (st st' : Pool.St World) (l : list ContainerInfo) :
  getAll st = (inl l, st') ->
  exists response w',
    GET_containers World spawn (Pool.world st) = (response, w')
    /\ body response = inl l.
Proof.
  unfold Pool.getAllContainers. unfold bind at 1. unfold Pool.fetch.
  destruct (GET_containers World spawn (Pool.world st)) as [response w'] eqn:Hget.
  destruct (body response) as [containers|err] eqn:Hb.
  - destruct (ok response); [|discriminate].
    unfold bind. rewrite PoolSpec.forEach_poolSet. cbn.
    intros H. inversion H; subst. eauto.
  - discriminate.
Qed.

Lemma getAll_app (st st' : Pool.St World) (l : list ContainerInfo) :
  getAll st = (inl l, st') -> forall c, In c l -> isAppContainer c = true.
Proof.
  intros H. destruct (getAll_listing _ _ _ H) as [response [w' [Hget Hb]]].
  exact (listed_are_app World spawn _ _ _ _ Hget Hb).
Qed.

(** A container the reconciler answers without having asked for a new one
    passes the filter of the list endpoint. *)
Lemma reused_is_app (config : option DockerContainerConfig)
    (st st' : Pool.St World) (c : ContainerInfo) :
  getAvailable config st = (inl c, st') ->
  isAppContainer c = true
  \/ exists before more,
       Pool.requests st'
       = before ++ Pool.ReqCreate (default Pool.defaultConfig config) :: more.
Proof.
  unfold Pool.getAvailableContainer. unfold bind at 1.
  destruct (Pool.ensureInitialized _ _ _ _ _ st) as [[[]|e] st0]; [|discriminate].
  unfold bind at 1.
  destruct (getAll st0) as [[l|e] st1] eqn:Hall; [|discriminate].
  pose proof (getAll_app _ _ _ Hall) as Happ.
  assert (Hcreate : forall found st2,
            Pool.createContainer World spawn now toISOString firstOfParsed
              config found st2 = (inl c, st') ->
            isAppContainer c = true
            \/ exists before more,
                 Pool.requests st'
                 = before ++ Pool.ReqCreate (default Pool.defaultConfig config) :: more).
  { intros found st2 H. right.
    destruct (PoolSpec.create_journal _ _ _ _ _ _ _ _ _ _ H) as [more Hmore].
    eauto. }
  destruct (1 <? length l)%nat.
  - destruct (Pool.sortByCreated dateTime l) as [|latest rest] eqn:Hs;
      [apply Hcreate|].
    unfold bind at 1.
    destruct (PoolSpec.cleanup_total World spawn (id latest) st1) as [b [st2 Hc]].
    rewrite Hc.
    destruct (Pool.reusable config latest); [|apply Hcreate].
    intros H. inversion H; subst. left. apply Happ.
    apply (PoolSpec.sortByCreated_In dateTime). rewrite Hs. now left.
  - destruct l as [|c0 [|c1 t]]; try apply Hcreate.
    destruct (Pool.reusable config c0); [|apply Hcreate].
    intros H. inversion H; subst. left. apply Happ. now left.
Qed.

(** C10 (amended): the list endpoint answers only containers whose name
    or image contains codeai. The reconciler chooses among the containers
    that endpoint answered, so a container it answers passes the same
    filter unless the call has sent a creation request: a container it
    creates is answered and kept whatever its name and image. Both cleanup
    endpoints run, besides the listing, only stop and rm command lines, and
    every identifier on such a line is that of a listed container whose
    name or image contains codeai; this holds in every world, that is,
    whatever the runtime holds and answers. When no identifier of the
    listing holds a space, every word of such a line after [docker stop] or
    [docker rm] is such an identifier. *)
Theorem C10_only_app_containers_visible :
  (forall (w w' : World) response (l : list ContainerInfo),
      GET_containers World spawn w = (response, w') ->
      body response = inl l ->
      forall c, In c l ->
        includes (name c) "codeai" || includes (image c) "codeai" = true)
  /\ (forall config (st st' : Pool.St World) (c : ContainerInfo),
        getAvailable config st = (inl c, st') ->
        includes (name c) "codeai" || includes (image c) "codeai" = true
        \/ exists before more,
             Pool.requests st'
             = before ++ Pool.ReqCreate (default Pool.defaultConfig config) :: more)
  /\ (forall (keepContainerId : string) (w : World) (line : string),
        In line (cleanupOthersJournal World spawn keepContainerId w) ->
        harmless World spawn w line)
  /\ (forall (w : World) (line : string),
        In line (cleanupJournal World spawn w) -> harmless World spawn w line)
  /\ (forall (keepContainerId : string) (w : World),
        unspaced World spawn w ->
        forall line,
          In line (cleanupOthersJournal World spawn keepContainerId w) ->
          removesAppOnly World spawn w line)
  /\ (forall (w : World),
        unspaced World spawn w ->
        forall line,
          In line (cleanupJournal World spawn w) ->
          removesAppOnly World spawn w line).
Proof.
  split; [|split; [|split; [|split; [|split]]]].
  - intros w w' response l Hget Hb c Hc.
    exact (listed_are_app World spawn _ _ _ _ Hget Hb c Hc).
  - intros config st st' c H. exact (reused_is_app config st st' c H).
  - intros keep w. apply cleanupOthers_lines.
  - intros w. apply cleanup_lines.
  - intros keep w. apply cleanupOthers_words.
  - intros w. apply cleanup_words.
Qed.

End Visibility.

Import Scenario.

Lemma mixed_unspaced : unspaced Dock runtime mixed.
Proof.
  intros c Hc. vm_compute in Hc. destruct Hc as [<-|[<-|[]]]; reflexivity.
Qed.

(** In a registry whose newest container is a stranger, the listing shows
    the application's container only, the reconciler answers it, and the
    cleanup stops and removes nothing else. *)
Lemma C10_only_app_containers_visible_witness :
  body (fst (GET_containers Dock runtime mixed)) = inl [listed t3]
  /\ fst (getAvailable None (service mixed)) = inl (listed t3)
  /\ isAppContainer (listed t3) = true
  /\ cleanupJournal Dock runtime mixed = [psBrief; "docker stop t3"; "docker rm t3"]
  /\ harmless Dock runtime mixed "docker rm t3"
  /\ removesAppOnly Dock runtime mixed "docker stop t3".
Proof.
  destruct (C10_only_app_containers_visible Dock runtime runtimeNow printInstant
              parsesToArray noDockerfile readInstant)
    as [Hlist [Hreuse [Hothers [Hcleanup [_ Hwords]]]]].
  split; [vm_compute; reflexivity|].
  split; [vm_compute; reflexivity|].
  split.
  - destruct (GET_containers Dock runtime mixed) as [response d'] eqn:Hget.
    apply (Hlist mixed d' response [listed t3] Hget).
    + apply (f_equal fst) in Hget. cbn [fst] in Hget. rewrite <- Hget.
      vm_compute. reflexivity.
    + now left.
  - split; [vm_compute; reflexivity|]. split.
    + apply Hcleanup.
      replace (cleanupJournal Dock runtime mixed)
        with [psBrief; "docker stop t3"; "docker rm t3"] by (vm_compute; reflexivity).
      right. right. now left.
    + apply (Hwords mixed mixed_unspaced).
      replace (cleanupJournal Dock runtime mixed)
        with [psBrief; "docker stop t3"; "docker rm t3"] by (vm_compute; reflexivity).
      right. now left.
Defined.

(** The container a call creates from a configuration with a name and an
    image of its own. *)
Definition webMade : ContainerInfo :=
  mkContainerInfo "box0" "web" "ubuntu:22.04" "running" None (Some "5014") (Some []).

(** C10, as stated, fails for the reconciler: asked for a container with a
    name and an image without codeai while three application containers
    run, it creates that container, answers it and keeps it, and asks for
    the removal of every application container. Afterwards the runtime
    holds the new container, which the list endpoint does not show, and the
    application container that could not be removed. *)
Lemma C10_counterexample :
  fst (getAvailable (Some webConfig) (service threeRunning)) = inl webMade
  /\ isAppContainer webMade = false
  /\ Pool.requests (snd (getAvailable (Some webConfig) (service threeRunning)))
     = [Pool.ReqList; Pool.ReqList; Pool.ReqDelete "t2"; Pool.ReqDelete "t1";
        Pool.ReqCreate webConfig;
        Pool.ReqList; Pool.ReqDelete "t3"; Pool.ReqDelete "t1"]
  /\ map bx_name
       (boxes (Pool.world (snd (getAvailable (Some webConfig) (service threeRunning)))))
     = ["web"; "codeai-a"]
  /\ body (fst (GET_containers Dock runtime
                  (Pool.world (snd (getAvailable (Some webConfig)
                                      (service threeRunning))))))
     = inl [listed t1].
Proof.
  repeat split; vm_compute; reflexivity.
Qed.

End RoutesSpec.

(* ================================================================== *)
(** * Properties of the planning entry points *)
(* ================================================================== *)

Module PlannerSpec.
Import JS Host Eff Json Planner.

(** A planner whose context gathering succeeds and whose final request
    fails for want of an API key. *)
Definition noKey : thrown := ErrorObj "API Key de Gemini no configurada" None.

Definition keylessPlan (userPrompt : string) (availableFiles : list string + string)
    (fileAnalysisContext externalInfoContext : string) (w : unit)
    : (value + thrown) * unit :=
  (inr noKey, tt).

Definition quietFlow (input : AgenticPlanningInput) (w : unit)
    : (FlowContext + thrown) * unit :=
  (inl (mkFlowContext (prompt input) EmptyString EmptyString false [] [] []), tt).

Definition quietPlan (input : AgenticPlanningInput) (w : unit)
    : (PlanContext + thrown) * unit :=
  (inl (mkPlanContext EmptyString EmptyString EmptyString false [] [] []), tt).

Definition request : AgenticPlanningInput := mkInput "ordena los datos" None None.

Section Flows.
Variable World : Type.
Variable createDetailedPlan :
  string -> list string + string -> string -> string -> World -> (value + thrown) * World.
Variable gatherFlow : AgenticPlanningInput -> World -> (FlowContext + thrown) * World.
Variable gatherPlan : AgenticPlanningInput -> World -> (PlanContext + thrown) * World.

Local Abbreviation body := (flowBody World createDetailedPlan gatherFlow).
Local Abbreviation flow := (agenticPlanningFlow World createDetailedPlan gatherFlow).
Local Abbreviation entry := (generateAgenticPlan World createDetailedPlan gatherPlan).

(** The shape of the degraded plan. *)
Lemma errorPlan_shape (e : thrown) :
  pasos (errorPlan e)
  = Some (Arr [step "Error en la generación del plan"
                 "Se produjo un error al procesar la solicitud con Gemini."])
  /\ requiereInfoExterna (errorPlan e) = false
  /\ requiereAnalisisArchivos (errorPlan e) = false.
Proof. repeat split. Qed.

(** The handler of the flow catches what its body throws. *)
Lemma flow_catches (input : AgenticPlanningInput) (w w' : World) (e : thrown) :
  body input w = (inr e, w') -> flow input w = (errorPlan e, w').
Proof. intros H. unfold agenticPlanningFlow. now rewrite H. Qed.

(** A final request that fails in the flow makes its body throw. *)
Lemma flow_request_fails (input : AgenticPlanningInput) (w w1 w2 : World)
    (ctx : FlowContext) (e : thrown) :
  gatherFlow input w = (inl ctx, w1) ->
  createDetailedPlan (fc_promptCompleto ctx) (inl (default [] (fileNames input)))
    (fc_archivosAnalizadosDetalle ctx) (fc_busquedas ctx) w1 = (inr e, w2) ->
  body input w = (inr e, w2).
Proof.
  intros Hg Hc. unfold flowBody. unfold bind at 1. rewrite Hg.
  unfold bind at 1. rewrite Hc. reflexivity.
Qed.

(** The entry point lets the failure of its final request through. *)
Lemma entry_request_fails (input : AgenticPlanningInput) (w w1 w2 : World)
    (ctx : PlanContext) (e : thrown) :
  gatherPlan input w = (inl ctx, w1) ->
  createDetailedPlan (prompt input) (inr (pc_archivosDisponibles ctx))
    (pc_fileAnalysisContext ctx) (pc_externalInfoContext ctx) w1 = (inr e, w2) ->
  entry input w = (inr e, w2).
Proof.
  intros Hg Hc. unfold generateAgenticPlan. unfold bind at 1. rewrite Hg.
  unfold bind at 1. rewrite Hc. reflexivity.
Qed.

(** C8 (amended): the handler of [agenticPlanningFlow] always answers a
    plan, and when its body throws, in particular when the final request
    fails, the plan is the degraded one: one fallback step and both flags
    false. [generateAgenticPlan], the function the pages call, has no such
    handler: the failure of its final request reaches the caller as an
    exception, and so does whatever its earlier steps let escape. *)
Theorem C8_flow_degrades_entry_propagates :
  (forall input w, exists p w', flow input w = (p, w'))
  /\ (forall input w w' e,
        body input w = (inr e, w') ->
        flow input w = (errorPlan e, w')
        /\ pasos (errorPlan e)
           = Some (Arr [step "Error en la generación del plan"
                          "Se produjo un error al procesar la solicitud con Gemini."])
        /\ requiereInfoExterna (errorPlan e) = false
        /\ requiereAnalisisArchivos (errorPlan e) = false)
  /\ (forall input w w1 w2 ctx e,
        gatherFlow input w = (inl ctx, w1) ->
        createDetailedPlan (fc_promptCompleto ctx) (inl (default [] (fileNames input)))
          (fc_archivosAnalizadosDetalle ctx) (fc_busquedas ctx) w1 = (inr e, w2) ->
        flow input w = (errorPlan e, w2))
  /\ (forall input w w1 w2 ctx e,
        gatherPlan input w = (inl ctx, w1) ->
        createDetailedPlan (prompt input) (inr (pc_archivosDisponibles ctx))
          (pc_fileAnalysisContext ctx) (pc_externalInfoContext ctx) w1 = (inr e, w2) ->
        entry input w = (inr e, w2))
  /\ (forall input w w1 e,
        gatherPlan input w = (inr e, w1) -> entry input w = (inr e, w1)).
Proof.
  split; [|split; [|split; [|split]]].
  - intros input w. unfold agenticPlanningFlow.
    destruct (body input w) as [[p|e] w']; eauto.
  - intros input w w' e H. split; [now apply flow_catches | apply errorPlan_shape].
  - intros input w w1 w2 ctx e Hg Hc. apply flow_catches.
    now apply (flow_request_fails input w w1 w2 ctx e).
  - intros input w w1 w2 ctx e Hg Hc.
    now apply (entry_request_fails input w w1 w2 ctx e).
  - intros input w w1 e Hg. unfold generateAgenticPlan. unfold bind at 1.
    now rewrite Hg.
Qed.

End Flows.

(** Without an API key the flow answers the degraded plan and the entry
    point throws. *)
Lemma C8_flow_degrades_entry_propagates_witness :
  agenticPlanningFlow unit keylessPlan quietFlow request tt = (errorPlan noKey, tt)
  /\ generateAgenticPlan unit keylessPlan quietPlan request tt = (inr noKey, tt).
Proof.
  destruct (C8_flow_degrades_entry_propagates unit keylessPlan quietFlow quietPlan)
    as [_ [_ [Hflow [Hentry _]]]].
  split.
  - apply (Hflow request tt tt tt
             (mkFlowContext "ordena los datos" EmptyString EmptyString false [] [] []));
      reflexivity.
  - apply (Hentry request tt tt tt
             (mkPlanContext EmptyString EmptyString EmptyString false [] [] []));
      reflexivity.
Defined.

(** The caller of the entry point receives an exception, not a plan. *)
Lemma C8_counterexample :
  fst (generateAgenticPlan unit keylessPlan quietPlan request tt) = inr noKey.
Proof. reflexivity. Qed.

End PlannerSpec.

(* ================================================================== *)
(** * Properties of the reading of structured responses *)
(* ================================================================== *)

Module GeminiSpec.
Import JS Regex Gemini.

Definition fence : string := "```".

(** The white space [JSON.parse] skips: space, tab, line feed and carriage
    return. *)
Definition isJsonWhiteSpace (c : ascii) : bool :=
  let n := nat_of_ascii c in
  Nat.eqb n 9 || Nat.eqb n 10 || Nat.eqb n 13 || Nat.eqb n 32.

(** An answer wrapped in a fenced block, with or without the language. *)
Definition fenced (lang t : string) : string :=
  fence +:+ lang +:+ nl +:+ t +:+ nl +:+ fence.

(** The type a schema names, as a property of a value. *)
Definition hasType (type : string) (v : Json.value) : bool :=
  match v with
  | Json.Str _ => String.eqb type "string"
  | Json.Bool _ => String.eqb type "boolean"
  | Json.Arr _ => String.eqb type "array"
  | Json.Obj _ => String.eqb type "object"
  | Json.Number _ => String.eqb type "number" || String.eqb type "integer"
  | Json.Null => String.eqb type "null"
  end.

(** A reader of the few texts the examples need: JSON white space, then
    one of the literals or an empty object or array. *)
Definition toyLiteral (s : string) : option Json.value :=
  if String.eqb s "true" then Some (Json.Bool true)
  else if String.eqb s "false" then Some (Json.Bool false)
  else if String.eqb s "null" then Some Json.Null
  else if String.eqb s "{}" then Some (Json.Obj [])
  else if String.eqb s "[]" then Some (Json.Arr [])
  else None.

Fixpoint toyParse (s : string) : option Json.value :=
  match s with
  | EmptyString => None
  | String c s' => if isJsonWhiteSpace c then toyParse s' else toyLiteral s
  end.

Definition planSchema : StructuredOutputConfig :=
  mkSchema "Plan" "object"
    (Some [("plan", mkProp "string" None); ("listo", mkProp "boolean" None);
           ("total", mkProp "number" None)])
    None.

Lemma includes_tail (c : ascii) (u p : string) :
  includes (String c u) p = false -> includes u p = false.
Proof. cbn [includes]. intros H. now apply orb_false_iff in H. Qed.

Lemma includes_startsWith (u p : string) :
  includes u p = false -> startsWith u p = false.
Proof. destruct u; cbn [includes]; intros H; now apply orb_false_iff in H. Qed.

(** A text without a fence does not run into the closing one early. *)
Lemma no_fence_start (u : string) :
  includes u fence = false -> startsWith (u +:+ nl +:+ fence) fence = false.
Proof.
  intros H. apply includes_startsWith in H.
  destruct u as [|c1 [|c2 [|c3 r]]]; [reflexivity | | | exact H];
    cbn [startsWith String.append fence];
    repeat match goal with |- context [Ascii.eqb "`" ?c] =>
      is_var c; destruct (Ascii.eqb "`" c) end; reflexivity.
Qed.

Lemma consumed_app (a b : string) : consumed (a +:+ b) b = a.
Proof.
  unfold consumed. rewrite StringFacts.length_app.
  replace (String.length a + String.length b - String.length b)
    with (String.length a) by lia.
  induction a as [|c a IH]; cbn.
  - destruct b; reflexivity.
  - now rewrite IH.
Qed.

Section Matching.
Variable R : Type.

(** The end of the expression, an optional line feed and the fence, does
    not match inside a text without a fence. *)
Lemma closing_fails (c : ascii) (u : string) (caps : list string)
    (k : string -> list string -> option R) :
  includes (String c u) fence = false ->
  run R (Seq (Opt (Lit nl)) (Lit fence)) (String c u +:+ nl +:+ fence) caps k = None.
Proof.
  intros H.
  pose proof (no_fence_start _ H) as H1.
  pose proof (no_fence_start _ (includes_tail _ _ _ H)) as H2.
  cbn [run]. rewrite H1.
  destruct (startsWith (String c u +:+ nl +:+ fence) nl) eqn:Hnl; [|reflexivity].
  change (substring_from (String.length nl) (String c u +:+ nl +:+ fence))
    with (u +:+ nl +:+ fence).
  now rewrite H2.
Qed.

Lemma closing_matches (caps : list string) (k : string -> list string -> option R)
    (r : R) :
  k EmptyString caps = Some r ->
  run R (Seq (Opt (Lit nl)) (Lit fence)) (nl +:+ fence) caps k = Some r.
Proof. intros H. cbn. now rewrite H. Qed.

Lemma starLazy_here (p : ascii -> bool) (s : string) (k : string -> option R) (r : R) :
  k s = Some r -> starLazy R p s k = Some r.
Proof. intros H. destruct s; cbn [starLazy]; now rewrite H. Qed.

Lemma starLazy_skip (p : ascii -> bool) (c : ascii) (s : string)
    (k : string -> option R) :
  k (String c s) = None -> p c = true ->
  starLazy R p (String c s) k = starLazy R p s k.
Proof. intros H Hp. cbn [starLazy]. now rewrite H, Hp. Qed.

(** The lazy group stops at the end of a text without a fence. *)
Lemma starLazy_to_fence (u : string) (g : string -> list string)
    (k : string -> list string -> option R) (r : R) :
  includes u fence = false ->
  k EmptyString (g (nl +:+ fence)) = Some r ->
  starLazy R any (u +:+ nl +:+ fence)
    (fun s' => run R (Seq (Opt (Lit nl)) (Lit fence)) s' (g s') k) = Some r.
Proof.
  intros Hu Hk. induction u as [|c u IH].
  - apply starLazy_here. now apply closing_matches.
  - change ((String c u) +:+ nl +:+ fence) with (String c (u +:+ nl +:+ fence)).
    rewrite starLazy_skip; [apply IH; exact (includes_tail _ _ _ Hu) | | reflexivity].
    exact (closing_fails c u _ k Hu).
Qed.

(** The greedy white space takes the white space a text starts with. *)
Lemma starGreedy_skipWhite (t rest : string) (k : string -> option R) (r : R) :
  JS.truthy (skipWhite t) = true ->
  k (skipWhite t +:+ rest) = Some r ->
  starGreedy R isWhiteSpace (t +:+ rest) k = Some r.
Proof.
  induction t as [|c t IH]; cbn [skipWhite]; [discriminate|].
  cbn [String.append starGreedy].
  destruct (isWhiteSpace c) eqn:Hc.
  - intros Hne Hk. now rewrite (IH Hne Hk).
  - intros _ Hk. exact Hk.
Qed.

Lemma skipWhite_head (t : string) (c : ascii) (u : string) :
  skipWhite t = String c u -> isWhiteSpace c = false.
Proof.
  induction t as [|x t IH]; cbn [skipWhite]; [discriminate|].
  destruct (isWhiteSpace x) eqn:Hx; [exact IH|].
  intros H. inversion H; subst. exact Hx.
Qed.

Lemma includes_skipWhite (t p : string) :
  includes t p = false -> includes (skipWhite t) p = false.
Proof.
  induction t as [|x t IH]; cbn [skipWhite]; [auto|].
  destruct (isWhiteSpace x); [|auto].
  intros H. apply IH. exact (includes_tail _ _ _ H).
Qed.

Lemma not_white_not_lf (c : ascii) : isWhiteSpace c = false -> Ascii.eqb "010" c = false.
Proof.
  intros H. destruct (Ascii.eqb_spec "010" c) as [<-|]; [discriminate | reflexivity].
Qed.

(** From the white space on: the group captures the text without the
    white space it starts with. *)
Lemma block_from_space (t : string) (caps : list string)
    (k : string -> list string -> option R) (r : R) :
  includes t fence = false ->
  JS.truthy (skipWhite t) = true ->
  k EmptyString (caps ++ [skipWhite t]) = Some r ->
  run R (Seq (Star isWhiteSpace)
           (Seq (Opt (Lit nl))
              (Seq (Group (LazyStar any)) (Seq (Opt (Lit nl)) (Lit fence)))))
    (nl +:+ t +:+ nl +:+ fence) caps k = Some r.
Proof.
  intros Hfence Hne Hk.
  change (run R (Seq (Star isWhiteSpace) ?c) ?s caps k)
    with (starGreedy R isWhiteSpace s (fun s' => run R c s' caps k)).
  rewrite <- StringFacts.app_assoc.
  apply starGreedy_skipWhite;
    change (skipWhite (nl +:+ t)) with (skipWhite t); [exact Hne|].
  destruct (skipWhite t) as [|c0 u0] eqn:Ht; [discriminate|].
  pose proof (not_white_not_lf c0 (skipWhite_head t c0 u0 Ht)) as Hlf.
  pose proof (includes_skipWhite t fence Hfence) as Hu. rewrite Ht in Hu.
  cbn [run startsWith String.append nl]. rewrite Hlf. cbn [andb].
  change (String c0 (u0 +:+ String "010" fence)) with (String c0 u0 +:+ nl +:+ fence).
  apply (starLazy_to_fence (String c0 u0)
           (fun s' => caps ++ [consumed (String c0 u0 +:+ nl +:+ fence) s']) k r Hu).
  now rewrite consumed_app.
Qed.

(** The whole expression at the start of a fenced answer. *)
Lemma block_match (lang t : string) (caps : list string)
    (k : string -> list string -> option R) (r : R) :
  lang = EmptyString \/ lang = "json" ->
  includes t fence = false ->
  JS.truthy (skipWhite t) = true ->
  k EmptyString (caps ++ [skipWhite t]) = Some r ->
  run R jsonCodeBlockRegex (fenced lang t) caps k = Some r.
Proof.
  intros Hlang Hfence Hne Hk.
  pose proof (block_from_space t caps k r Hfence Hne Hk) as Hrest.
  destruct Hlang as [-> | ->]; unfold jsonCodeBlockRegex, fenced, fence in *;
    cbn [run startsWith String.append andb Ascii.eqb String.length substring_from nl]
      in *.
  - cbn. cbn in Hrest. now rewrite Hrest.
  - cbn. cbn in Hrest. now rewrite Hrest.
Qed.

End Matching.

Lemma searchFrom_here (r : re) (pre s : string) (m : found) :
  matchAt r pre s = Some m -> searchFrom r pre s = Some m.
Proof. intros H. destruct s; cbn [searchFrom]; now rewrite H. Qed.

(** The search finds the block at the start of a fenced answer. *)
Lemma search_fenced (lang t : string) :
  lang = EmptyString \/ lang = "json" ->
  includes t fence = false ->
  JS.truthy (skipWhite t) = true ->
  exists m, search jsonCodeBlockRegex (fenced lang t) = Some m
            /\ captures m = [skipWhite t].
Proof.
  intros Hlang Hfence Hne. eexists. split.
  - apply searchFrom_here. unfold matchAt.
    apply (block_match found lang t [] _ _ Hlang Hfence Hne). reflexivity.
  - reflexivity.
Qed.

(** *** The placeholder *)

Lemma getProp_setProp_eq (k : string) (v : Json.value)
    (fields : list (string * Json.value)) :
  Json.getProp k (Json.setProp k v fields) = Some v.
Proof.
  induction fields as [|[k0 x] rest IH]; cbn [Json.setProp Json.getProp].
  - now rewrite String.eqb_refl.
  - destruct (String.eqb k0 k) eqn:E; cbn [Json.getProp]; rewrite E; [reflexivity | exact IH].
Qed.

Lemma getProp_setProp_ne (k k' : string) (v : Json.value)
    (fields : list (string * Json.value)) :
  k <> k' -> Json.getProp k (Json.setProp k' v fields) = Json.getProp k fields.
Proof.
  intros Hne. induction fields as [|[k0 x] rest IH]; cbn [Json.setProp Json.getProp].
  - destruct (String.eqb_spec k' k); [congruence | reflexivity].
  - destruct (String.eqb_spec k0 k'); cbn [Json.getProp].
    + destruct (String.eqb_spec k0 k); [congruence | reflexivity].
    + destruct (String.eqb_spec k0 k); [reflexivity | exact IH].
Qed.

Definition placeholderStep (text : string) (result : list (string * Json.value))
    (kp : string * PropSchema) : list (string * Json.value) :=
  Json.setProp (fst kp) (basicValue (fst kp) (snd kp) text) result.

Lemma placeholder_keeps (props : list (string * PropSchema)) (text key : string)
    (acc : list (string * Json.value)) :
  ~ In key (map fst props) ->
  Json.getProp key (fold_left (placeholderStep text) props acc) = Json.getProp key acc.
Proof.
  revert acc. induction props as [|[k p] rest IH]; intros acc Hnot; [reflexivity|].
  cbn [fold_left]. rewrite IH by (intros H; apply Hnot; now right).
  unfold placeholderStep. cbn [fst snd]. apply getProp_setProp_ne.
  intros ->. apply Hnot. now left.
Qed.

Lemma placeholder_has (props : list (string * PropSchema)) (text key : string)
    (prop : PropSchema) (acc : list (string * Json.value)) :
  List.NoDup (map fst props) -> In (key, prop) props ->
  Json.getProp key (fold_left (placeholderStep text) props acc)
  = Some (basicValue key prop text).
Proof.
  revert acc. induction props as [|[k p] rest IH]; intros acc Hnd Hin; [destruct Hin|].
  cbn [map fst] in Hnd. inversion Hnd as [|? ? Hnot Hnd']; subst.
  cbn [fold_left]. destruct Hin as [Heq|Hin].
  - inversion Heq; subst. rewrite placeholder_keeps by exact Hnot.
    unfold placeholderStep. cbn [fst snd]. apply getProp_setProp_eq.
  - now apply IH.
Qed.

(** The types the placeholder knows. *)
Definition knownType (type : string) : bool :=
  String.eqb type "string" || String.eqb type "boolean"
  || String.eqb type "array" || String.eqb type "object".

Lemma basicValue_known (key : string) (prop : PropSchema) (text : string) :
  knownType (prop_type prop) = true ->
  hasType (prop_type prop) (basicValue key prop text) = true.
Proof.
  unfold knownType, basicValue.
  destruct (String.eqb_spec (prop_type prop) "string") as [->|].
  { intros _. destruct (String.eqb key "plan"); reflexivity. }
  destruct (String.eqb_spec (prop_type prop) "boolean") as [->|]; [reflexivity|].
  destruct (String.eqb_spec (prop_type prop) "array") as [->|].
  { intros _. destruct (prop_items prop) as [items|]; [|reflexivity].
    destruct (String.eqb (items_type items) "object"); reflexivity. }
  destruct (String.eqb_spec (prop_type prop) "object") as [->|]; [reflexivity|].
  discriminate.
Qed.

Lemma basicValue_other (key : string) (prop : PropSchema) (text : string) :
  knownType (prop_type prop) = false -> basicValue key prop text = Json.Null.
Proof.
  unfold knownType, basicValue.
  destruct (String.eqb (prop_type prop) "string"); [discriminate|].
  destruct (String.eqb (prop_type prop) "boolean"); [discriminate|].
  destruct (String.eqb (prop_type prop) "array"); [discriminate|].
  destruct (String.eqb (prop_type prop) "object"); [discriminate | reflexivity].
Qed.

Section Reading.
Variable JSON_parse : string -> option Json.value.
(** What is assumed of [JSON.parse]: it rejects the empty text and a text
    that starts with a backtick, skips the white space of JSON at the start
    and rejects any other white space there. *)
Hypothesis parse_empty : JSON_parse EmptyString = None.
Hypothesis parse_white : forall c s,
  isWhiteSpace c = true ->
  JSON_parse (String c s) = if isJsonWhiteSpace c then JSON_parse s else None.
Hypothesis parse_backtick : forall s, JSON_parse (String "`" s) = None.

Local Abbreviation read := (getStructuredResponse JSON_parse).
Local Abbreviation extract := (extractJsonFromText JSON_parse).

Lemma parse_skipWhite (t : string) (v : Json.value) :
  JSON_parse t = Some v ->
  JSON_parse (skipWhite t) = Some v /\ JS.truthy (skipWhite t) = true.
Proof.
  induction t as [|c t IH].
  - rewrite parse_empty. discriminate.
  - cbn [skipWhite]. destruct (isWhiteSpace c) eqn:Hc; [|now split].
    rewrite (parse_white c t Hc).
    destruct (isJsonWhiteSpace c); [exact IH | discriminate].
Qed.

Lemma parse_fenced (lang t : string) : JSON_parse (fenced lang t) = None.
Proof. apply parse_backtick. Qed.

(** The extraction reads the inside of the block. *)
Lemma extract_fenced (lang t : string) (v : Json.value) :
  lang = EmptyString \/ lang = "json" ->
  JSON_parse t = Some v ->
  includes t fence = false ->
  extract (fenced lang t) = Some v.
Proof.
  intros Hlang Hparse Hfence.
  destruct (parse_skipWhite t v Hparse) as [Hinner Hne].
  destruct (search_fenced lang t Hlang Hfence Hne) as [m [Hsearch Hcaps]].
  unfold extractJsonFromText. rewrite parse_fenced, Hsearch, Hcaps.
  cbn [orElse nth]. rewrite Hne, Hinner. reflexivity.
Qed.

(** C9 (amended): let a text be read by [JSON.parse] as a value and hold
    no run of three backticks. Alone, it is answered as that value. Wrapped
    in a fenced block, with or without the language, it is answered as the
    same value when the value is truthy; when the value is [null], [false],
    zero or the empty string, the wrapped answer is the placeholder
    instead. The placeholder is also what is answered whenever the answer
    is not JSON and the extraction finds nothing or something falsy. It is
    an object with one property for every property of the schema: a value
    of the named type for the types string, boolean, array and object, and
    [null] for every other type. *)
Theorem C9_fenced_read_as_bare :
  (forall schema lang t v,
      lang = EmptyString \/ lang = "json" ->
      JSON_parse t = Some v ->
      includes t fence = false ->
      read schema t = v
      /\ (Json.truthy v = true -> read schema (fenced lang t) = v)
      /\ (Json.truthy v = false ->
            read schema (fenced lang t)
            = createBasicResponseFromSchema schema (fenced lang t)))
  /\ (forall schema text,
        JSON_parse text = None ->
        match extract text with
        | Some found => Json.truthy found = false
        | None => True
        end ->
        read schema text = createBasicResponseFromSchema schema text)
  /\ (forall schema props text key prop,
        schema_properties schema = Some props ->
        List.NoDup (map fst props) ->
        In (key, prop) props ->
        exists fields,
          createBasicResponseFromSchema schema text = Json.Obj fields
          /\ Json.getProp key fields = Some (basicValue key prop text))
  /\ (forall key prop text,
        (knownType (prop_type prop) = true ->
           hasType (prop_type prop) (basicValue key prop text) = true)
        /\ (knownType (prop_type prop) = false ->
              basicValue key prop text = Json.Null)).
Proof.
  split; [|split; [|split]].
  - intros schema lang t v Hlang Hparse Hfence.
    pose proof (extract_fenced lang t v Hlang Hparse Hfence) as Hex.
    unfold getStructuredResponse. rewrite Hparse, parse_fenced, Hex.
    split; [reflexivity|]. split; intros ->; reflexivity.
  - intros schema text Hparse Hex. unfold getStructuredResponse. rewrite Hparse.
    destruct (extract text) as [found|]; [now rewrite Hex | reflexivity].
  - intros schema props text key prop Hprops Hnd Hin.
    unfold createBasicResponseFromSchema. rewrite Hprops. cbn [default].
    eexists. split; [reflexivity|].
    exact (placeholder_has props text key prop [] Hnd Hin).
  - intros key prop text. split; [apply basicValue_known | apply basicValue_other].
Qed.

End Reading.

Lemma toy_white (c : ascii) (s : string) :
  isWhiteSpace c = true ->
  toyParse (String c s) = if isJsonWhiteSpace c then toyParse s else None.
Proof.
  intros Hc. cbn [toyParse]. destruct (isJsonWhiteSpace c) eqn:Hj; [reflexivity|].
  destruct c as [[] [] [] [] [] [] [] []]; try discriminate; reflexivity.
Qed.

(** A fenced empty object is read as the bare one. *)
Lemma C9_fenced_read_as_bare_witness :
  getStructuredResponse toyParse planSchema "{}" = Json.Obj []
  /\ getStructuredResponse toyParse planSchema (fenced "json" "{}") = Json.Obj [].
Proof.
  destruct (C9_fenced_read_as_bare toyParse eq_refl toy_white (fun s => eq_refl))
    as [Hsame _].
  destruct (Hsame planSchema "json" "{}" (Json.Obj []))
    as [Hbare [Hfenced _]]; [now right | reflexivity | reflexivity |].
  split; [exact Hbare | exact (Hfenced eq_refl)].
Defined.

(** A fenced [false] is answered as the placeholder, a bare one as
    [false]. *)
Lemma C9_counterexample :
  getStructuredResponse toyParse planSchema "false" = Json.Bool false
  /\ getStructuredResponse toyParse planSchema (fenced "json" "false")
     = Json.Obj [("plan", Json.Str (fenced "json" "false"));
                 ("listo", Json.Bool false); ("total", Json.Null)].
Proof. split; vm_compute; reflexivity. Qed.

End GeminiSpec.

(* ================================================================== *)
(** * Further properties of the command executor *)
(* ================================================================== *)

Module ExecutorFacts.
Import JS Host Executor.

Section Handler.
Variable World : Type.
Variable spawn : string -> World -> ProcResult * World.

Local Abbreviation journal := (ExecutorSpec.journal World spawn).

(** X1: nothing is run in a container before the request has been
    checked. Without a container id the handler answers 400 and starts no
    process at all; when the existence check fails it answers 404 and the
    check is the only process it started. *)
Theorem POST_checks_before_running
    (containerId : string) (command : list string) (w : World) :
  (truthy containerId = false ->
     status (fst (POST World spawn containerId command w)) = 400%nat
     /\ journal containerId command w = [])
  /\ (truthy containerId = true ->
      containerExists World spawn containerId w = false ->
        status (fst (POST World spawn containerId command w)) = 404%nat
        /\ error (body (fst (POST World spawn containerId command w)))
           = Some ("El contenedor " +:+ containerId +:+ " no existe")
        /\ journal containerId command w
           = ["docker container inspect " +:+ containerId]).
Proof.
  split.
  - intros Hid. unfold ExecutorSpec.journal, POST. rewrite Hid. split; reflexivity.
  - intros Hid Hex. unfold ExecutorSpec.journal, POST, containerExists in *.
    rewrite Hid. cbn [negb]. rewrite ExecutorSpec.execSync_logged.
    destruct (execSync World spawn ("docker container inspect " +:+ containerId)
                defaultMaxBuffer w) as [[o|e] w1]; [discriminate|].
    repeat split.
Qed.

(** X2: a command that exits with a status other than 0, with both streams
    within the buffer ceiling, is answered with HTTP status 200: the
    failure is in the body, which has [success = false] and the standard
    error of the process as [stderr]. When the process wrote to its
    standard error, [output] is that text and [details] is
    [Command failed: ], the command line, a line feed and that text; when
    it wrote nothing there, [output] and [details] are both
    [Command failed: ] and the command line, with nothing after it. *)
Theorem POST_failure_is_answered_200
    (containerId : string) (command : list string) (w : World) :
  truthy containerId = true ->
  containerExists World spawn containerId w = true ->
  let r := fst (spawn (execLine containerId command)
                  (worldBeforeExec World spawn containerId w)) in
  let response := fst (POST World spawn containerId command w) in
  (N.of_nat (String.length (pr_stdout r)) <= maxBuffer)%N ->
  (N.of_nat (String.length (pr_stderr r)) <= maxBuffer)%N ->
  pr_status r <> 0%Z ->
  status response = 200%nat
  /\ ok response = true
  /\ success (body response) = Some false
  /\ error (body response) = Some "Error al ejecutar comando"
  /\ stderr (body response) = Some (pr_stderr r)
  /\ (truthy (pr_stderr r) = true ->
      details (body response)
      = Some ("Command failed: " +:+ execLine containerId command +:+ nl
              +:+ pr_stderr r)
      /\ output (body response) = Some (pr_stderr r))
  /\ (pr_stderr r = EmptyString ->
      details (body response)
      = Some ("Command failed: " +:+ execLine containerId command)
      /\ output (body response)
         = Some ("Command failed: " +:+ execLine containerId command)).
Proof.
  intros Hid Hex r response Hout Herr Hst. subst response.
  rewrite (ExecutorSpec.POST_existing World spawn containerId command w Hid Hex).
  unfold execSync. subst r.
  destruct (spawn (execLine containerId command) _) as [r w3]. cbn [fst] in *.
  apply N.ltb_ge in Hout. apply N.ltb_ge in Herr. apply Z.eqb_neq in Hst.
  rewrite Hout, Herr, Hst. cbn. unfold or_else.
  destruct (pr_stderr r) as [|c e]; cbn.
  - rewrite StringFacts.app_nil_r.
    repeat split; try discriminate; intros _; split; reflexivity.
  - repeat split; try discriminate; intros _; split; reflexivity.
Qed.

End Handler.

(** X3: the rewriting of the submitted tokens is done once: tokens the
    handler has rewritten are not rewritten again. *)
Theorem modifiedCommand_idempotent (command : list string) :
  modifiedCommand (modifiedCommand command) = modifiedCommand command.
Proof.
  unfold modifiedCommand.
  destruct (isMkdirWithoutP command) eqn:Hm.
  - unfold isMkdirWithoutP in Hm. apply andb_true_iff in Hm as [H0 _].
    destruct command as [|c0 rest]; [discriminate|].
    unfold at_is in H0. cbn in H0. apply String.eqb_eq in H0. subst c0.
    reflexivity.
  - destruct (isEchoRedirect command) eqn:He; [reflexivity|].
    now rewrite Hm, He.
Qed.

Lemma POST_checks_before_running_witness :
  status (fst (POST unit Scenario.failingHost "zz" ["ls"] tt)) = 404%nat
  /\ ExecutorSpec.journal unit Scenario.failingHost "zz" ["ls"] tt
     = ["docker container inspect zz"].
Proof.
  destruct (POST_checks_before_running unit Scenario.failingHost "zz" ["ls"] tt)
    as [_ H].
  destruct (H eq_refl eq_refl) as [Hs [_ Hj]]. split; [exact Hs | exact Hj].
Defined.

Lemma POST_failure_is_answered_200_witness :
  status (fst (POST unit Scenario.failingHost "c1" ["cat"; "notes.txt"] tt)) = 200%nat
  /\ success (body (fst (POST unit Scenario.failingHost "c1" ["cat"; "notes.txt"] tt)))
     = Some false
  /\ output (body (fst (POST unit Scenario.failingHost "c1" ["cat"; "notes.txt"] tt)))
     = Some "cat: notes.txt: No such file or directory"
  /\ output (body (fst (POST unit Scenario.silentHost "c1" ["false"] tt)))
     = Some ("Command failed: docker exec c1 " +:+ dq +:+ "false" +:+ dq).
Proof.
  destruct (POST_failure_is_answered_200 unit Scenario.failingHost "c1"
              ["cat"; "notes.txt"] tt eq_refl eq_refl)
    as [Hs [_ [Hf [_ [_ [Ho _]]]]]];
    [vm_compute; discriminate | vm_compute; discriminate | vm_compute; discriminate |].
  destruct (POST_failure_is_answered_200 unit Scenario.silentHost "c1"
              ["false"] tt eq_refl eq_refl)
    as [_ [_ [_ [_ [_ [_ Hq]]]]]];
    [vm_compute; discriminate | vm_compute; discriminate | vm_compute; discriminate |].
  split; [exact Hs|]. split; [exact Hf|].
  split; [exact (proj2 (Ho eq_refl)) | exact (proj2 (Hq eq_refl))].
Defined.

End ExecutorFacts.

(* ================================================================== *)
(** * Further properties of the command repair *)
(* ================================================================== *)

Module RepairFacts.
Import JS Host Eff Repair.

(** The strategy the chain of rules gives an error text (lines 276-378). *)
Definition strategyOf (errorMsg : string) : string :=
  if includes errorMsg "No such file or directory" then "file_not_found"
  else if includes errorMsg "Permission denied" then "permission_denied"
  else if includes errorMsg "command not found" || includes errorMsg "not found"
  then "command_not_found"
  else if includes errorMsg "unexpected token" || includes errorMsg "syntax error"
  then "syntax_error"
  else "general_fallback".

Lemma length_replaceAllChar (c : ascii) (r s : string) :
  (1 <= String.length r)%nat ->
  (String.length s <= String.length (replaceAllChar c r s))%nat.
Proof.
  intros Hr. induction s as [|x s IH]; cbn [replaceAllChar]; [lia|].
  destruct (Ascii.eqb x c); [rewrite StringFacts.length_app|]; cbn [String.length]; lia.
Qed.

(** A command is never its own wrapping in [bash -c]. *)
Lemma bashWrap_differs (cmd : string) : String.eqb cmd (bashWrap cmd) = false.
Proof.
  apply String.eqb_neq. intros H. apply (f_equal String.length) in H.
  unfold bashWrap in H. rewrite !StringFacts.length_app in H.
  pose proof (length_replaceAllChar "034" (bs +:+ dq) cmd ltac:(cbn; lia)).
  cbn [String.length dq] in H. lia.
Qed.

Lemma replaceAllChar_absent (c : ascii) (r s : string) :
  includes s (String c EmptyString) = false -> replaceAllChar c r s = s.
Proof.
  induction s as [|x s IH]; [reflexivity|].
  cbn [includes startsWith replaceAllChar]. rewrite andb_true_r.
  intros H. apply orb_false_elim in H as [Hx Hs].
  rewrite Ascii.eqb_sym, Hx. now rewrite IH.
Qed.

Lemma dropSpaces_dark (w2 : ascii -> ascii -> bool)
    (w3 : ascii -> ascii -> ascii -> bool) (c : ascii) (s : string) :
  isWhiteSpace c = false ->
  (forall b, w2 c b = false) ->
  (forall b d, w3 c b d = false) ->
  dropSpaces w2 w3 (String c s) = String c s.
Proof.
  intros Hc H2 H3. cbn [dropSpaces]. rewrite Hc.
  destruct s as [|b s]; [reflexivity|]. rewrite H2.
  destruct s as [|d s]; [reflexivity|]. now rewrite H3.
Qed.

Lemma reverseOnto_app (s t acc : string) :
  reverseOnto (s +:+ t) acc = reverseOnto t (reverseOnto s acc).
Proof.
  revert acc. induction s as [|x s IH]; intros acc; [reflexivity|].
  cbn [String.append reverseOnto]. apply IH.
Qed.

Lemma reverseOnto_reverseOnto (s acc : string) :
  reverseOnto (reverseOnto s acc) EmptyString = reverseOnto acc s.
Proof.
  revert acc. induction s as [|x s IH]; intros acc; [reflexivity|].
  cbn [reverseOnto]. now rewrite IH.
Qed.

Lemma reverse_reverse (s : string) : reverse (reverse s) = s.
Proof. unfold reverse. now rewrite reverseOnto_reverseOnto. Qed.

(** A text that ends with a double quote ends with no white space. *)
Lemma trimEnd_ends_quote (s : string) : trimEnd (s +:+ dq) = s +:+ dq.
Proof.
  unfold trimEnd.
  assert (Hrev : reverse (s +:+ dq) = String "034" (reverse s)).
  { unfold reverse. now rewrite reverseOnto_app. }
  rewrite Hrev, dropSpaces_dark.
  - rewrite <- Hrev. apply reverse_reverse.
  - reflexivity.
  - intros b. apply andb_false_r.
  - intros b d. unfold wideSpace3.
    change (nat_of_ascii "034") with 34%nat. cbn [Nat.eqb Nat.leb].
    now rewrite !andb_false_r.
Qed.

Lemma stripTrailingQuote_cons (c x : ascii) (s : string) :
  stripTrailingQuote (String c (String x s)) = String c (stripTrailingQuote (String x s)).
Proof. destruct c as [[] [] [] [] [] [] [] []]; reflexivity. Qed.

Lemma stripTrailingQuote_app (s : string) : stripTrailingQuote (s +:+ dq) = s.
Proof.
  induction s as [|c s IH]; [reflexivity|].
  cbn [String.append]. destruct s as [|x s].
  - cbn [String.append] in *. unfold dq. rewrite stripTrailingQuote_cons.
    reflexivity.
  - cbn [String.append] in *. rewrite stripTrailingQuote_cons. now rewrite IH.
Qed.

(** What is between the quotes comes back out of them. *)
Lemma unquote_quoted (s : string) : stripQuotes (trim (dq +:+ s +:+ dq)) = s.
Proof.
  unfold trim.
  replace (trimStart (dq +:+ s +:+ dq)) with (dq +:+ s +:+ dq)
    by (symmetry; apply dropSpaces_dark; reflexivity).
  rewrite <- StringFacts.app_assoc, trimEnd_ends_quote.
  rewrite StringFacts.app_assoc. unfold stripQuotes.
  change (stripLeadingQuote (dq +:+ s +:+ dq)) with (s +:+ dq).
  apply stripTrailingQuote_app.
Qed.

(** X4: the script handed to [bash -c] for a wrapped command is the
    command with a backslash put before every double quote; it is the
    command itself when the command holds no double quote. *)
Theorem commandParts_bashWrap (cmd : string) :
  commandParts (bashWrap cmd)
  = ["bash"; "-c"; replaceAllChar "034" (bs +:+ dq) cmd]
  /\ (includes cmd dq = false -> commandParts (bashWrap cmd) = ["bash"; "-c"; cmd]).
Proof.
  assert (H : commandParts (bashWrap cmd)
              = ["bash"; "-c"; replaceAllChar "034" (bs +:+ dq) cmd]).
  { unfold commandParts, bashWrap.
    change (startsWith ("bash -c " +:+ ?x) "bash -c") with true. cbv iota.
    change (substring_from 8 ("bash -c " +:+ ?x)) with x.
    now rewrite unquote_quoted. }
  split; [exact H|]. intros Hq. rewrite H. now rewrite replaceAllChar_absent.
Qed.

Section Rules.
Variable World : Type.
Variable spawn : string -> World -> ProcResult * World.
Variable regExpReplace : string -> string -> string -> string + thrown.

Local Abbreviation repair := (shell_fix_command World spawn regExpReplace).

Lemma keeps_commandNotFound_rest (cid cmd : string) (st : St World) r st' :
  commandNotFound World spawn regExpReplace cid cmd st = (r, st') ->
  fixStrategy st' = "command_not_found".
Proof.
  unfold commandNotFound, bind at 1. simpl. intros H.
  match type of H with ?m ?s = _ =>
    assert (K : RepairSpec.keeps World m); [| rewrite (K _ _ _ H); reflexivity] end.
  apply RepairSpec.keeps_bind.
  - destruct (_ || _).
    + apply RepairSpec.keeps_bind; [apply RepairSpec.keeps_exec|]. intros v.
      destruct (includes v "python3"); [apply RepairSpec.keeps_setFixed|].
      destruct (includes v "python");
        [apply RepairSpec.keeps_setFixed | apply RepairSpec.keeps_ret].
    + destruct (_ || _); [|apply RepairSpec.keeps_ret].
      apply RepairSpec.keeps_bind; [apply RepairSpec.keeps_exec|]. intros v.
      destruct (_ && _); [apply RepairSpec.keeps_setFixed | apply RepairSpec.keeps_ret].
  - intros _. apply RepairSpec.keeps_bind; [apply RepairSpec.keeps_getFixed|]. intros f.
    destruct (String.eqb f cmd); [|apply RepairSpec.keeps_ret].
    apply RepairSpec.keeps_bind; [apply RepairSpec.keeps_exec|]. intros v.
    destruct (negb _); [|apply RepairSpec.keeps_ret].
    apply RepairSpec.keeps_bind; [apply RepairSpec.keeps_replaceMainCommand|].
    intros; apply RepairSpec.keeps_setFixed.
Qed.

(** When the rewriting ends, by returning or by throwing, [fixStrategy]
    holds the strategy of the error text, unless a rule threw, which leaves
    the strategy of that rule. *)
Lemma computeFix_strategy (cid cmd err : string) (w : World) (st' : St World) :
  computeFix World spawn regExpReplace cid cmd err (initial World cmd w) = (inl tt, st') ->
  fixStrategy st' = strategyOf err.
Proof.
  unfold computeFix, strategyOf.
  unfold bind at 1. cbn [setStrategy initial world fixedCommand fixStrategy].
  unfold bind at 1. cbn [setFixed world fixedCommand fixStrategy].
  unfold bind at 1.
  destruct (includes err "No such file or directory").
  { destruct (fileNotFound World spawn cid cmd _) as [[[]|e] s1] eqn:E; [|discriminate].
    pose proof (RepairSpec.fileNotFound_strategy _ _ _ _ _ _ _ E) as Hs.
    unfold bind, getStrategy. rewrite Hs. cbn. intros H. inversion H; subst. exact Hs. }
  destruct (includes err "Permission denied").
  { unfold permissionDenied, bind, setStrategy, setFixed, getStrategy, ret.
    destruct (negb _); cbn; intros H; inversion H; reflexivity. }
  destruct (_ || _).
  { destruct (commandNotFound World spawn regExpReplace cid cmd _) as [[[]|e] s1] eqn:E; [|discriminate].
    pose proof (keeps_commandNotFound_rest _ _ _ _ _ E) as Hs.
    unfold bind, getStrategy. rewrite Hs. cbn. intros H. inversion H; subst. exact Hs. }
  destruct (_ || _).
  { unfold syntaxError, bind, setStrategy, setFixed, getStrategy, ret. cbn.
    intros H; inversion H; reflexivity. }
  unfold bind, ret, getStrategy, setStrategy, setFixed. cbn.
  rewrite bashWrap_differs. cbn. intros H; inversion H; reflexivity.
Qed.

(** X5: the strategy the callback reports depends on the error text
    alone: it is that of the first rule the text matches, and
    [general_fallback] when it matches none; it is never [unknown]. A
    result without a strategy is the report of an exception. *)
Theorem strategy_from_error_text (cid cmd err : string) (w : World) :
  let result := fst (repair cid cmd err w) in
  (fix_strategy result = Some (strategyOf err)
   \/ (fix_strategy result = None /\ success result = false
       /\ fixed_command result = None))
  /\ fix_strategy result <> Some "unknown".
Proof.
  cbv zeta.
  assert (Hnot : strategyOf err <> "unknown").
  { unfold strategyOf. repeat destruct (includes _ _); cbn; discriminate. }
  destruct (repair cid cmd err w) as [result st] eqn:Hrun. cbn [fst].
  assert (H : fix_strategy result = Some (strategyOf err)
              \/ (fix_strategy result = None /\ success result = false
                  /\ fixed_command result = None)).
  { revert Hrun. unfold shell_fix_command, tryBody. unfold bind at 1.
    destruct (computeFix World spawn regExpReplace cid cmd err (initial World cmd w))
      as [[[]|e] s1] eqn:E.
    - pose proof (computeFix_strategy _ _ _ _ _ E) as Hs.
      unfold bind at 1.
      destruct (runFixed World spawn cid s1) as [[r|e] s2] eqn:E2.
      + pose proof (RepairSpec.keeps_runFixed World spawn cid _ _ _ E2) as Hk.
        unfold bind, getStrategy, getFixed, ret. intros H. inversion H; subst.
        left. cbn. now rewrite Hk, Hs.
      + intros H. inversion H; subst. right. repeat split.
    - intros H. inversion H; subst. right. repeat split. }
  split; [exact H|].
  destruct H as [H | [H _]]; rewrite H; [|discriminate].
  intros Heq. inversion Heq. contradiction.
Qed.

(** X6: a permission error starts no lookup. The command gets [sudo] in
    front, or is wrapped in [bash -c] when it starts with [sudo] already,
    and the executor is called once, in the world of the call, with the
    tokens of that command; the answer of this one call is the result. *)
Theorem permission_denied_one_call (cid cmd err : string) (w : World) :
  includes err "No such file or directory" = false ->
  includes err "Permission denied" = true ->
  let fixed := if startsWith cmd "sudo " then "bash -c " +:+ dq +:+ cmd +:+ dq
               else "sudo " +:+ cmd in
  let tokens := if startsWith cmd "sudo " then ["bash"; "-c"; cmd]
                else "sudo" :: split space cmd in
  repair cid cmd err w
  = match ServerService.executeCommand World spawn cid tokens w with
    | (inl text, w') =>
        ({| original_command := cmd; fixed_command := Some fixed;
            fix_strategy := Some "permission_denied";
            success := true; output := Some text; error := None |},
         mkSt w' "permission_denied" fixed)
    | (inr e, w') =>
        ({| original_command := cmd; fixed_command := Some fixed;
            fix_strategy := Some "permission_denied";
            success := false;
            output := Some (message_or "Error al ejecutar comando corregido" e);
            error := None |},
         mkSt w' "permission_denied" fixed)
    end.
Proof.
  intros Hfile Hperm fixed tokens.
  assert (Hparts : commandParts fixed = tokens).
  { subst fixed tokens. destruct (startsWith cmd "sudo ") eqn:Hsudo.
    - unfold commandParts.
      change (startsWith ("bash -c " +:+ ?x) "bash -c") with true. cbv iota.
      change (substring_from 8 ("bash -c " +:+ ?x)) with x.
      now rewrite unquote_quoted.
    - unfold commandParts.
      change (startsWith ("sudo " +:+ cmd) "bash -c") with false. cbv iota.
      replace (includes ("sudo " +:+ cmd) " ") with true
        by reflexivity.
      reflexivity. }
  unfold shell_fix_command, tryBody, computeFix.
  rewrite Hfile, Hperm.
  unfold permissionDenied, runFixed, bind, tryCatch, setStrategy, setFixed,
    getStrategy, getFixed, ret, Repair.exec, initial.
  cbn [world fixStrategy fixedCommand negb].
  fold fixed.
  destruct (startsWith cmd "sudo ") eqn:Hsudo; cbn [negb];
    cbn [world fixStrategy fixedCommand String.eqb Ascii.eqb Bool.eqb andb];
    subst fixed; cbv zeta; rewrite Hparts;
    destruct (ServerService.executeCommand World spawn cid tokens w) as [[text|e] w'];
    reflexivity.
Qed.

End Rules.

Lemma permission_denied_one_call_witness :
  fst (shell_fix_command unit Scenario.workingHost Scenario.noRegExp
         "c1" "ls /root" "ls: cannot open directory: Permission denied" tt)
  = {| original_command := "ls /root"; fixed_command := Some "sudo ls /root";
       fix_strategy := Some "permission_denied";
       success := true; output := Some "done"; error := None |}.
Proof.
  rewrite (permission_denied_one_call unit Scenario.workingHost Scenario.noRegExp
             "c1" "ls /root" "ls: cannot open directory: Permission denied" tt
             eq_refl eq_refl).
  reflexivity.
Defined.

End RepairFacts.

(* ================================================================== *)
(** * Further properties of the container routes *)
(* ================================================================== *)

Module RoutesFacts.
Import JS Host Eff Routes.

Lemma mapM_inl {A B} (f : A -> B + thrown) (l : list A) :
  (exists l', mapM f l = inl l') <-> (forall x, In x l -> exists y, f x = inl y).
Proof.
  induction l as [|a t IH]; cbn [mapM].
  - split; [intros _ x [] | eauto].
  - split.
    + intros [l' H] x [<-|Hx].
      * destruct (f a); [eauto | discriminate].
      * destruct (f a); [|discriminate].
        destruct (mapM f t) eqn:E; [|discriminate]. apply IH; eauto.
    + intros H. destruct (H a (or_introl eq_refl)) as [y ->].
      destruct (proj2 IH (fun x Hx => H x (or_intror Hx))) as [l' ->]. eauto.
Qed.

(** A line is read when it has at least four fields. *)
Lemma parseLine_inl (line : string) :
  (exists c, parseLine line = inl c) <-> (4 <= length (split pipe line))%nat.
Proof.
  unfold parseLine.
  destruct (split pipe line) as [|i [|n [|im [|st rest]]]]; cbn [length];
    split; try (intros [c H]; discriminate); try lia; eauto.
Qed.

Section Handlers.
Variable World : Type.
Variable spawn : string -> World -> ProcResult * World.
Variable now : World -> Z.
Variable toISOString : Z -> string.
Variable firstOfParsed : string -> bool.

Local Abbreviation LWorld := (World * list string)%type.
Local Abbreviation lspawn := (logged spawn).

(** X7: the list endpoint answers 200 exactly when the listing command
    succeeds and every line of its output that is not blank has at least
    four fields; one shorter line makes the whole listing fail with 500. *)
Theorem GET_containers_status (w : World) :
  let response := fst (GET_containers World spawn w) in
  (Host.status response = 200%nat \/ Host.status response = 500%nat)
  /\ (Host.status response = 200%nat <->
      exists output,
        fst (run World spawn psFull w) = inl output
        /\ forall line, In line (outputLines output) ->
             (4 <= length (split pipe line))%nat).
Proof.
  cbv zeta. unfold GET_containers.
  destruct (run World spawn psFull w) as [[output|e] w1]; cbn [fst].
  - destruct (mapM parseLine (outputLines output)) as [containers|e] eqn:E; cbn.
    + split; [now left|]. split; [intros _|reflexivity].
      exists output. split; [reflexivity|]. intros line Hl.
      apply parseLine_inl. revert line Hl. apply mapM_inl. eauto.
    + split; [now right|]. split; [discriminate|].
      intros [output' [Ho Hall]]. inversion Ho; subst output'.
      assert (exists l', mapM parseLine (outputLines output) = inl l') as [l' Hl'].
      { apply mapM_inl. intros x Hx. apply parseLine_inl. now apply Hall. }
      congruence.
  - cbn. split; [now right|]. split; [discriminate|].
    intros [output [Ho _]]. discriminate.
Qed.

(** X8: a container created without a name of its own, or without an
    image of its own, is one the list endpoint shows: the name the handler
    gives starts with codeai-container- and the default image holds codeai
    as well. *)
Theorem POST_container_default_is_listed (config : DockerContainerConfig) (w : World)
    (info : ContainerInfo) :
  default EmptyString (cfg_name config) = EmptyString
  \/ cfg_image config = EmptyString ->
  body (fst (POST_container World spawn now toISOString firstOfParsed config w))
  = inl info ->
  isAppContainer info = true.
Proof.
  intros Hdefault. unfold POST_container.
  destruct (run World spawn _ w) as [[out|e] w1]; [|discriminate].
  destruct (run World spawn _ (probes World spawn (trim out) w1)) as [[ins|e] w3];
    [|discriminate].
  destruct (firstOfParsed ins); [|discriminate].
  cbn [fst body]. intros H. inversion H; subst info. unfold isAppContainer. cbn [name image].
  destruct Hdefault as [-> | ->]; [reflexivity|].
  cbn [or_else truthy]. apply orb_true_r.
Qed.

(** The command lines of DELETE /api/docker/container/[id]. *)
Definition deleteJournal (containerId : string) (w : World) : list string :=
  snd (snd (DELETE_container LWorld lspawn containerId (w, []))).

(** X9: the removal endpoint never forces a removal: [docker rm] is run
    only after [docker stop] of the same container has succeeded, and the
    answer is 200 only when the check, the stop and the removal have all
    been run, in this order. *)
Theorem DELETE_stops_before_removing (containerId : string) (w : World) :
  let inspect := "docker container inspect " +:+ containerId in
  let stop := "docker stop " +:+ containerId in
  let rm := "docker rm " +:+ containerId in
  let journal := deleteJournal containerId w in
  (journal = [] \/ journal = [inspect] \/ journal = [inspect; stop]
   \/ journal = [inspect; stop; rm])
  /\ (In rm journal ->
        exists out, fst (run World spawn stop (snd (spawn inspect w))) = inl out)
  /\ (Host.status (fst (DELETE_container World spawn containerId w)) = 200%nat ->
        journal = [inspect; stop; rm]).
Proof.
  cbv zeta. unfold deleteJournal, DELETE_container.
  assert (Hlen : forall a b : string,
             String.length a <> String.length b -> a +:+ containerId <> b +:+ containerId).
  { intros a b Hab H. apply (f_equal String.length) in H.
    rewrite !StringFacts.length_app in H. lia. }
  destruct (truthy containerId); cbn [negb].
  2:{ cbn. split; [now left|]. split; [intros [] | discriminate]. }
  rewrite RoutesSpec.run_logged.
  destruct (run World spawn ("docker container inspect " +:+ containerId) w)
    as [[o|e] w1] eqn:Hi; cbn [fst snd].
  2:{ split; [right; now left|]. split; [|discriminate].
      intros [H|[]]. exfalso. revert H. apply Hlen. cbn. lia. }
  assert (Hw : w1 = snd (spawn ("docker container inspect " +:+ containerId) w)).
  { apply (f_equal snd) in Hi. cbn [snd] in Hi. rewrite <- Hi.
    apply ExecutorSpec.execSync_world. }
  rewrite RoutesSpec.run_logged. rewrite <- Hw.
  destruct (run World spawn ("docker stop " +:+ containerId) w1)
    as [[o2|e2] w2]; cbn [fst snd].
  2:{ split; [right; right; now left|]. split; [|discriminate].
      intros [H|[H|[]]]; exfalso; revert H; apply Hlen; cbn; lia. }
  rewrite RoutesSpec.run_logged.
  destruct (run World spawn ("docker rm " +:+ containerId) w2)
    as [[o3|e3] w3]; cbn [fst snd];
    (split; [right; right; now right|]); (split; [eauto|]);
    [reflexivity | discriminate].
Qed.

(** A command line that spares the container to keep: the listing, or a
    stop or a removal none of whose words after [docker stop] or
    [docker rm] is the identifier to keep. *)
Definition sparing (keep line : string) : Prop :=
  line = psBrief
  \/ ((startsWith line "docker stop " = true \/ startsWith line "docker rm " = true)
      /\ ~ In keep (RoutesSpec.namedOn line)).

(** X10: the cleanup that keeps one container never names it. When no
    identifier of the listing holds a space, every command line of the
    handler is the listing, or a [docker stop] or a [docker rm] none of
    whose words after these two is the identifier to keep. Without an
    identifier to keep the handler answers 400 and runs nothing. *)
Theorem cleanup_others_spares_kept (keepContainerId : string) (w : World) :
  (RoutesSpec.unspaced World spawn w ->
   forall line,
     In line (RoutesSpec.cleanupOthersJournal World spawn keepContainerId w) ->
     sparing keepContainerId line)
  /\ (truthy keepContainerId = false ->
        Host.status (fst (POST_cleanup_others World spawn keepContainerId w)) = 400%nat
        /\ RoutesSpec.cleanupOthersJournal World spawn keepContainerId w = []).
Proof.
  split.
  2:{ intros H. unfold RoutesSpec.cleanupOthersJournal, POST_cleanup_others.
      rewrite H. split; reflexivity. }
  intros Hun line Hl.
  destruct (RoutesSpec.cleanupOthers_removals World spawn keepContainerId w line Hl)
    as [->|Hr]; [now left | right].
  destruct (RoutesSpec.namedOn_removal _ line Hr) as [Hstart [cs [Hnamed HP]]].
  { intros c [Hin _]. now apply Hun. }
  split; [exact Hstart|]. rewrite Hnamed. intros Hin.
  apply in_map_iff in Hin as [c [Hid Hc]]. destruct (HP c Hc) as [_ Hother].
  unfold isOther in Hother. destruct (briefIsApp c) as [b|]; [|discriminate].
  inversion Hother as [H]. apply andb_true_iff in H as [_ H].
  apply negb_true_iff in H. apply String.eqb_neq in H. contradiction.
Qed.

(** One result per container, in order, whatever failed. *)
Lemma removeEach_results (containers : list Brief) (w : World) :
  map cr_id (fst (removeEach World spawn containers w)) = map b_id containers.
Proof.
  revert w. induction containers as [|c t IH]; intros w; [reflexivity|].
  cbn [removeEach].
  destruct (run World spawn ("docker stop " +:+ b_id c) w) as [[o|e] w1].
  - destruct (run World spawn ("docker rm " +:+ b_id c) w1) as [[o2|e2] w2];
      specialize (IH w2); destruct (removeEach World spawn t w2) as [rs w3];
      cbn in *; now rewrite IH.
  - specialize (IH w1). destruct (removeEach World spawn t w1) as [rs w3].
    cbn in *. now rewrite IH.
Qed.

(** X11: the cleanup of all application containers answers 200 with
    [success = true] as soon as the listing could be read, whether or not
    any container could be stopped or removed; what failed shows only in
    the results, of which there is one per application container listed,
    in the order of the listing. *)
Theorem POST_cleanup_reports_every_container (w : World) (output : string)
    (containers : list Brief) :
  fst (run World spawn psBrief w) = inl output ->
  filterM briefIsApp (map parseBrief (outputLines output)) = inl containers ->
  let response := fst (POST_cleanup World spawn w) in
  Host.status response = 200%nat
  /\ exists b results,
       body response = inl b
       /\ cl_success b = true
       /\ cl_results b = Some results
       /\ map cr_id results = map b_id containers
       /\ (countRemoved results <= length containers)%nat.
Proof.
  intros Hps Hf. cbv zeta. unfold POST_cleanup.
  destruct (run World spawn psBrief w) as [[o|e] w1]; cbn [fst] in Hps; [|discriminate].
  inversion Hps; subst o. rewrite Hf.
  pose proof (removeEach_results containers w1) as Hres.
  destruct (removeEach World spawn containers w1) as [results w2]. cbn [fst] in *.
  split; [reflexivity|]. do 2 eexists. repeat split; [exact Hres|].
  unfold countRemoved. etransitivity; [apply List.filter_length_le|].
  rewrite <- (List.length_map cr_id), Hres, List.length_map. lia.
Qed.

End Handlers.

Lemma threeRunning_unspaced :
  RoutesSpec.unspaced Scenario.Dock Scenario.runtime Scenario.threeRunning.
Proof.
  intros c Hc. vm_compute in Hc. destruct Hc as [<-|[<-|[<-|[]]]]; reflexivity.
Qed.

(** Keeping [t3] among three containers: the batch names [t2] and [t1]. *)
Lemma cleanup_others_spares_kept_witness :
  RoutesSpec.cleanupOthersJournal Scenario.Dock Scenario.runtime "t3"
    Scenario.threeRunning
  = [psBrief; "docker stop t2 t1"; "docker stop t2"; "docker rm t2"; "docker stop t1"]
  /\ sparing "t3" "docker stop t2 t1"
  /\ RoutesSpec.namedOn "docker stop t2 t1" = ["t2"; "t1"].
Proof.
  destruct (cleanup_others_spares_kept Scenario.Dock Scenario.runtime "t3"
              Scenario.threeRunning) as [H _].
  split; [vm_compute; reflexivity|]. split; [|reflexivity].
  apply (H threeRunning_unspaced).
  replace (RoutesSpec.cleanupOthersJournal Scenario.Dock Scenario.runtime "t3"
             Scenario.threeRunning)
    with [psBrief; "docker stop t2 t1"; "docker stop t2"; "docker rm t2";
          "docker stop t1"] by (vm_compute; reflexivity).
  right. now left.
Defined.

End RoutesFacts.

(* ================================================================== *)
(** * Further properties of the pool service *)
(* ================================================================== *)

Module PoolFacts.
Import JS Host Eff Routes Pool.

Section Service.
Variable World : Type.
Variable spawn : string -> World -> ProcResult * World.
Variable now : World -> Z.
Variable toISOString : Z -> string.
Variable firstOfParsed : string -> bool.
Variable writeDockerfile : World -> option thrown * World.
Variable dateTime : string -> option Z.

Local Abbreviation getAll := (getAllContainers World spawn).
Local Abbreviation cleanup := (forceCleanupExceptLatest World spawn).
Local Abbreviation getAvailable :=
  (getAvailableContainer World spawn now toISOString firstOfParsed writeDockerfile dateTime).
Local Abbreviation init := (initialize World spawn now toISOString writeDockerfile).

(** The service with its world replaced: what the runtime does between
    two calls. *)
Definition inWorld (w : World) (st : St World) : St World :=
  mkSt w (containerPool st) (isInitialized st) (initPromise st) (requests st).

Lemma construct_failed (w w1 : World) (response : Response (InitBody + ErrorBody)) :
  POST_initialize World spawn now toISOString writeDockerfile w = (response, w1) ->
  ok response = false ->
  construct World spawn now toISOString writeDockerfile w
  = mkSt w1 ∅ false
      (Some (Some (error ("Error al inicializar Docker: " +:+ statusText response))))
      [ReqInitialize].
Proof.
  intros Hinit Hok. unfold construct, initialize, blank.
  cbn [isInitialized initPromise]. unfold bind at 1. unfold fetch.
  cbn [world containerPool isInitialized initPromise requests]. rewrite Hinit.
  destruct (body response) as [data|err]; rewrite ?Hok; reflexivity.
Qed.

(** X12: an initialization that failed is never tried again. When the
    initialization endpoint does not answer ok for the service under
    construction, every later call of [getAvailableContainer] throws the
    error of that first attempt and sends no request, whatever the runtime
    has become in the meantime. *)
Theorem failed_initialization_is_kept (w w1 : World)
    (response : Response (InitBody + ErrorBody)) :
  POST_initialize World spawn now toISOString writeDockerfile w = (response, w1) ->
  ok response = false ->
  forall (config : option DockerContainerConfig) (w' : World),
    let st := inWorld w' (construct World spawn now toISOString writeDockerfile w) in
    getAvailable config st
    = (inr (error ("Error al inicializar Docker: " +:+ statusText response)), st).
Proof.
  intros Hinit Hok config w'. cbv zeta.
  rewrite (construct_failed w w1 response Hinit Hok). reflexivity.
Qed.

Lemma removal_loop_total (keep : string) (l : list ContainerInfo) (st : St World) :
  exists st',
    forEach
      (fun container =>
         if negb (String.eqb (id container) keep) then
           tryCatch (removeContainer World spawn (id container)) (fun _ => ret tt)
         else ret tt) l st = (inl tt, st').
Proof.
  revert st. induction l as [|c t IH]; intros st; [eexists; reflexivity|].
  cbn [forEach]. unfold bind at 1.
  destruct (negb _).
  - unfold tryCatch.
    destruct (removeContainer World spawn (id c) st) as [[[]|e] st1]; cbn; apply IH.
  - cbn. apply IH.
Qed.

(** X13: the forced cleanup never throws, and what it answers says
    whether the listing worked: [true] when it did, whatever became of the
    removals, and [false] when it did not, in which case the listing is the
    only request that was sent. *)
Theorem forceCleanup_answers_listing (keepContainerId : string) (st : St World) :
  match getAll st with
  | (inl _, _) => exists st', cleanup keepContainerId st = (inl true, st')
  | (inr _, st1) =>
      cleanup keepContainerId st = (inl false, st1)
      /\ requests st1 = requests st ++ [ReqList]
  end.
Proof.
  destruct (getAll st) as [[l|e] st1] eqn:Hall.
  - destruct (removal_loop_total keepContainerId l st1) as [st' Hloop].
    exists st'. unfold forceCleanupExceptLatest. unfold tryCatch at 1.
    unfold bind at 1. rewrite Hall. unfold bind at 1. rewrite Hloop. reflexivity.
  - split.
    + unfold forceCleanupExceptLatest. unfold tryCatch at 1. unfold bind at 1.
      now rewrite Hall.
    + revert Hall. unfold getAllContainers. unfold bind at 1. unfold fetch.
      destruct (GET_containers World spawn (world st)) as [response w'].
      destruct (body response) as [containers|err].
      * destruct (ok response).
        -- unfold bind. rewrite PoolSpec.forEach_poolSet. discriminate.
        -- unfold throw. intros H. inversion H. reflexivity.
      * unfold throw. intros H. inversion H. reflexivity.
Qed.

Lemma recorded_origin (l : list ContainerInfo) (pool : gmap string ContainerInfo)
    (k : string) (c : ContainerInfo) :
  PoolSpec.recorded l pool !! k = Some c -> In c l \/ pool !! k = Some c.
Proof.
  revert pool. induction l as [|x t IH]; intros pool H; [now right|].
  cbn in H. apply IH in H as [H|H]; [left; now right|].
  destruct (decide (id x = k)) as [<-|Hne].
  - rewrite lookup_insert_eq in H. inversion H. left. now left.
  - rewrite lookup_insert_ne in H by exact Hne. now right.
Qed.

(** X14: a listing only ever adds to the pool of the service. After a
    listing that succeeds every listed container is in the pool under its
    identifier, every key that was in the pool is still there, and every
    entry is a listed container or the entry that was there before: a
    container that has left the runtime stays in the pool. *)
Theorem getAllContainers_only_adds (st st' : St World) (l : list ContainerInfo) :
  getAll st = (inl l, st') ->
  (forall c, In c l -> is_Some (containerPool st' !! id c))
  /\ (forall k, is_Some (containerPool st !! k) -> is_Some (containerPool st' !! k))
  /\ (forall k c, containerPool st' !! k = Some c ->
        In c l \/ containerPool st !! k = Some c).
Proof.
  unfold getAllContainers. unfold bind at 1. unfold fetch.
  destruct (GET_containers World spawn (world st)) as [response w'].
  destruct (body response) as [containers|err]; [|discriminate].
  destruct (ok response); [|discriminate].
  unfold bind. rewrite PoolSpec.forEach_poolSet. cbn. intros H. inversion H; subst.
  cbn [containerPool]. split; [|split].
  - intros c Hc. now apply PoolSpec.recorded_has.
  - intros k Hk. now apply PoolSpec.recorded_keeps.
  - intros k c Hc. now apply recorded_origin.
Qed.

End Service.
End PoolFacts.

(* ================================================================== *)
(** * Further properties of the planning flow *)
(* ================================================================== *)

Module PlannerFacts.
Import JS Host Eff Json Planner.

Lemma orDefault_truthy (a : option value) (b : value) :
  Json.truthy b = true -> Json.truthy (orDefault a b) = true.
Proof.
  intros Hb. unfold orDefault. destruct a as [x|]; [|exact Hb].
  destruct (Json.truthy x) eqn:Hx; [exact Hx | exact Hb].
Qed.

Section Flows.
Variable World : Type.
Variable createDetailedPlan :
  string -> list string + string -> string -> string -> World -> (value + thrown) * World.
Variable gatherFlow : AgenticPlanningInput -> World -> (FlowContext + thrown) * World.

(** X15: whatever the model answers, the plan [agenticPlanningFlow]
    returns has an array as [pasos] and a truthy [plan] and
    [detallesVisualizacion]: a missing or empty property of the answer is
    replaced by its default, and an exception by the degraded plan. *)
Theorem flow_plan_is_well_formed (input : AgenticPlanningInput) (w : World) :
  let p := fst (agenticPlanningFlow World createDetailedPlan gatherFlow input w) in
  (exists items, pasos p = Some (Arr items))
  /\ (exists v, plan p = Some v /\ Json.truthy v = true)
  /\ (exists d, detallesVisualizacion p = Some d /\ Json.truthy d = true).
Proof.
  cbv zeta. unfold agenticPlanningFlow.
  destruct (flowBody World createDetailedPlan gatherFlow input w) as [[p|e] w'] eqn:E;
    cbn [fst].
  2:{ cbn. repeat split; eauto. }
  revert E. unfold flowBody. unfold bind at 1.
  destruct (gatherFlow input w) as [[ctx|e] w1]; [|discriminate].
  unfold bind at 1.
  destruct (createDetailedPlan _ _ _ _ w1) as [[planResult|e] w2]; [|discriminate].
  destruct (_ || _); [discriminate|].
  destruct (member planResult "plan") as [pl|e1];
    destruct (member planResult "pasos") as [ps|e2];
    destruct (member planResult "detallesVisualizacion") as [d|e3];
    try discriminate.
  intros H. inversion H; subst. cbn [pasos plan detallesVisualizacion].
  split; [|split].
  - destruct ps as [[| | | |items|]|]; eauto.
  - eexists. split; [reflexivity|]. now apply orDefault_truthy.
  - eexists. split; [reflexivity|]. now apply orDefault_truthy.
Qed.

End Flows.
End PlannerFacts.

(* ================================================================== *)
(** * Further properties of the extraction of structured responses *)
(* ================================================================== *)

Module GeminiFacts.
Import JS Regex Gemini.

(** A text without braces. *)
Fixpoint braceFree (s : string) : bool :=
  match s with
  | EmptyString => true
  | String c s' => negb (Ascii.eqb c "{") && negb (Ascii.eqb c "}") && braceFree s'
  end.

(** [closesAtEnd s count]: read from a nesting depth of [count], the
    braces of [s] come back to depth 0 at the last character of [s] and not
    before. *)
Fixpoint closesAtEnd (s : string) (count : Z) : bool :=
  match s with
  | EmptyString => false
  | String c s' =>
      if Ascii.eqb c "{" then closesAtEnd s' (count + 1)
      else if Ascii.eqb c "}" then
        if (count - 1 =? 0)%Z then negb (JS.truthy s') else closesAtEnd s' (count - 1)
      else closesAtEnd s' count
  end.

Lemma substring_middle (a b c : string) :
  String.substring (String.length a) (String.length b) (a +:+ b +:+ c) = b.
Proof.
  induction a as [|x a IH]; [|exact IH].
  cbn [String.append String.length]. induction b as [|y b IHb].
  - destruct c; reflexivity.
  - cbn. now rewrite IHb.
Qed.

(** The search for a fenced block finds nothing in a text without a
    fence. *)
Lemma search_without_fence (s pre : string) :
  includes s GeminiSpec.fence = false -> searchFrom jsonCodeBlockRegex pre s = None.
Proof.
  revert pre. induction s as [|c s IH]; intros pre H.
  - reflexivity.
  - pose proof (GeminiSpec.includes_startsWith _ _ H) as Hs.
    cbn [searchFrom]. unfold matchAt, jsonCodeBlockRegex. cbn [run].
    unfold GeminiSpec.fence in Hs. rewrite Hs.
    apply IH. exact (GeminiSpec.includes_tail _ _ _ H).
Qed.

Section Scan.
Variable JSON_parse : string -> option Json.value.

Local Abbreviation scan := (balancedScan JSON_parse "{" "}" Json.isObject).

Lemma scan_brace_free (text pre rest : string) (i : nat) (count : Z) (start : option nat) :
  braceFree pre = true ->
  scan text (pre +:+ rest) i count start
  = scan text rest (i + String.length pre) count start.
Proof.
  revert i. induction pre as [|c pre IH]; intros i H.
  - cbn. f_equal. lia.
  - cbn [braceFree] in H. apply andb_true_iff in H as [H Hpre].
    apply andb_true_iff in H as [Ho Hc].
    apply negb_true_iff in Ho. apply negb_true_iff in Hc.
    cbn [String.append balancedScan String.length]. rewrite Ho, Hc.
    rewrite (IH (S i) Hpre). f_equal. lia.
Qed.

Lemma scan_inside (text s post : string) (v : Json.value) (st : nat) :
  Json.isObject v = true ->
  forall (i : nat) (count : Z),
    (1 <= count)%Z ->
    closesAtEnd s count = true ->
    JSON_parse (String.substring st (i + String.length s - st) text) = Some v ->
    scan text (s +:+ post) i count (Some st) = Some v.
Proof.
  intros Hv. induction s as [|c s IH]; intros i count Hcount Hclose Hparse;
    [discriminate|].
  cbn [closesAtEnd] in Hclose. cbn [String.append balancedScan].
  replace (i + String.length (String c s))%nat with (S i + String.length s)%nat
    in Hparse by (cbn; lia).
  destruct (Ascii.eqb c "{").
  - replace (count =? 0)%Z with false by (symmetry; apply Z.eqb_neq; lia).
    apply IH; [lia | exact Hclose | exact Hparse].
  - destruct (Ascii.eqb c "}").
    + cbv zeta. destruct (count - 1 =? 0)%Z eqn:Hz.
      * destruct s; [|discriminate]. cbn [String.length] in Hparse.
        replace (S i + 0)%nat with (S i) in Hparse by lia.
        now rewrite Hparse, Hv.
      * apply Z.eqb_neq in Hz. apply IH; [lia | exact Hclose | exact Hparse].
    + apply IH; [lia | exact Hclose | exact Hparse].
Qed.

(** X16: an object in the middle of prose is found. Let the answer be some
    text without braces, then a text that [JSON.parse] reads as an object,
    which starts with an opening brace and whose braces close at
    its end and not before, then any text at all. When the answer as a
    whole is not JSON and holds no fence, the extraction gives the value of
    the middle text, and so does the reading of the answer. *)
Theorem embedded_object_is_found (schema : StructuredOutputConfig)
    (pre t post : string) (v : Json.value) :
  JSON_parse (pre +:+ t +:+ post) = None ->
  includes (pre +:+ t +:+ post) GeminiSpec.fence = false ->
  braceFree pre = true ->
  startsWith t "{" = true ->
  closesAtEnd t 0 = true ->
  JSON_parse t = Some v ->
  Json.isObject v = true ->
  extractJsonFromText JSON_parse (pre +:+ t +:+ post) = Some v
  /\ getStructuredResponse JSON_parse schema (pre +:+ t +:+ post) = v.
Proof.
  intros Hwhole Hfence Hpre Hstart Hclose Hparse Hv.
  assert (Hgen : forall text,
             JSON_parse (String.substring (String.length pre) (String.length t) text)
             = Some v ->
             scan text (pre +:+ t +:+ post) 0 0 None = Some v).
  { intros text Hsub. rewrite scan_brace_free by exact Hpre. cbn [Nat.add].
    destruct t as [|c t']; [discriminate|].
    cbn [startsWith] in Hstart. rewrite andb_true_r in Hstart.
    rewrite Ascii.eqb_sym in Hstart.
    cbn [closesAtEnd] in Hclose. rewrite Hstart in Hclose.
    cbn [String.append balancedScan]. rewrite Hstart. cbn [Z.eqb Z.add].
    apply scan_inside; [exact Hv | lia | exact Hclose |].
    replace (S (String.length pre) + String.length t' - String.length pre)%nat
      with (String.length (String c t')) by (cbn; lia).
    exact Hsub. }
  assert (Hscan : scan (pre +:+ t +:+ post) (pre +:+ t +:+ post) 0 0 None = Some v).
  { apply Hgen. now rewrite substring_middle. }
  assert (Hex : extractJsonFromText JSON_parse (pre +:+ t +:+ post) = Some v).
  { unfold extractJsonFromText, search. rewrite Hwhole.
    rewrite (search_without_fence _ _ Hfence). cbn [orElse]. now rewrite Hscan. }
  split; [exact Hex|].
  unfold getStructuredResponse. rewrite Hwhole, Hex.
  destruct v; try discriminate; reflexivity.
Qed.

End Scan.

Lemma embedded_object_is_found_witness :
  getStructuredResponse GeminiSpec.toyParse GeminiSpec.planSchema
    "Aqui va: {} y nada mas"
  = Json.Obj [].
Proof.
  apply (embedded_object_is_found GeminiSpec.toyParse GeminiSpec.planSchema
           "Aqui va: " "{}" " y nada mas" (Json.Obj []));
    reflexivity.
Defined.

End GeminiFacts.

(* ================================================================== *)
(** * Properties of the log, the retries, the command tool and the client *)
(* ================================================================== *)

Module LogsSpec.
Import Logs.








End LogsSpec.

Module RetrySpec.
Import JS Host Retry.

Lemma includes_app_r (a b p : string) :
  includes b p = true -> includes (a +:+ b) p = true.
Proof.
  intros H. induction a as [|c a IH]; [exact H|].
  cbn [String.append includes]. rewrite IH. apply orb_true_r.
Qed.

(** The processed message of a failure passes the test for a retry
    exactly when the message of the failure holds 500 and none of 403, 429
    and quota. *)
Lemma retried_processed (m : string) :
  retried (processed m)
  = mentions m "500" && negb (mentions m "403") && negb (mentions m "429")
    && negb (mentions m "quota").
Proof.
  unfold processed.
  destruct (mentions m "403") eqn:H403.
  { rewrite andb_false_r. reflexivity. }
  destruct (mentions m "429") eqn:H429.
  { cbn [orb]. rewrite andb_false_r. reflexivity. }
  destruct (mentions m "quota") eqn:Hq.
  { cbn [orb]. rewrite andb_false_r. reflexivity. }
  cbn [orb negb]. rewrite !andb_true_r.
  unfold mentions in *. unfold or_else.
  destruct (truthy m) eqn:Hm; cbn [andb] in *; [|reflexivity].
  unfold retried.
  change (includes ("Error en la llamada a la API de Gemini: " +:+ m) "429")
    with (includes m "429").
  change (includes ("Error en la llamada a la API de Gemini: " +:+ m) "500")
    with (includes m "500").
  now rewrite H429.
Qed.

(** What [withRetry] throws for a failure it does not retry: the processed
    error, or the [TypeError] that ended [handleApiError]. *)
Definition thrownFor (e : Failure) : thrown :=
  match handleApiError e with
  | inl message => ErrorObj message None
  | inr typeError => typeError
  end.

(** The failures after which the loop goes on. *)
Definition goesOn (e : Failure) : bool :=
  match handleApiError e with
  | inl message => retried message
  | inr _ => false
  end.

(** A failure whose message holds 500 and none of 403, 429 and quota. *)
Definition serverError (e : Failure) : bool :=
  match e with
  | WithMessage m =>
      mentions m "500" && negb (mentions m "403") && negb (mentions m "429")
      && negb (mentions m "quota")
  | _ => false
  end.

Lemma goesOn_serverError (e : Failure) : goesOn e = serverError e.
Proof.
  destruct e as [| |m| |]; try reflexivity.
  unfold goesOn, serverError, handleApiError. apply retried_processed.
Qed.

Lemma thrownFor_not_exhausted (e : Failure) :
  thrownFor e <> ErrorObj "Máximo de reintentos alcanzado" None.
Proof.
  assert (Hp : forall m, ErrorObj (processed m) None
                         <> ErrorObj "Máximo de reintentos alcanzado" None).
  { intros m H. inversion H as [Hm]. revert Hm. unfold processed.
    destruct (mentions m "403"); [discriminate|].
    destruct (_ || _); [discriminate|].
    intros Hm. apply (f_equal (fun s => startsWith s "E")) in Hm. discriminate. }
  destruct e as [| |m| |]; try discriminate; apply Hp.
Qed.

Section Runs.
Variable World : Type.
Variable A : Type.
Variable operation : World -> (A + Failure) * World.
Variable sleep : Z -> World -> World.

Local Abbreviation JWorld := (World * list (Event A))%type.

(** The journal of a call of [withRetry] in a world. *)
Definition journal (w : World) : list (Event A) :=
  snd (snd (withRetry JWorld A (journalled operation) (journalledSleep sleep) (w, []))).

Definition outcome (w : World) : A + thrown :=
  fst (withRetry World A operation sleep w).

(** How a call ends whose last attempt ended with [r]. *)
Definition answer (r : A + Failure) : A + thrown :=
  match r with
  | inl result => inl result
  | inr e => inr (thrownFor e)
  end.

(** The attempts after which the loop goes on. *)
Definition again (r : A + Failure) : bool :=
  match r with
  | inl _ => false
  | inr e => goesOn e
  end.

(** X19: a call of [withRetry] makes one, two or three attempts, waits
    1000 ms before the second and 2000 ms before the third, and does not
    wait after the last one. Every attempt but the last failed with a
    server error, and the call ends as its last attempt did: it returns
    what that attempt returned, or throws for its failure the processed
    error, or the [TypeError] that reading the failure raised. It never
    ends with the error of the exhausted retries. *)
Theorem withRetry_attempts (w : World) :
  ((exists r1,
       journal w = [Attempt r1] /\ again r1 = false /\ outcome w = answer r1)
   \/ (exists e1 r2,
         journal w = [Attempt (inr e1); Wait 1000; Attempt r2]
         /\ goesOn e1 = true /\ again r2 = false /\ outcome w = answer r2)
   \/ (exists e1 e2 r3,
         journal w = [Attempt (inr e1); Wait 1000; Attempt (inr e2); Wait 2000;
                      Attempt r3]
         /\ goesOn e1 = true /\ goesOn e2 = true /\ outcome w = answer r3))
  /\ outcome w <> inr (ErrorObj "Máximo de reintentos alcanzado" None).
Proof.
  assert (Hne : forall r, answer r <> inr (ErrorObj "Máximo de reintentos alcanzado" None)).
  { intros [a|e]; [discriminate|]. intros H. inversion H as [H'].
    now apply thrownFor_not_exhausted in H'. }
  assert (Hcases :
    (exists r1,
        journal w = [Attempt r1] /\ again r1 = false /\ outcome w = answer r1)
    \/ (exists e1 r2,
          journal w = [Attempt (inr e1); Wait 1000; Attempt r2]
          /\ goesOn e1 = true /\ again r2 = false /\ outcome w = answer r2)
    \/ (exists e1 e2 r3,
          journal w = [Attempt (inr e1); Wait 1000; Attempt (inr e2); Wait 2000;
                       Attempt r3]
          /\ goesOn e1 = true /\ goesOn e2 = true /\ outcome w = answer r3)).
  { unfold journal, outcome, withRetry. change maxRetries with 3%nat.
    cbn [attempts]. change maxRetries with 3%nat.
    change (0 <? Z.of_nat 3 - 1)%Z with true.
    change (0 + 1 <? Z.of_nat 3 - 1)%Z with true.
    change (0 + 1 + 1 <? Z.of_nat 3 - 1)%Z with false.
    change (retryDelay * 2 ^ 0)%Z with 1000%Z.
    change (retryDelay * 2 ^ (0 + 1))%Z with 2000%Z.
    cbv iota. unfold journalled, journalledSleep. cbn [fst snd].
    destruct (operation w) as [[a1|e1] w1]; cbn [fst snd app].
    { left. exists (inl a1). repeat split. }
    destruct (handleApiError e1) as [m1|t1] eqn:H1; cbn [fst snd].
    2:{ left. exists (inr e1). unfold again, goesOn, answer, thrownFor.
        rewrite H1. repeat split. }
    destruct (negb (includes m1 "429") && negb (includes m1 "500")) eqn:G1;
      cbn [fst snd].
    { left. exists (inr e1). unfold again, goesOn, answer, thrownFor, retried.
      rewrite H1. apply andb_true_iff in G1 as [Ga Gb].
      apply negb_true_iff in Ga. apply negb_true_iff in Gb.
      rewrite Ga, Gb. repeat split. }
    assert (On1 : goesOn e1 = true).
    { unfold goesOn, retried. rewrite H1.
      destruct (includes m1 "429"); [reflexivity|].
      destruct (includes m1 "500"); [reflexivity | discriminate]. }
    right.
    destruct (operation (sleep 1000 w1)) as [[a2|e2] w2]; cbn [fst snd app].
    { left. exists e1, (inl a2). repeat split. exact On1. }
    destruct (handleApiError e2) as [m2|t2] eqn:H2; cbn [fst snd].
    2:{ left. exists e1, (inr e2). unfold again, answer, thrownFor.
        unfold goesOn at 2. rewrite H2. repeat split. exact On1. }
    destruct (negb (includes m2 "429") && negb (includes m2 "500")) eqn:G2;
      cbn [fst snd].
    { left. exists e1, (inr e2). unfold again, answer, thrownFor.
      unfold goesOn at 2. unfold retried.
      rewrite H2. apply andb_true_iff in G2 as [Ga Gb].
      apply negb_true_iff in Ga. apply negb_true_iff in Gb.
      rewrite Ga, Gb. repeat split. exact On1. }
    assert (On2 : goesOn e2 = true).
    { unfold goesOn, retried. rewrite H2.
      destruct (includes m2 "429"); [reflexivity|].
      destruct (includes m2 "500"); [reflexivity | discriminate]. }
    right.
    destruct (operation (sleep 2000 w2)) as [[a3|e3] w3]; cbn [fst snd app].
    { exists e1, e2, (inl a3). repeat split; assumption. }
    destruct (handleApiError e3) as [m3|t3] eqn:H3; cbn [fst snd].
    2:{ exists e1, e2, (inr e3). unfold answer, thrownFor. rewrite H3.
        repeat split; assumption. }
    exists e1, e2, (inr e3). unfold answer, thrownFor. rewrite H3.
    destruct (negb (includes m3 "429") && negb (includes m3 "500"));
      cbn [fst snd default]; repeat split; assumption. }
  split; [exact Hcases|].
  destruct Hcases
    as [[r1 [_ [_ Ho]]]
       | [[e1 [r2 [_ [_ [_ Ho]]]]] | [e1 [e2 [r3 [_ [_ [_ Ho]]]]]]]];
    rewrite Ho; apply Hne.
Qed.

(** X18: only server errors are tried again. The processed message of a
    failure passes the test for a retry exactly when the message of the
    failure is a string that holds 500 and none of 403, 429 and quota: the
    texts [handleApiError] gives an error of authorization and an error of
    quota hold neither 429 nor 500. So when the first attempt fails in any
    other way, a rate limit (429) included, the operation is not called
    again: the processed error is thrown at once, and for a thrown [null]
    or [undefined] the [TypeError] of reading its message is, as for a
    message without [includes] the [TypeError] of calling it. *)
Theorem only_server_errors_are_retried :
  (forall m,
      retried (processed m)
      = mentions m "500" && negb (mentions m "403") && negb (mentions m "429")
        && negb (mentions m "quota"))
  /\ (forall e, goesOn e = serverError e)
  /\ (forall (w w1 : World) (e : Failure),
        operation w = (inr e, w1) ->
        serverError e = false ->
        withRetry World A operation sleep w = (inr (thrownFor e), w1)
        /\ journal w = [Attempt (inr e)])
  /\ thrownFor ThrownNull
     = ErrorObj "Cannot read properties of null (reading 'message')" None
  /\ thrownFor ThrownUndefined
     = ErrorObj "Cannot read properties of undefined (reading 'message')" None
  /\ (forall m, thrownFor (WithMessage m) = ErrorObj (processed m) None)
  /\ thrownFor WithoutMessage
     = ErrorObj "Error en la llamada a la API de Gemini: Error desconocido" None
  /\ thrownFor WithOddMessage
     = ErrorObj "error.message.includes is not a function" None.
Proof.
  split; [exact retried_processed|].
  split; [exact goesOn_serverError|].
  split; [|repeat split].
  intros w w1 e Hop Hfinal. rewrite <- goesOn_serverError in Hfinal.
  unfold journal, withRetry, maxRetries. cbn [attempts].
  unfold journalled. cbn [fst snd]. rewrite Hop.
  unfold goesOn, retried in Hfinal. unfold thrownFor.
  destruct (handleApiError e) as [m|t]; [|split; reflexivity].
  apply orb_false_elim in Hfinal as [H429 H500].
  rewrite H429, H500. split; reflexivity.
Qed.

End Runs.

(** An operation that always fails with the error of a rate limit, and one
    that always throws [null], in a world that counts the calls. *)
Definition rateLimited (calls : nat) : (unit + Failure) * nat :=
  (inr (WithMessage "[429 Too Many Requests] Resource has been exhausted"), S calls).

Definition throwsNull (calls : nat) : (unit + Failure) * nat :=
  (inr ThrownNull, S calls).

Lemma only_server_errors_are_retried_witness :
  withRetry nat unit rateLimited (fun _ calls => calls) 0%nat
  = (inr (ErrorObj quotaMessage None), 1%nat)
  /\ withRetry nat unit throwsNull (fun _ calls => calls) 0%nat
     = (inr (ErrorObj "Cannot read properties of null (reading 'message')" None),
        1%nat).
Proof.
  destruct (only_server_errors_are_retried nat unit rateLimited (fun _ calls => calls))
    as [_ [_ [H _]]].
  destruct (only_server_errors_are_retried nat unit throwsNull (fun _ calls => calls))
    as [_ [_ [H' _]]].
  destruct (H 0%nat 1%nat
              (WithMessage "[429 Too Many Requests] Resource has been exhausted")
              eq_refl eq_refl) as [Hrun _].
  destruct (H' 0%nat 1%nat ThrownNull eq_refl eq_refl) as [Hrun' _].
  split; [exact Hrun | exact Hrun'].
Defined.

End RetrySpec.

Module ToolsSpec.
Import JS Host Tools.

(** X20: the text of a command is never cut into several tokens. It is
    handed to [bash -c] whole when it holds a space or one of the shell's
    operators, which is always so when a directory is given; otherwise it
    is the one token of the command, and an empty text gives no token at
    all. *)
Theorem command_is_one_script_or_one_token (args : ExecArgs) :
  let c := commandToExecute args in
  (needsShell c = true -> baseParts c = ["bash"; "-c"; c])
  /\ (needsShell c = false -> baseParts c = if truthy c then [c] else [])
  /\ (forall d, directory args = Some d -> truthy d = true ->
        baseParts c = ["bash"; "-c"; "cd " +:+ d +:+ " && " +:+ command args]).
Proof.
  cbv zeta. split; [|split].
  - intros H. unfold baseParts. now rewrite H.
  - intros H. unfold baseParts. rewrite H.
    unfold needsShell in H. repeat (apply orb_false_elim in H as [H ?]).
    rewrite StringFacts.split_without_separator by assumption.
    destruct (commandToExecute args); reflexivity.
  - intros d Hd Ht. unfold commandToExecute. rewrite Hd, Ht.
    unfold baseParts, needsShell.
    replace (includes ("cd " +:+ d +:+ " && " +:+ command args) " ") with true
      by reflexivity.
    now rewrite !orb_true_r.
Qed.

Section Callback.
Variable World : Type.
Variable spawn : string -> World -> ProcResult * World.
Variable numberToString : float -> string.

(** X21: what the callback reports as success is that the request
    reached a container, not that the command succeeded: [success] is true
    exactly when a container id was given and the container exists, whatever
    the exit status of the command. *)
Theorem success_means_container_exists (args : ExecArgs) (w : World) :
  res_success (fst (shell_execute_command World spawn numberToString args w))
  = truthy (container_id args)
    && Executor.containerExists World spawn (container_id args) w.
Proof.
  unfold shell_execute_command.
  destruct (truthy (container_id args)) eqn:Hid; cbn [andb].
  - destruct (Executor.containerExists World spawn (container_id args) w) eqn:Hex.
    + destruct (RepairSpec.executeCommand_returns_text World spawn (container_id args)
                  (commandParts numberToString args) w Hid Hex) as [text Ht].
      destruct (ServerService.executeCommand World spawn _ _ w) as [r w'].
      cbn [fst] in Ht. subst r. reflexivity.
    + unfold ServerService.executeCommand, Executor.POST.
      rewrite Hid. cbn [negb]. unfold Executor.containerExists in Hex.
      destruct (execSync World spawn _ defaultMaxBuffer w) as [[o|e] w1];
        [discriminate | reflexivity].
  - unfold ServerService.executeCommand, Executor.POST. rewrite Hid. reflexivity.
Qed.

End Callback.

End ToolsSpec.


Module ClientSpec.
Import JS Host Eff Routes Pool Client.

Section Service.
Variable World : Type.
Variable spawn : string -> World -> ProcResult * World.
Variable now : World -> Z.
Variable toISOString : Z -> string.
Variable writeDockerfile : World -> option thrown * World.

Local Abbreviation execute :=
  (executeCommand World spawn now toISOString writeDockerfile).

(** X22: unlike the server-side service, the client-side one tells a
    command that failed from one that succeeded. On an initialised service
    and for a container that exists, a command whose streams are within the
    buffer ceiling returns its standard output, trimmed of the white space
    around it, when it exits with status 0, and otherwise throws an error
    whose message is the standard error of the command, or
    [Command failed: ] and the command line when the command wrote none. *)
Theorem client_executeCommand_outcome (containerId : string) (command : list string)
    (st : St World) :
  isInitialized st = true ->
  truthy containerId = true ->
  Executor.containerExists World spawn containerId (world st) = true ->
  let r := fst (spawn (Executor.execLine containerId command)
                  (Executor.worldBeforeExec World spawn containerId (world st))) in
  (N.of_nat (String.length (pr_stdout r)) <= Executor.maxBuffer)%N ->
  (N.of_nat (String.length (pr_stderr r)) <= Executor.maxBuffer)%N ->
  fst (execute containerId command st)
  = if (pr_status r =? 0)%Z then inl (Some (trim (pr_stdout r)))
    else inr (ErrorObj
                (if truthy (pr_stderr r) then pr_stderr r
                 else "Command failed: " +:+ Executor.execLine containerId command)
                None).
Proof.
  intros Hinit Hid Hex r Hout Herr.
  unfold executeCommand. unfold bind at 1. unfold ensureInitialized. rewrite Hinit.
  unfold bind at 1. unfold call.
  pose proof (ExecutorSpec.POST_existing World spawn containerId command (world st)
                Hid Hex) as Hpost.
  destruct (Executor.POST World spawn containerId command (world st)) as [response w'].
  cbn [fst] in Hpost. subst response.
  unfold execSync. subst r.
  destruct (spawn (Executor.execLine containerId command) _) as [r w3]. cbn [fst] in *.
  apply N.ltb_ge in Hout. apply N.ltb_ge in Herr. rewrite Hout, Herr. cbn [orb fst].
  destruct (pr_status r =? 0)%Z; [reflexivity|].
  cbn. unfold errorMsg, orText, or_else. cbn.
  destruct (pr_stderr r); [|reflexivity].
  cbn. now rewrite StringFacts.app_nil_r.
Qed.

(** X23: the client-side cleanup empties the pool of the service as soon
    as the cleanup endpoint could read the listing, whether or not any
    container was removed; when the endpoint could not, the call throws and
    the pool is as it was. *)
Theorem client_cleanup_clears_pool (st : St World) :
  let readable :=
    match run World spawn psBrief (world st) with
    | (inl output, _) =>
        match filterM briefIsApp (map parseBrief (outputLines output)) with
        | inl _ => true
        | inr _ => false
        end
    | (inr _, _) => false
    end in
  let result := cleanup World spawn st in
  if readable then fst result = inl tt /\ containerPool (snd result) = ∅
  else fst result = inr (error "Error al limpiar recursos: Internal Server Error")
       /\ containerPool (snd result) = containerPool st.
Proof.
  cbv zeta. unfold cleanup, bind, call, POST_cleanup.
  destruct (run World spawn psBrief (world st)) as [[output|e] w1].
  - destruct (filterM briefIsApp (map parseBrief (outputLines output)))
      as [containers|e].
    + destruct (removeEach World spawn containers w1) as [results w2].
      split; reflexivity.
    + split; reflexivity.
  - split; reflexivity.
Qed.

End Service.
End ClientSpec.

(* ================================================================== *)
(** * The server-side executor and examples on the small runtime *)
(* ================================================================== *)

Module ServerFacts.
Import JS Host.

Section Service.
Variable World : Type.
Variable spawn : string -> World -> ProcResult * World.

(** X24: the server-side [executeCommand] does not tell a command that
    failed from one that succeeded. For a container that exists and a
    command whose streams are within the buffer ceiling it returns, and
    never throws: the standard output, trimmed of the white space around
    it, when the command exits with status 0, and otherwise the standard
    error of the command, or [Command failed: ] and the command line when
    the command wrote none. *)
Theorem server_executeCommand_outcome (containerId : string) (command : list string)
    (w : World) :
  truthy containerId = true ->
  Executor.containerExists World spawn containerId w = true ->
  let r := fst (spawn (Executor.execLine containerId command)
                  (Executor.worldBeforeExec World spawn containerId w)) in
  (N.of_nat (String.length (pr_stdout r)) <= Executor.maxBuffer)%N ->
  (N.of_nat (String.length (pr_stderr r)) <= Executor.maxBuffer)%N ->
  fst (ServerService.executeCommand World spawn containerId command w)
  = inl (if (pr_status r =? 0)%Z then trim (pr_stdout r)
         else if truthy (pr_stderr r) then pr_stderr r
         else "Command failed: " +:+ Executor.execLine containerId command).
Proof.
  intros Hid Hex r Hout Herr. unfold ServerService.executeCommand.
  pose proof (ExecutorSpec.POST_existing World spawn containerId command w Hid Hex)
    as Hpost.
  destruct (Executor.POST World spawn containerId command w) as [response w'].
  cbn [fst] in Hpost. subst response.
  unfold execSync. subst r.
  destruct (spawn (Executor.execLine containerId command) _) as [r w3]. cbn [fst] in *.
  apply N.ltb_ge in Hout. apply N.ltb_ge in Herr. rewrite Hout, Herr. cbn [orb fst].
  destruct (pr_status r =? 0)%Z.
  - cbn. unfold or_else. destruct (trim (pr_stdout r)); reflexivity.
  - cbn. unfold or_else. destruct (pr_stderr r); [|reflexivity].
    cbn. now rewrite StringFacts.app_nil_r.
Qed.

End Service.

Lemma server_executeCommand_outcome_witness :
  fst (ServerService.executeCommand unit Scenario.failingHost "c1" ["cat"; "notes.txt"] tt)
  = inl "cat: notes.txt: No such file or directory"
  /\ fst (ServerService.executeCommand unit Scenario.silentHost "c1" ["false"] tt)
     = inl ("Command failed: docker exec c1 " +:+ dq +:+ "false" +:+ dq)
  /\ fst (ServerService.executeCommand unit Scenario.paddedHost "c1" ["run"] tt)
     = inl "done".
Proof.
  split; [|split].
  - rewrite (server_executeCommand_outcome unit Scenario.failingHost "c1"
               ["cat"; "notes.txt"] tt eq_refl eq_refl);
      [reflexivity | vm_compute; discriminate | vm_compute; discriminate].
  - rewrite (server_executeCommand_outcome unit Scenario.silentHost "c1"
               ["false"] tt eq_refl eq_refl);
      [reflexivity | vm_compute; discriminate | vm_compute; discriminate].
  - rewrite (server_executeCommand_outcome unit Scenario.paddedHost "c1"
               ["run"] tt eq_refl eq_refl);
      [reflexivity | vm_compute; discriminate | vm_compute; discriminate].
Defined.

End ServerFacts.

Module Examples.
Import JS Host Eff Routes Scenario.

Definition clockOfUnit (w : unit) : Z := 0.
Definition isoOfInstant (t : Z) : string := pretty t.
Definition noDockerfileUnit (w : unit) : option thrown * unit := (None, w).

(** A client-side service, initialised, in front of a host. *)
Definition failingClient : Pool.St unit := Pool.mkSt tt ∅ true (Some None) [].

Lemma client_executeCommand_outcome_witness :
  fst (Client.executeCommand unit failingHost clockOfUnit isoOfInstant noDockerfileUnit
         "c1" ["cat"; "notes.txt"] failingClient)
  = inr (ErrorObj "cat: notes.txt: No such file or directory" None)
  /\ fst (Client.executeCommand unit silentHost clockOfUnit isoOfInstant
            noDockerfileUnit "c1" ["false"] failingClient)
     = inr (ErrorObj ("Command failed: docker exec c1 " +:+ dq +:+ "false" +:+ dq) None)
  /\ fst (Client.executeCommand unit paddedHost clockOfUnit isoOfInstant
            noDockerfileUnit "c1" ["run"] failingClient)
     = inl (Some "done").
Proof.
  split; [|split].
  - rewrite (ClientSpec.client_executeCommand_outcome unit failingHost clockOfUnit
               isoOfInstant noDockerfileUnit "c1" ["cat"; "notes.txt"] failingClient
               eq_refl eq_refl eq_refl);
      [reflexivity | vm_compute; discriminate | vm_compute; discriminate].
  - rewrite (ClientSpec.client_executeCommand_outcome unit silentHost clockOfUnit
               isoOfInstant noDockerfileUnit "c1" ["false"] failingClient
               eq_refl eq_refl eq_refl);
      [reflexivity | vm_compute; discriminate | vm_compute; discriminate].
  - rewrite (ClientSpec.client_executeCommand_outcome unit paddedHost clockOfUnit
               isoOfInstant noDockerfileUnit "c1" ["run"] failingClient
               eq_refl eq_refl eq_refl);
      [reflexivity | vm_compute; discriminate | vm_compute; discriminate].
Defined.

(** On the failing host [docker --version] fails, and so does the
    initialization. *)
Lemma failed_initialization_is_kept_witness :
  fst (Pool.getAvailableContainer unit failingHost clockOfUnit isoOfInstant
         (fun _ => true) noDockerfileUnit readInstant None
         (Pool.construct unit failingHost clockOfUnit isoOfInstant noDockerfileUnit tt))
  = inr (ErrorObj "Error al inicializar Docker: Internal Server Error" None).
Proof.
  pose proof (PoolFacts.failed_initialization_is_kept unit failingHost clockOfUnit
                isoOfInstant (fun _ => true) noDockerfileUnit readInstant tt tt
                (mkResponse 500
                   (inr {| err_error := "Docker no está instalado o no está en ejecución";
                           err_details := None |}))
                eq_refl eq_refl None tt) as H.
  cbv zeta in H.
  change (PoolFacts.inWorld unit tt ?s) with s in H.
  now rewrite H.
Defined.

Lemma getAllContainers_only_adds_witness :
  is_Some (Pool.containerPool
             (snd (Pool.getAllContainers Dock runtime (service threeRunning))) !! "t2").
Proof.
  destruct (Pool.getAllContainers Dock runtime (service threeRunning))
    as [[l|e] st'] eqn:E; [|vm_compute in E; discriminate].
  destruct (PoolFacts.getAllContainers_only_adds Dock runtime _ _ _ E) as [Hin _].
  cbn [snd]. apply (Hin (listed t2)).
  assert (Hl : l = [listed t3; listed t2; listed t1]).
  { apply (f_equal fst) in E. cbn [fst] in E. vm_compute in E. inversion E. reflexivity. }
  rewrite Hl. right. now left.
Defined.

Lemma POST_container_default_is_listed_witness :
  match body (fst (POST_container Dock runtime runtimeNow printInstant parsesToArray
                     Pool.defaultConfig emptyDock)) with
  | inl info => isAppContainer info = true
  | inr _ => False
  end.
Proof.
  destruct (body (fst (POST_container Dock runtime runtimeNow printInstant parsesToArray
                         Pool.defaultConfig emptyDock))) as [info|e] eqn:E.
  - apply (RoutesFacts.POST_container_default_is_listed Dock runtime runtimeNow
             printInstant parsesToArray Pool.defaultConfig emptyDock info
             (or_introl eq_refl) E).
  - vm_compute in E. discriminate.
Defined.

Lemma POST_cleanup_reports_every_container_witness :
  Host.status (fst (POST_cleanup Dock runtime threeRunning)) = 200%nat.
Proof.
  destruct (RoutesFacts.POST_cleanup_reports_every_container Dock runtime threeRunning
              (pr_stdout (fst (runtime psBrief threeRunning)))
              (map parseBrief
                 (outputLines (pr_stdout (fst (runtime psBrief threeRunning))))))
    as [H _]; [vm_compute; reflexivity | vm_compute; reflexivity | exact H].
Defined.

End Examples.

(* ================================================================== *)
(** * Reading a listing line, and removing a container from the pool *)
(* ================================================================== *)

Module ListingFacts.
Import JS Host Eff Routes Pool.

(** X25: a line of the listing is read back field by field. When none of
    the five fields holds the separator, the line made of them is read as
    the record with that id, name, image and creation text, the status
    text as [rawStatus] and its normalized form as [status]. *)
Theorem parseLine_reads_fields (i n im st cr : string) :
  includes i "|" = false -> includes n "|" = false -> includes im "|" = false ->
  includes st "|" = false -> includes cr "|" = false ->
  parseLine (i +:+ "|" +:+ n +:+ "|" +:+ im +:+ "|" +:+ st +:+ "|" +:+ cr)
  = inl {| id := i; name := n; image := im; status := normalizedStatus st;
           rawStatus := Some st; created := Some cr; ports := None |}.
Proof.
  intros Hi Hn Him Hst Hcr. unfold parseLine, pipe.
  rewrite !StringFacts.split_field by assumption.
  rewrite (StringFacts.split_without_separator "|" cr Hcr). reflexivity.
Qed.

Lemma parseLine_reads_fields_witness :
  parseLine "t3|codeai-c|codeai-execution-env:latest|Up 1 hour|3000"
  = inl {| id := "t3"; name := "codeai-c"; image := "codeai-execution-env:latest";
           status := "running"; rawStatus := Some "Up 1 hour";
           created := Some "3000"; ports := None |}.
Proof.
  exact (parseLine_reads_fields "t3" "codeai-c" "codeai-execution-env:latest"
           "Up 1 hour" "3000" eq_refl eq_refl eq_refl eq_refl eq_refl).
Defined.

Section Service.
Variable World : Type.
Variable spawn : string -> World -> ProcResult * World.

(** X26: a removal takes a container out of the pool only when the
    removal endpoint answers ok. For a container of the pool, an ok answer
    deletes exactly its entry and the call returns; any other answer makes
    the call throw and leaves the pool as it was, the entry included. *)
Theorem removeContainer_follows_answer (containerId : string) (st : St World) :
  is_Some (containerPool st !! containerId) ->
  let response := fst (DELETE_container World spawn containerId (world st)) in
  let result := removeContainer World spawn containerId st in
  if ok response then
    fst result = inl tt
    /\ containerPool (snd result) = delete containerId (containerPool st)
    /\ containerPool (snd result) !! containerId = None
  else
    fst result = inr (error ("Error al eliminar contenedor: " +:+ statusText response))
    /\ containerPool (snd result) = containerPool st.
Proof.
  intros [c Hc]. cbv zeta. unfold removeContainer, bind, poolGet, fetch. rewrite Hc.
  destruct (DELETE_container World spawn containerId (world st)) as [response w'].
  cbn [fst]. destruct (ok response); cbn.
  - repeat split. apply lookup_delete_eq.
  - split; reflexivity.
Qed.

End Service.

Lemma removeContainer_follows_answer_witness :
  fst (removeContainer Scenario.Dock Scenario.runtime "t1"
         (snd (getAllContainers Scenario.Dock Scenario.runtime
                 (Scenario.service Scenario.threeRunning))))
  = inr (error "Error al eliminar contenedor: Internal Server Error").
Proof.
  pose proof (removeContainer_follows_answer Scenario.Dock Scenario.runtime "t1"
                (snd (getAllContainers Scenario.Dock Scenario.runtime
                        (Scenario.service Scenario.threeRunning)))) as H.
  cbv zeta in H.
  replace (ok (fst (DELETE_container Scenario.Dock Scenario.runtime "t1"
                      (world (snd (getAllContainers Scenario.Dock Scenario.runtime
                                     (Scenario.service Scenario.threeRunning)))))))
    with false in H by (vm_compute; reflexivity).
  destruct H as [H _]; [vm_compute; eauto|].
  rewrite H. f_equal.
Defined.

End ListingFacts.

(* ================================================================== *)
(** * The clean slate of the initialization *)
(* ================================================================== *)

Module InitializeFacts.
Import JS Host Eff Routes.

Section Handler.
Variable World : Type.
Variable spawn : string -> World -> ProcResult * World.
Variable now : World -> Z.
Variable toISOString : Z -> string.
Variable writeDockerfile : World -> option thrown * World.

Local Abbreviation LWorld := (World * list string)%type.
Local Abbreviation lspawn := (logged spawn).

(** The clock and the writing of the Dockerfile in a world with a journal
    of command lines: neither starts a process. *)
Definition lnow (wl : LWorld) : Z := now (fst wl).

Definition lwriteDockerfile (wl : LWorld) : option thrown * LWorld :=
  let '(r, w') := writeDockerfile (fst wl) in (r, (w', snd wl)).

(** The command lines of POST /api/docker/initialize. *)
Definition initializeJournal (w : World) : list string :=
  snd (snd (POST_initialize LWorld lspawn lnow toISOString lwriteDockerfile (w, []))).

Lemma execSyncInherit_logged (cmd : string) (w : World) (j : list string) :
  execSyncInherit LWorld lspawn cmd (w, j)
  = (fst (execSyncInherit World spawn cmd w),
     (snd (execSyncInherit World spawn cmd w), j ++ [cmd])).
Proof.
  unfold execSyncInherit, logged. cbn [fst snd]. destruct (spawn cmd w) as [r w'].
  destruct (pr_status r =? 0)%Z; reflexivity.
Qed.

(** What follows the clean slate only adds command lines. *)
Lemma after_clean_slate (w : World) (j : list string) :
  exists more,
    snd (snd (
      match ensureImage LWorld lspawn lwriteDockerfile (w, j) with
      | (Some _, w3) =>
          (mkResponse 500
             (inr {| err_error := "No se pudo crear la imagen Docker";
                     err_details := None |}), w3)
      | (None, w3) =>
          let failed :=
            mkResponse 500
              (inr {| err_error := "No se pudo crear el contenedor Docker";
                      err_details := None |}) in
          let containerName := "codeai-container-" +:+ pretty (lnow w3) in
          match run LWorld lspawn
                  ("docker run -d --name " +:+ containerName +:+ " " +:+ defaultImage) w3
          with
          | (inr _, w4) => (failed, w4)
          | (inl out, w4) =>
              let containerId := trim out in
              match run LWorld lspawn
                      ("docker exec " +:+ containerId +:+ " python3 --version") w4 with
              | (inr _, w5) => (failed, w5)
              | (inl python, w5) =>
                  match run LWorld lspawn
                          ("docker exec " +:+ containerId +:+ " node --version") w5 with
                  | (inr _, w6) => (failed, w6)
                  | (inl node, w6) =>
                      (mkResponse 200
                         (inl {| init_success := true;
                                 init_container :=
                                   {| id := containerId; name := containerName;
                                      image := defaultImage; status := "running";
                                      rawStatus := None;
                                      created := Some (toISOString (lnow w6));
                                      ports := None |};
                                 init_python := trim python;
                                 init_node := trim node |}), w6)
                  end
              end
          end
      end : Response (InitBody + ErrorBody) * LWorld)) = j ++ more.
Proof.
  assert (Himage : exists w3 more r,
             ensureImage LWorld lspawn lwriteDockerfile (w, j) = (r, (w3, j ++ more))).
  { unfold ensureImage. rewrite RoutesSpec.run_logged.
    destruct (run World spawn ("docker images -q " +:+ defaultImage) w) as [[images|e] w1];
      cbn [fst snd]; [|do 3 eexists; reflexivity].
    destruct (truthy (trim images)); [do 3 eexists; reflexivity|].
    rewrite RoutesSpec.run_logged.
    destruct (run World spawn "test -f Dockerfile" w1) as [[o|e] w2]; cbn [fst snd].
    - rewrite execSyncInherit_logged.
      destruct (execSyncInherit World spawn _ w2) as [[[]|e2] w4]; cbn [fst snd];
        rewrite <- !app_assoc; do 3 eexists; reflexivity.
    - unfold lwriteDockerfile. cbn [fst snd].
      destruct (writeDockerfile w2) as [[e2|] w3].
      + rewrite <- !app_assoc. do 3 eexists. reflexivity.
      + rewrite execSyncInherit_logged.
        destruct (execSyncInherit World spawn _ w3) as [[[]|e3] w4]; cbn [fst snd];
          rewrite <- !app_assoc; do 3 eexists; reflexivity. }
  destruct Himage as [w3 [more [r Himage]]]. rewrite Himage.
  destruct r as [e|]; [eexists; reflexivity|].
  cbv zeta. rewrite RoutesSpec.run_logged.
  destruct (run World spawn _ w3) as [[out|e] w4]; cbn [fst snd];
    [|rewrite <- !app_assoc; eexists; reflexivity].
  rewrite RoutesSpec.run_logged.
  destruct (run World spawn _ w4) as [[python|e] w5]; cbn [fst snd];
    [|rewrite <- !app_assoc; eexists; reflexivity].
  rewrite RoutesSpec.run_logged.
  destruct (run World spawn _ w5) as [[node|e] w6]; cbn [fst snd];
    rewrite <- !app_assoc; eexists; reflexivity.
Qed.

(** X27: every initialization starts with a clean slate. When the runtime
    answers and its listing shows application containers, the handler
    stops and removes all of them, in one command each, before it looks for
    the image or creates anything; the removal is run whether or not the
    stop succeeded. *)
Theorem initialize_removes_existing_containers (w : World) (output : string)
    (containers : list Brief) :
  (exists version, fst (run World spawn "docker --version" w) = inl version) ->
  fst (run World spawn psBrief (snd (spawn "docker --version" w))) = inl output ->
  filterM briefIsApp (map parseBrief (outputLines output)) = inl containers ->
  truthy (join " " (map b_id containers)) = true ->
  exists more,
    initializeJournal w
    = ["docker --version"; psBrief;
       "docker stop " +:+ join " " (map b_id containers);
       "docker rm " +:+ join " " (map b_id containers)] ++ more.
Proof.
  intros [version Hversion] Hps Hfilter Hids.
  unfold initializeJournal, POST_initialize.
  rewrite RoutesSpec.run_logged.
  assert (Hw : snd (run World spawn "docker --version" w) = snd (spawn "docker --version" w))
    by apply ExecutorSpec.execSync_world.
  destruct (run World spawn "docker --version" w) as [[v|e] w1];
    cbn [fst snd] in *; [|discriminate].
  subst w1. unfold initialCleanup at 1. rewrite RoutesSpec.run_logged.
  destruct (run World spawn psBrief (snd (spawn "docker --version" w)))
    as [[o|e] w2]; cbn [fst snd] in *; [|discriminate].
  inversion Hps; subst o. rewrite Hfilter.
  destruct containers as [|c0 cs]; [discriminate|].
  rewrite Hids. cbv zeta.
  rewrite RoutesSpec.run_logged. cbn [fst snd].
  rewrite RoutesSpec.run_logged. cbn [fst snd].
  match goal with
  | |- context [ensureImage _ _ _ (?w4, ?j4)] =>
      destruct (after_clean_slate w4 j4) as [more Hmore]
  end.
  exists more. cbn [app] in Hmore. exact Hmore.
Qed.

End Handler.

Lemma initialize_removes_existing_containers_witness :
  exists more,
    initializeJournal Scenario.Dock Scenario.runtime Scenario.runtimeNow
      Scenario.printInstant Scenario.noDockerfile Scenario.threeRunning
    = ["docker --version"; psBrief; "docker stop t3 t2 t1"; "docker rm t3 t2 t1"] ++ more.
Proof.
  apply (initialize_removes_existing_containers Scenario.Dock Scenario.runtime
           Scenario.runtimeNow Scenario.printInstant Scenario.noDockerfile
           Scenario.threeRunning
           (pr_stdout (fst (Scenario.runtime psBrief
                              (snd (Scenario.runtime "docker --version"
                                      Scenario.threeRunning)))))
           (map parseBrief
              (outputLines
                 (pr_stdout (fst (Scenario.runtime psBrief
                                    (snd (Scenario.runtime "docker --version"
                                            Scenario.threeRunning))))))));
    [eexists; vm_compute; reflexivity | vm_compute; reflexivity
    | vm_compute; reflexivity | vm_compute; reflexivity].
Defined.

End InitializeFacts.
